(** * Gotex dashboard: the client-side contract of the React front end

    A shallow embedding of the TypeScript components of the front end and
    the properties the specification states about them.

    - [JS]: the JavaScript values the code handles as [any] (parsed JSON
      bodies, the parsed local-storage value), with property reads,
      truthiness, [||], [trim] and string conversion as the language has
      them.  The browser is a parameter: [Platform] gives [JSON.parse],
      [JSON.stringify] and the [Date] conversions, [UriEncoder] gives
      [encodeURIComponent].
    - [Net], [Runtime]: requests, responses, and the event loop.  An [async]
      handler is a tree of type [Async]: it sets state, reads the clock,
      issues [fetch] requests and suspends on them.  A handler closes over
      the component state of the render that created it, so it is a
      function of that snapshot; its state setters act on the state
      current when they run.  A [World] holds the state, the requests in
      flight with the code waiting on each, and every request sent.
    - [MarketService], [TradingChart], [QueryInterface], [AppShell],
      [FileUpload], [FileUploadOverlay], [Learning]: the components, one
      module per source component, with the events of their controls.
    - Properties: one section per component. *)

From Stdlib Require Import ZArith String Ascii List Bool Lia Sorted.
From stdpp Require Import base gmap strings list pretty.

Set Warnings "-register-all".

Open Scope string_scope.
Open Scope Z_scope.
Open Scope list_scope.

(* ===================================================================== *)
(** ** JavaScript values *)
(* ===================================================================== *)

Module JS.

(** An [Error] object: its [name] and its [message]. *)
Record Error : Type := mkError { name : string; message : string }.

Definition PlainError (msg : string) : Error := mkError "Error" msg.
Definition TypeError (msg : string) : Error := mkError "TypeError" msg.
Definition SyntaxError (msg : string) : Error := mkError "SyntaxError" msg.

(** The outcome of an expression that may throw. *)
Inductive Result (A : Type) : Type :=
| Ok (a : A)
| Err (e : Error).
Arguments Ok {A} a.
Arguments Err {A} e.

Definition rbind {A B} (r : Result A) (f : A -> Result B) : Result B :=
  match r with
  | Ok a => f a
  | Err e => Err e
  end.

(** Values.  Numbers are the integral ones (the code never computes with a
    number of a response: it tests it for truthiness and stores it).  A
    [Date] object is its time value in milliseconds, [None] for an invalid
    date.  An object is the list of its own properties; a key occurs once. *)
Inductive JSValue : Type :=
| JUndefined
| JNull
| JBool (b : bool)
| JNum (n : Z)
| JStr (s : string)
| JDate (t : option Z)
| JArr (items : list JSValue)
| JObj (fields : list (string * JSValue)).

(** ToBoolean. *)
Definition truthy (v : JSValue) : bool :=
  match v with
  | JUndefined | JNull => false
  | JBool b => b
  | JNum n => negb (n =? 0)
  | JStr s => negb (String.eqb s "")
  | JDate _ | JArr _ | JObj _ => true
  end.

(** [a || b]. *)
Definition or_else (a b : JSValue) : JSValue := if truthy a then a else b.

Fixpoint lookup_field (k : string) (fields : list (string * JSValue)) : JSValue :=
  match fields with
  | [] => JUndefined
  | (k', v) :: rest => if String.eqb k k' then v else lookup_field k rest
  end.

(** [v.k] for a property name [k] that no built-in prototype defines (all
    the names this code reads are such: answer, sources, error, data,
    predictions, files, filename, url, status, current_price, question,
    timestamp, message).  Reading a property of [undefined] or [null]
    throws a [TypeError]; a primitive, an array or a date has no such
    property. *)
Definition get (v : JSValue) (k : string) : Result JSValue :=
  match v with
  | JUndefined => Err (TypeError ("Cannot read properties of undefined (reading '" +:+ k +:+ "')"))
  | JNull => Err (TypeError ("Cannot read properties of null (reading '" +:+ k +:+ "')"))
  | JObj fields => Ok (lookup_field k fields)
  | _ => Ok JUndefined
  end.

(** [{...fields, k: v}]: the property keeps its place when it exists. *)
Fixpoint set_field (k : string) (v : JSValue) (fields : list (string * JSValue))
  : list (string * JSValue) :=
  match fields with
  | [] => [(k, v)]
  | (k', v') :: rest =>
      if String.eqb k k' then (k, v) :: rest else (k', v') :: set_field k v rest
  end.

(** White space as [String.prototype.trim] strips it, for strings of 8-bit
    code units: TAB, LF, VT, FF, CR, SPACE and NBSP. *)
Definition is_space (c : ascii) : bool :=
  let n := nat_of_ascii c in
  ((9 <=? n)%nat && (n <=? 13)%nat) || (n =? 32)%nat || (n =? 160)%nat.

Fixpoint dropSpaces (cs : list ascii) : list ascii :=
  match cs with
  | [] => []
  | c :: rest => if is_space c then dropSpaces rest else cs
  end.

(** [s.trim()]: white space stripped from both ends. *)
Definition trim (s : string) : string :=
  string_of_list_ascii
    (rev (dropSpaces (rev (dropSpaces (list_ascii_of_string s))))).

(** A string of white space only (the empty string included). *)
Definition blank (s : string) : bool := forallb is_space (list_ascii_of_string s).

(** [v.trim()]: only a string has the method. *)
Definition call_trim (v : JSValue) : Result string :=
  match v with
  | JStr s => Ok (trim s)
  | JUndefined => Err (TypeError "Cannot read properties of undefined (reading 'trim')")
  | JNull => Err (TypeError "Cannot read properties of null (reading 'trim')")
  | _ => Err (TypeError "trim is not a function")
  end.

(** The own enumerable properties [{...v}] copies. *)
Definition spread (v : JSValue) : list (string * JSValue) :=
  match v with
  | JObj fields => fields
  | JArr items => imap (fun i x => (pretty (Z.of_nat i), x)) items
  | JStr s => imap (fun i c => (pretty (Z.of_nat i), JStr (String c EmptyString)))
                   (list_ascii_of_string s)
  | _ => []
  end.

(** The browser: JSON and dates.  [JSON_parse] throws a [SyntaxError] on
    text that is not JSON; [Date_from v] is the time value of [new Date(v)];
    [Date_toString] renders a valid date. *)
Class Platform : Type := {
  JSON_parse : string -> Result JSValue;
  JSON_stringify : JSValue -> string;
  Date_from : JSValue -> option Z;
  Date_toString : Z -> string
}.

(** [String(e)] for an [Error]. *)
Definition Error_toString (e : Error) : string :=
  if String.eqb (message e) "" then name e
  else if String.eqb (name e) "" then message e
  else name e +:+ ": " +:+ message e.

Fixpoint join (sep : string) (parts : list string) : string :=
  match parts with
  | [] => ""
  | [p] => p
  | p :: rest => p +:+ sep +:+ join sep rest
  end.

(** [encodeURIComponent], a built-in of the browser.  It throws a
    [URIError] on a string that is not well-formed (a lone surrogate), so
    its result is a [Result]. *)
Class UriEncoder : Type := {
  encodeURIComponent : string -> Result string
}.

(** What the built-in returns for a string of 8-bit code units: none of
    them is a surrogate, so there it does not throw.  The letters, the
    digits and [-_.!~*'()] stay; every other character is written as the
    bytes of its UTF-8 form, each as [%XX] in upper case. *)
Definition unreserved (c : ascii) : bool :=
  let n := N_of_ascii c in
  ((65 <=? n) && (n <=? 90) || (97 <=? n) && (n <=? 122) || (48 <=? n) && (n <=? 57))%N
  || existsb (Ascii.eqb c) (list_ascii_of_string "-_.!~*'()").

Definition hexDigit (n : N) : ascii :=
  nth (N.to_nat n) (list_ascii_of_string "0123456789ABCDEF") "0"%char.

Definition percent (byte : N) : string :=
  String "%" (String (hexDigit (byte / 16)) (String (hexDigit (byte mod 16)) "")).

Definition utf8 (c : ascii) : list N :=
  let n := N_of_ascii c in
  if (n <? 128)%N then [n] else [192 + n / 64; 128 + n mod 64]%N.

Definition escape (c : ascii) : string :=
  if unreserved c then String c "" else join "" (map percent (utf8 c)).

Fixpoint percentEncoded (s : string) : string :=
  match s with
  | EmptyString => ""
  | String c rest => escape c +:+ percentEncoded rest
  end.

Section WithPlatform.
Context {P : Platform}.

(** [String(v)], the conversion a template literal applies. *)
Fixpoint ToString (v : JSValue) : string :=
  match v with
  | JUndefined => "undefined"
  | JNull => "null"
  | JBool true => "true"
  | JBool false => "false"
  | JNum n => pretty n
  | JStr s => s
  | JDate None => "Invalid Date"
  | JDate (Some t) => Date_toString t
  | JArr items =>
      join "," (map (fun x => match x with
                              | JUndefined | JNull => ""
                              | _ => ToString x
                              end) items)
  | JObj _ => "[object Object]"
  end.

End WithPlatform.

End JS.

(* ===================================================================== *)
(** ** The network and the event loop *)
(* ===================================================================== *)

Module Net.
Import JS.

(** A file picked in a file input. *)
Record File : Type := mkFile { file_name : string; file_size : Z }.

Inductive FormValue : Type :=
| FormText (s : string)
| FormFile (f : File).

(** The body of a request: none, a [FormData], or a text sent with a
    [Content-Type] header. *)
Inductive Body : Type :=
| NoBody
| FormBody (fields : list (string * FormValue))
| TextBody (contentType : string) (text : string).

Record Request : Type := mkRequest { method : string; url : string; body : Body }.

(** What the code reads of a [Response]: [response.ok] and the outcome of
    [response.json()].  Every handler awaits [response.json()] right after
    the [fetch] (or after testing [ok]), with no state read or written in
    between, so the two awaits are one suspension here. *)
Record Response : Type := mkResponse { ok : bool; json : Result JSValue }.

(** How the promise of a [fetch] settles: with a response (of any status),
    or rejected on a transport failure. *)
Inductive FetchResult : Type :=
| Fulfilled (response : Response)
| Rejected (e : Error).

Definition GET (u : string) : Request := mkRequest "GET" u NoBody.
Definition POST (u : string) (b : Body) : Request := mkRequest "POST" u b.
Definition DELETE (u : string) : Request := mkRequest "DELETE" u NoBody.

End Net.

Module Runtime.
Import JS Net.

(** An asynchronous computation over an environment [E] (the state of a
    component and what it shares with the page).

    - [Read] reads the environment as it is at that moment (local storage);
    - [Act] is a state setter or a write;
    - [Now] is [Date.now()];
    - [Fetch] issues a request and suspends until its promise settles;
    - [Spawn] calls an async function without awaiting it;
    - [After] is [setTimeout]. *)
Inductive Async (E : Type) (A : Type) : Type :=
| Ret (a : A)
| Throw (e : Error)
| Read (k : E -> Async E A)
| Act (f : E -> E) (k : Async E A)
| Now (k : Z -> Async E A)
| Fetch (r : Request) (k : FetchResult -> Async E A)
| Spawn (p : Async E unit) (k : Async E A)
| After (delay : Z) (callback : Async E unit) (k : Async E A).
Arguments Ret {E A} a.
Arguments Throw {E A} e.
Arguments Read {E A} k.
Arguments Act {E A} f k.
Arguments Now {E A} k.
Arguments Fetch {E A} r k.
Arguments Spawn {E A} p k.
Arguments After {E A} delay callback k.

Fixpoint bind {E A B} (m : Async E A) (f : A -> Async E B) : Async E B :=
  match m with
  | Ret a => f a
  | Throw e => Throw e
  | Read k => Read (fun x => bind (k x) f)
  | Act g k => Act g (bind k f)
  | Now k => Now (fun t => bind (k t) f)
  | Fetch r k => Fetch r (fun x => bind (k x) f)
  | Spawn p k => Spawn p (bind k f)
  | After d cb k => After d cb (bind k f)
  end.

(** [try { m } catch (e) { h e }]. *)
Fixpoint try_catch {E A} (m : Async E A) (h : Error -> Async E A) : Async E A :=
  match m with
  | Ret a => Ret a
  | Throw e => h e
  | Read k => Read (fun x => try_catch (k x) h)
  | Act g k => Act g (try_catch k h)
  | Now k => Now (fun t => try_catch (k t) h)
  | Fetch r k => Fetch r (fun x => try_catch (k x) h)
  | Spawn p k => Spawn p (try_catch k h)
  | After d cb k => After d cb (try_catch k h)
  end.

(** [try { m } finally { fin }], for a [fin] that does not throw. *)
Fixpoint try_finally {E A} (m : Async E A) (fin : Async E unit) : Async E A :=
  match m with
  | Ret a => bind fin (fun _ => Ret a)
  | Throw e => bind fin (fun _ => Throw e)
  | Read k => Read (fun x => try_finally (k x) fin)
  | Act g k => Act g (try_finally k fin)
  | Now k => Now (fun t => try_finally (k t) fin)
  | Fetch r k => Fetch r (fun x => try_finally (k x) fin)
  | Spawn p k => Spawn p (try_finally k fin)
  | After d cb k => After d cb (try_finally k fin)
  end.

Declare Scope async_scope.
Delimit Scope async_scope with async.
Notation "x <- m ;; k" := (bind m (fun x => k))
  (at level 100, m at next level, k at level 200, right associativity) : async_scope.
Notation "m ;; k" := (bind m (fun _ => k))
  (at level 100, k at level 200, right associativity) : async_scope.

(** An expression that may throw, evaluated inside an async function. *)
Definition lift {E A} (r : Result A) : Async E A :=
  match r with
  | Ok a => Ret a
  | Err e => Throw e
  end.

Definition act {E} (f : E -> E) : Async E unit := Act f (Ret tt).

(** [await fetch(r)]. *)
Definition fetch {E} (r : Request) : Async E Response :=
  Fetch r (fun res => match res with
                      | Fulfilled response => Ret response
                      | Rejected e => Throw e
                      end).

(** The page: the environment, the requests in flight with the code that
    waits for each, the timers set, and every request sent so far. *)
Record World (E : Type) : Type := mkWorld {
  env : E;
  pending : list (Request * (FetchResult -> Async E unit));
  timers : list (Z * Async E unit);
  sent : list Request
}.
Arguments mkWorld {E} env pending timers sent.
Arguments env {E} w.
Arguments pending {E} w.
Arguments timers {E} w.
Arguments sent {E} w.

Definition boot {E} (e : E) : World E := mkWorld e [] [] [].

Definition with_env {E} (f : E -> E) (w : World E) : World E :=
  mkWorld (f (env w)) (pending w) (timers w) (sent w).

(** How a turn of the event loop leaves a computation. *)
Inductive Settled : Type :=
| Returned
| Threw (e : Error)
| Suspended.

(** One turn: the computation runs until it returns, throws or suspends on
    a [fetch]; the clock reads [now] throughout. *)
Fixpoint run {E} (now : Z) (m : Async E unit) (w : World E) : World E * Settled :=
  match m with
  | Ret _ => (w, Returned)
  | Throw e => (w, Threw e)
  | Read k => run now (k (env w)) w
  | Act f k => run now k (with_env f w)
  | Now k => run now (k now) w
  | Fetch r k =>
      (mkWorld (env w) (pending w ++ [(r, k)]) (timers w) (sent w ++ [r]), Suspended)
  | Spawn p k => run now k (fst (run now p w))
  | After d cb k =>
      run now k (mkWorld (env w) (pending w) (timers w ++ [(d, cb)]) (sent w))
  end.

(** The promise of the [i]-th request in flight settles with [res]. *)
Definition settle {E} (now : Z) (i : nat) (res : FetchResult) (w : World E) : World E :=
  match pending w !! i with
  | Some (_, k) =>
      fst (run now (k res) (mkWorld (env w) (delete i (pending w)) (timers w) (sent w)))
  | None => w
  end.

(** The [i]-th timer fires. *)
Definition fire {E} (now : Z) (i : nat) (w : World E) : World E :=
  match timers w !! i with
  | Some (_, cb) =>
      fst (run now cb (mkWorld (env w) (pending w) (delete i (timers w)) (sent w)))
  | None => w
  end.

(** [Obeys P I m]: every request [m] can issue satisfies [P] and every
    write of [m] keeps [I], in its own turns and in the computations it
    spawns or schedules. *)
Fixpoint Obeys {E : Type} (P : Request -> Prop) (I : E -> Prop) {A : Type}
    (m : Async E A) : Prop :=
  match m with
  | Ret _ => True
  | Throw _ => True
  | Read k => forall x, Obeys P I (k x)
  | Act f k => (forall e, I e -> I (f e)) /\ Obeys P I k
  | Now k => forall t, Obeys P I (k t)
  | Fetch r k => P r /\ forall x, Obeys P I (k x)
  | Spawn p k => Obeys P I p /\ Obeys P I k
  | After _ cb k => Obeys P I cb /\ Obeys P I k
  end.

(** A computation that issues no request at all. *)
Definition Quiet {E A} (m : Async E A) : Prop :=
  Obeys (fun _ => False) (fun _ => True) m.

End Runtime.

(* ===================================================================== *)
(** ** services/marketService.ts *)
(* ===================================================================== *)

Module MarketService.
Import JS Net.

Declare Scope result_scope.
Delimit Scope result_scope with result.
Notation "x <- m ;; k" := (rbind m (fun x => k))
  (at level 100, m at next level, k at level 200, right associativity) : result_scope.

Definition baseUrl : string := "http://localhost:8000".

Section WithNetwork.

(** The service has no state; each method awaits one [fetch].  A method is
    the settled value of its promise, given how the network answers. *)
Variable network : Request -> FetchResult.

Definition fetch (r : Request) : Result Response :=
  match network r with
  | Fulfilled response => Ok response
  | Rejected e => Err e
  end.

Definition liveUrl (symbol : option string) : string :=
  baseUrl +:+ "/market/live?symbol=" +:+ default "XAUUSD" symbol.

Definition getLiveData (symbol : option string) : Result JSValue :=
  (response <- fetch (GET (liveUrl symbol)) ;;
   if negb (ok response) then Err (PlainError "Failed to fetch market data")
   else json response)%result.

Definition historyUrl (symbol period interval : option string) : string :=
  baseUrl +:+ "/market/history?symbol=" +:+ default "XAUUSD" symbol
          +:+ "&period=" +:+ default "1d" period
          +:+ "&interval=" +:+ default "1h" interval.

Definition getHistoricalData (symbol period interval : option string) : Result JSValue :=
  (response <- fetch (GET (historyUrl symbol period interval)) ;;
   if negb (ok response) then Err (PlainError "Failed to fetch historical data")
   else
     data <- json response ;;
     candles <- get data "data" ;;
     Ok (or_else candles (JArr [])))%result.

Definition predictUrl (symbol : option string) (numPredictions : option Z) : string :=
  baseUrl +:+ "/market/predict?symbol=" +:+ default "XAUUSD" symbol
          +:+ "&num_predictions=" +:+ pretty (default 5 numPredictions).

Definition getPredictions (symbol : option string) (numPredictions : option Z)
  : Result JSValue :=
  (response <- fetch (GET (predictUrl symbol numPredictions)) ;;
   if negb (ok response) then Err (PlainError "Failed to fetch predictions")
   else
     data <- json response ;;
     predictions <- get data "predictions" ;;
     Ok (or_else predictions (JArr [])))%result.

Definition statusUrl : string := baseUrl +:+ "/market/status".

Definition getMarketStatus : Result JSValue :=
  (response <- fetch (GET statusUrl) ;;
   if negb (ok response) then Err (PlainError "Failed to fetch market status")
   else json response)%result.

Definition trainModel : Result JSValue :=
  (response <- fetch (POST (baseUrl +:+ "/market/train") NoBody) ;;
   if negb (ok response) then Err (PlainError "Failed to train model")
   else json response)%result.

End WithNetwork.

(** [await Promise.all([a, b])]: the pair of the two values, or the
    rejection of one that rejected (the first in the array here; the code
    that catches it makes no use of which one it is). *)
Definition Promise_all2 {A B} (a : Result A) (b : Result B) : Result (A * B) :=
  match a, b with
  | Ok x, Ok y => Ok (x, y)
  | Err e, _ => Err e
  | _, Err e => Err e
  end.

End MarketService.

(* ===================================================================== *)
(** ** components/TradingChart.tsx: the market panel *)
(* ===================================================================== *)

Module TradingChart.
Import JS Net Runtime MarketService.

Record State : Type := mkState {
  lastUpdate : string;
  currentPrice : JSValue;
  marketStatus : JSValue;
  isLoading : bool;
  error : option string
}.

Definition initial : State := mkState "" (JNum 0) (JStr "Unknown") false None.

Definition setLastUpdate (v : string) (s : State) : State :=
  mkState v (currentPrice s) (marketStatus s) (isLoading s) (error s).
Definition setCurrentPrice (v : JSValue) (s : State) : State :=
  mkState (lastUpdate s) v (marketStatus s) (isLoading s) (error s).
Definition setMarketStatus (v : JSValue) (s : State) : State :=
  mkState (lastUpdate s) (currentPrice s) v (isLoading s) (error s).
Definition setIsLoading (v : bool) (s : State) : State :=
  mkState (lastUpdate s) (currentPrice s) (marketStatus s) v (error s).
Definition setError (v : option string) (s : State) : State :=
  mkState (lastUpdate s) (currentPrice s) (marketStatus s) (isLoading s) v.

Local Open Scope async_scope.

(** [loadMarketData], given how the network answers the two calls and the
    text [new Date().toLocaleTimeString()] gives when they have settled.
    The errors it logs to the console are left out. *)
Definition loadMarketData (network : Request -> FetchResult) (symbol : string)
    (localTime : string) : Async State unit :=
  try_finally
    (try_catch
       (act (setIsLoading true) ;;
        act (setError None) ;;
        both <- lift (Promise_all2 (getMarketStatus network)
                                   (getLiveData network (Some symbol))) ;;
        let '(status, liveData) := both in
        st <- lift (get status "status") ;;
        act (setMarketStatus (or_else st (JStr "Unknown"))) ;;
        price <- lift (get liveData "current_price") ;;
        act (setCurrentPrice (or_else price (JNum 0))) ;;
        act (setLastUpdate localTime))
       (fun _ => act (setError (Some "Failed to load market data"))))
    (act (setIsLoading false)).

(** The panel after a refresh. *)
Definition refresh (network : Request -> FetchResult) (symbol localTime : string)
    (s : State) : State :=
  env (fst (run 0 (loadMarketData network symbol localTime) (boot s))).

(** The error banner is rendered when [error] is set. *)
Definition banner (s : State) : option string := error s.

End TradingChart.

(* ===================================================================== *)
(** ** components/QueryInterface.tsx: the query client *)
(* ===================================================================== *)

Module QueryInterface.
Import JS Net Runtime.

(** The component state.  [answer], [error] and [sources] receive fields of
    the response body, and [query] a field of a history entry, as they are:
    they hold values.  A history entry is an object with the properties
    id, question, answer, timestamp and sources. *)
Record State : Type := mkState {
  query : JSValue;
  answer : JSValue;
  loading : bool;
  error : JSValue;
  queryHistory : list JSValue;
  showHistory : bool;
  sources : JSValue
}.

Definition initial : State :=
  mkState (JStr "") (JStr "") false (JStr "") [] false (JArr []).

(** What the handlers act on: the state, the browser's local storage, and
    the results handed to the [onQuery] callback of the parent. *)
Record Env : Type := mkEnv {
  state : State;
  localStorage : gmap string string;
  reported : list JSValue
}.

Definition on_state (f : State -> State) (e : Env) : Env :=
  mkEnv (f (state e)) (localStorage e) (reported e).

Definition setQuery (v : JSValue) : Async Env unit :=
  act (on_state (fun s => mkState v (answer s) (loading s) (error s)
                                  (queryHistory s) (showHistory s) (sources s))).
Definition setAnswer (v : JSValue) : Async Env unit :=
  act (on_state (fun s => mkState (query s) v (loading s) (error s)
                                  (queryHistory s) (showHistory s) (sources s))).
Definition setLoading (v : bool) : Async Env unit :=
  act (on_state (fun s => mkState (query s) (answer s) v (error s)
                                  (queryHistory s) (showHistory s) (sources s))).
Definition setError (v : JSValue) : Async Env unit :=
  act (on_state (fun s => mkState (query s) (answer s) (loading s) v
                                  (queryHistory s) (showHistory s) (sources s))).
Definition setQueryHistory (v : list JSValue) : Async Env unit :=
  act (on_state (fun s => mkState (query s) (answer s) (loading s) (error s)
                                  v (showHistory s) (sources s))).
Definition setShowHistory (v : bool) : Async Env unit :=
  act (on_state (fun s => mkState (query s) (answer s) (loading s) (error s)
                                  (queryHistory s) v (sources s))).
Definition setSources (v : JSValue) : Async Env unit :=
  act (on_state (fun s => mkState (query s) (answer s) (loading s) (error s)
                                  (queryHistory s) (showHistory s) v)).

(** Local storage, with room for what is written. *)
Definition localStorage_getItem (key : string) : Async Env (option string) :=
  Read (fun e => Ret (localStorage e !! key)).
Definition localStorage_setItem (key value : string) : Async Env unit :=
  act (fun e => mkEnv (state e) (<[key := value]> (localStorage e)) (reported e)).
Definition localStorage_removeItem (key : string) : Async Env unit :=
  act (fun e => mkEnv (state e) (delete key (localStorage e)) (reported e)).

(** [onQuery?.(data)]: the parent is told when it passed a callback (the
    callback of the tab-based [App] logs the result; it does not throw). *)
Definition call_onQuery (onQuery : bool) (data : JSValue) : Async Env unit :=
  if onQuery
  then act (fun e => mkEnv (state e) (localStorage e) (reported e ++ [data]))
  else Ret tt.

Definition suggestedQuestions : list string :=
  [ "What are the current gold market trends?";
    "How does inflation affect gold prices?";
    "What are the best gold trading strategies?";
    "When is the best time to buy gold?";
    "How do central bank policies impact gold?";
    "What factors influence gold volatility?" ].

Fixpoint mapM {A B} (f : A -> Result B) (l : list A) : Result (list B) :=
  match l with
  | [] => Ok []
  | x :: rest => rbind (f x) (fun y => rbind (mapM f rest) (fun ys => Ok (y :: ys)))
  end.

(** [v.map(f)]: only an array has the method. *)
Definition call_map (v : JSValue) (f : JSValue -> Result JSValue) : Result (list JSValue) :=
  match v with
  | JArr items => mapM f items
  | JUndefined => Err (TypeError "Cannot read properties of undefined (reading 'map')")
  | JNull => Err (TypeError "Cannot read properties of null (reading 'map')")
  | _ => Err (TypeError "map is not a function")
  end.

Definition queryUrl : string := "http://localhost:8000/query/".

Section WithPlatform.
Context {P : Platform}.
Local Open Scope async_scope.

(** [{...item, timestamp: new Date(item.timestamp)}]. *)
Definition revive (item : JSValue) : Result JSValue :=
  rbind (get item "timestamp")
        (fun t => Ok (JObj (set_field "timestamp" (JDate (Date_from t)) (spread item)))).

Definition loadQueryHistory : Async Env unit :=
  saved <- localStorage_getItem "queryHistory" ;;
  match saved with
  | Some text =>
      if truthy (JStr text) then
        try_catch
          (value <- lift (JSON_parse text) ;;
           parsed <- lift (call_map value revive) ;;
           setQueryHistory parsed)
          (fun _ => Ret tt)
      else Ret tt
  | None => Ret tt
  end.

(** The history [saveQueryHistory] computes from the one its render saw. *)
Definition updated (newQuery : JSValue) (history : list JSValue) : list JSValue :=
  take 20 (newQuery :: history).

Definition saveQueryHistory (c : State) (newQuery : JSValue) : Async Env unit :=
  setQueryHistory (updated newQuery (queryHistory c)) ;;
  localStorage_setItem "queryHistory"
    (JSON_stringify (JArr (updated newQuery (queryHistory c)))).

(** The record [handleQuery] builds for the question [q] answered by the
    body [data] at time [now]. *)
Definition newQuery (q : JSValue) (ans src : JSValue) (now : Z) : JSValue :=
  JObj [ ("id", JStr (pretty now));
         ("question", q);
         ("answer", ans);
         ("timestamp", JDate (Some now));
         ("sources", src) ].

Definition queryRequest (q : JSValue) : Request :=
  POST queryUrl (TextBody "application/json" (JSON_stringify (JObj [("question", q)]))).

(** The body of the [try] of [handleQuery] from the response on. *)
Definition answered (onQuery : bool) (c : State) (response : Response) : Async Env unit :=
  data <- lift (json response) ;;
  if ok response then
    ans <- lift (get data "answer") ;;
    setAnswer ans ;;
    src <- lift (get data "sources") ;;
    setSources (or_else src (JArr [])) ;;
    Now (fun now =>
      saveQueryHistory c (newQuery (query c) ans src now) ;;
      call_onQuery onQuery data)
  else
    err <- lift (get data "error") ;;
    setError (or_else err (JStr "An error occurred while processing your question.")).

Definition connectionFailed (e : Error) : Async Env unit :=
  setError (JStr "Failed to connect to the server. Please try again.").

Definition handleQuery (onQuery : bool) (c : State) : Async Env unit :=
  trimmed <- lift (call_trim (query c)) ;;
  if negb (truthy (JStr trimmed)) then Ret tt
  else
    setLoading true ;;
    setError (JStr "") ;;
    setAnswer (JStr "") ;;
    setSources (JArr []) ;;
    try_finally
      (try_catch
         (response <- fetch (queryRequest (query c)) ;;
          answered onQuery c response)
         connectionFailed)
      (setLoading false).

Definition handleSuggestedQuestion (question : string) : Async Env unit :=
  setQuery (JStr question).

Definition handleHistoryClick (historyItem : JSValue) : Async Env unit :=
  q <- lift (get historyItem "question") ;;
  setQuery q ;;
  a <- lift (get historyItem "answer") ;;
  setAnswer a ;;
  s <- lift (get historyItem "sources") ;;
  setSources (or_else s (JArr [])) ;;
  setShowHistory false.

Definition clearHistory : Async Env unit :=
  setQueryHistory [] ;;
  localStorage_removeItem "queryHistory".

(** *** The view: which controls exist and which are disabled *)

(** [disabled={loading || !query.trim()}] of the Ask button. *)
Definition askDisabled (s : State) : Result bool :=
  if loading s then Ok true
  else rbind (call_trim (query s)) (fun t => Ok (negb (truthy (JStr t)))).

Inductive Event : Type :=
| ChangeQuery (text : string)
| KeyPress (key : string)
| ClickAsk
| ClickToggleHistory
| ClickClearHistory
| ClickHistoryItem (i : nat)
| ClickSuggested (i : nat)
| Settle (i : nat) (res : FetchResult).

(** One event, at clock reading [now].  A handler is the one of the
    current render: it sees the current state.  A control that is not
    rendered, or is disabled, delivers no event (when [query.trim] throws,
    the render of the Ask button fails and there is no button to click). *)
Definition step (onQuery : bool) (now : Z) (ev : Event) (w : World Env) : World Env :=
  let c := state (env w) in
  match ev with
  | ChangeQuery text => fst (run now (setQuery (JStr text)) w)
  | KeyPress key =>
      if String.eqb key "Enter" && negb (loading c)
      then fst (run now (handleQuery onQuery c) w)
      else w
  | ClickAsk =>
      match askDisabled c with
      | Ok false => fst (run now (handleQuery onQuery c) w)
      | _ => w
      end
  | ClickToggleHistory => fst (run now (setShowHistory (negb (showHistory c))) w)
  | ClickClearHistory =>
      match queryHistory c with
      | [] => w
      | _ :: _ => fst (run now clearHistory w)
      end
  | ClickHistoryItem i =>
      if showHistory c then
        match queryHistory c !! i with
        | Some item => fst (run now (handleHistoryClick item) w)
        | None => w
        end
      else w
  | ClickSuggested i =>
      if negb (truthy (answer c)) && negb (loading c) then
        match suggestedQuestions !! i with
        | Some question => fst (run now (handleSuggestedQuestion question) w)
        | None => w
        end
      else w
  | Settle i res => settle now i res w
  end.

(** The component mounted on a page whose local storage is [storage]: the
    effect of the first render loads the history. *)
Definition mount (storage : gmap string string) : World Env :=
  fst (run 0 loadQueryHistory (boot (mkEnv initial storage []))).

Definition steps (onQuery : bool) (evs : list (Z * Event)) (w : World Env) : World Env :=
  fold_left (fun w te => step onQuery (fst te) (snd te) w) evs w.

End WithPlatform.

End QueryInterface.

(* ===================================================================== *)
(** ** App.tsx: the section-based shell and its own query box *)
(* ===================================================================== *)

Module AppShell.
Import JS Net Runtime.

Inductive Section_ : Type := UploadSection | QuerySection | LearningSection.

Record State : Type := mkState {
  uploadResult : JSValue;
  query : string;
  answer : JSValue;
  loading : bool;
  error : string;
  activeSection : Section_
}.

Definition initial : State := mkState JNull "" (JStr "") false "" UploadSection.

Definition setUploadResult (v : JSValue) : Async State unit :=
  act (fun s => mkState v (query s) (answer s) (loading s) (error s) (activeSection s)).
Definition setQuery (v : string) : Async State unit :=
  act (fun s => mkState (uploadResult s) v (answer s) (loading s) (error s) (activeSection s)).
Definition setAnswer (v : JSValue) : Async State unit :=
  act (fun s => mkState (uploadResult s) (query s) v (loading s) (error s) (activeSection s)).
Definition setLoading (v : bool) : Async State unit :=
  act (fun s => mkState (uploadResult s) (query s) (answer s) v (error s) (activeSection s)).
Definition setError (v : string) : Async State unit :=
  act (fun s => mkState (uploadResult s) (query s) (answer s) (loading s) v (activeSection s)).
Definition setActiveSection (v : Section_) : Async State unit :=
  act (fun s => mkState (uploadResult s) (query s) (answer s) (loading s) (error s) v).

Definition queryRequest (q : string) : Request :=
  POST "http://localhost:8000/query" (FormBody [("question", FormText q)]).

Local Open Scope async_scope.

Definition handleQuery (c : State) : Async State unit :=
  setLoading true ;;
  setError "" ;;
  setAnswer (JStr "") ;;
  try_finally
    (try_catch
       (res <- fetch (queryRequest (query c)) ;;
        if negb (ok res) then Throw (PlainError "Network response was not ok")
        else
          data <- lift (json res) ;;
          ans <- lift (get data "answer") ;;
          setAnswer ans)
       (fun err =>
          setError (if String.eqb (message err) "" then "Unknown error" else message err)))
    (setLoading false).

Inductive Event : Type :=
| ClickNav (target : Section_)
| ChangeQuery (text : string)
| KeyPress (key : string)
| ClickAsk
| Settle (i : nat) (res : FetchResult).

(** The query box exists while the query section is the active one; its
    Enter handler is [e.key === 'Enter' && handleQuery()] and its button is
    [disabled={loading}]. *)
Definition step (now : Z) (ev : Event) (w : World State) : World State :=
  let c := env w in
  match ev with
  | ClickNav target => fst (run now (setActiveSection target) w)
  | ChangeQuery text =>
      match activeSection c with
      | QuerySection => fst (run now (setQuery text) w)
      | _ => w
      end
  | KeyPress key =>
      match activeSection c with
      | QuerySection =>
          if String.eqb key "Enter" then fst (run now (handleQuery c) w) else w
      | _ => w
      end
  | ClickAsk =>
      match activeSection c with
      | QuerySection => if loading c then w else fst (run now (handleQuery c) w)
      | _ => w
      end
  | Settle i res => settle now i res w
  end.

Definition steps (evs : list (Z * Event)) (w : World State) : World State :=
  fold_left (fun w te => step (fst te) (snd te) w) evs w.

End AppShell.

(* ===================================================================== *)
(** ** components/FileUpload.tsx: the upload client *)
(* ===================================================================== *)

Module FileUpload.
Import JS Net Runtime.

Inductive Mode : Type := FileMode | YoutubeMode.

Record State : Type := mkState {
  selectedFile : option File;
  youtubeUrl : string;
  uploadMode : Mode;
  fileType : string;
  uploadStatus : string;
  files : JSValue
}.

Definition initial : State := mkState None "" FileMode "document" "" (JArr []).

(** The state and the acknowledgments handed to the [onUpload] callback. *)
Record Env : Type := mkEnv { state : State; acknowledged : list JSValue }.

Definition on_state (f : State -> State) (e : Env) : Env :=
  mkEnv (f (state e)) (acknowledged e).

Definition setSelectedFile (v : option File) : Async Env unit :=
  act (on_state (fun s => mkState v (youtubeUrl s) (uploadMode s) (fileType s)
                                  (uploadStatus s) (files s))).
Definition setYoutubeUrl (v : string) : Async Env unit :=
  act (on_state (fun s => mkState (selectedFile s) v (uploadMode s) (fileType s)
                                  (uploadStatus s) (files s))).
Definition setUploadMode (v : Mode) : Async Env unit :=
  act (on_state (fun s => mkState (selectedFile s) (youtubeUrl s) v (fileType s)
                                  (uploadStatus s) (files s))).
Definition setFileType (v : string) : Async Env unit :=
  act (on_state (fun s => mkState (selectedFile s) (youtubeUrl s) (uploadMode s) v
                                  (uploadStatus s) (files s))).
Definition setUploadStatus (v : string) : Async Env unit :=
  act (on_state (fun s => mkState (selectedFile s) (youtubeUrl s) (uploadMode s)
                                  (fileType s) v (files s))).
Definition setFiles (v : JSValue) : Async Env unit :=
  act (on_state (fun s => mkState (selectedFile s) (youtubeUrl s) (uploadMode s)
                                  (fileType s) (uploadStatus s) v)).

(** [onUpload?.(result)]. *)
Definition call_onUpload (onUpload : bool) (result : JSValue) : Async Env unit :=
  if onUpload then act (fun e => mkEnv (state e) (acknowledged e ++ [result]))
  else Ret tt.

Definition filesUrl : string := "http://localhost:8000/files/".
Definition uploadUrl : string := "http://localhost:8000/upload/".
Definition youtubeUploadUrl : string := "http://localhost:8000/upload-youtube/".

(** The [<option>] values of the file-type [<select>]. *)
Definition fileTypeOptions : list string := ["document"; "image"; "video"; "audio"].

Definition uploadRequest (file : File) (tag : string) : Request :=
  POST uploadUrl (FormBody [("file", FormFile file); ("file_type", FormText tag)]).

Definition youtubeRequest (u : string) : Request :=
  POST youtubeUploadUrl (FormBody [("url", FormText u); ("file_type", FormText "video")]).

Local Open Scope async_scope.

(** The registry refresh.  The error it logs to the console is left out. *)
Definition fetchFiles : Async Env unit :=
  try_catch
    (response <- fetch (GET filesUrl) ;;
     data <- lift (json response) ;;
     listed <- lift (get data "files") ;;
     setFiles (or_else listed (JArr [])))
    (fun _ => Ret tt).

Section WithPlatform.
Context {P : Platform}.

(** The body of the [try] of [handleUpload] in file mode, from the
    response on. *)
Definition fileUploaded (onUpload : bool) (response : Response) : Async Env unit :=
  result <- lift (json response) ;;
  if ok response then
    filename <- lift (get result "filename") ;;
    setUploadStatus ("File uploaded successfully: " +:+ ToString filename) ;;
    setSelectedFile None ;;
    Spawn fetchFiles (call_onUpload onUpload result)
  else
    err <- lift (get result "error") ;;
    setUploadStatus ("Upload failed: " +:+ ToString (or_else err (JStr "Unknown error"))).

Definition uploadFile (onUpload : bool) (file : File) (tag : string) : Async Env unit :=
  response <- fetch (uploadRequest file tag) ;;
  fileUploaded onUpload response.

(** The same in YouTube mode. *)
Definition youtubeUploaded (onUpload : bool) (response : Response) : Async Env unit :=
  result <- lift (json response) ;;
  if ok response then
    link <- lift (get result "url") ;;
    setUploadStatus ("YouTube video processing started: " +:+ ToString link) ;;
    setYoutubeUrl "" ;;
    Spawn fetchFiles (call_onUpload onUpload result)
  else
    err <- lift (get result "error") ;;
    setUploadStatus ("Upload failed: " +:+ ToString (or_else err (JStr "Unknown error"))).

Definition uploadYoutube (onUpload : bool) (u : string) : Async Env unit :=
  response <- fetch (youtubeRequest u) ;;
  youtubeUploaded onUpload response.

Definition uploadFailed (e : Error) : Async Env unit :=
  setUploadStatus ("Upload failed: " +:+ Error_toString e).

(** [handleUpload]: the two guards, then the status and the [try] of the
    mode.  In file mode the file the guard found is [selectedFile!]. *)
Definition handleUpload (onUpload : bool) (c : State) : Async Env unit :=
  match uploadMode c with
  | FileMode =>
      match selectedFile c with
      | None => setUploadStatus "Please select a file first."
      | Some file =>
          setUploadStatus "Uploading..." ;;
          try_catch (uploadFile onUpload file (fileType c)) uploadFailed
      end
  | YoutubeMode =>
      if negb (truthy (JStr (trim (youtubeUrl c))))
      then setUploadStatus "Please enter a YouTube URL."
      else
        setUploadStatus "Uploading..." ;;
        try_catch (uploadYoutube onUpload (youtubeUrl c)) uploadFailed
  end.

(** [disabled={uploadMode === 'file' ? !selectedFile : !youtubeUrl.trim()}]. *)
Definition uploadDisabled (s : State) : bool :=
  match uploadMode s with
  | FileMode => match selectedFile s with None => true | Some _ => false end
  | YoutubeMode => negb (truthy (JStr (trim (youtubeUrl s))))
  end.

Inductive Event : Type :=
| ChangeMode (m : Mode)
| ChooseFiles (chosen : list File)
| ChangeFileType (i : nat)
| ChangeYoutubeUrl (text : string)
| ClickUpload
| Settle (i : nat) (res : FetchResult).

(** One event.  The file input and the file-type select exist in file
    mode, the URL input in YouTube mode; the select reports the value of
    one of its options. *)
Definition step (onUpload : bool) (now : Z) (ev : Event) (w : World Env) : World Env :=
  let c := state (env w) in
  match ev with
  | ChangeMode m => fst (run now (setUploadMode m) w)
  | ChooseFiles chosen =>
      match uploadMode c, chosen with
      | FileMode, file :: _ => fst (run now (setSelectedFile (Some file)) w)
      | _, _ => w
      end
  | ChangeFileType i =>
      match uploadMode c, fileTypeOptions !! i with
      | FileMode, Some value => fst (run now (setFileType value) w)
      | _, _ => w
      end
  | ChangeYoutubeUrl text =>
      match uploadMode c with
      | YoutubeMode => fst (run now (setYoutubeUrl text) w)
      | FileMode => w
      end
  | ClickUpload =>
      if uploadDisabled c then w else fst (run now (handleUpload onUpload c) w)
  | Settle i res => settle now i res w
  end.

Definition steps (onUpload : bool) (evs : list (Z * Event)) (w : World Env) : World Env :=
  fold_left (fun w te => step onUpload (fst te) (snd te) w) evs w.

End WithPlatform.

(** The component mounted: the effect of the first render lists the files. *)
Definition mount : World Env := fst (run 0 fetchFiles (boot (mkEnv initial []))).

End FileUpload.

(* ===================================================================== *)
(** ** The upload client with the processing overlay *)
(* ===================================================================== *)

(** The second [FileUpload] of the repository: no status line, a
    full-screen overlay while [isProcessing], a "Done!" mark, and the
    registry refreshed two seconds later. *)
Module FileUploadOverlay.
Import JS Net Runtime.

Inductive Mode : Type := FileMode | YoutubeMode.

Record State : Type := mkState {
  selectedFile : option File;
  youtubeUrl : string;
  uploadMode : Mode;
  fileType : string;
  files : JSValue;
  isProcessing : bool;
  showDone : bool
}.

Definition initial : State := mkState None "" FileMode "document" (JArr []) false false.

(** A dialog of the window: [window.confirm] or [alert]. *)
Inductive Dialog : Type :=
| Confirm (message : string)
| Alert (message : string).

(** The state, the acknowledgments handed to [onUpload], and the dialogs
    the window has shown. *)
Record Env : Type := mkEnv {
  state : State;
  acknowledged : list JSValue;
  dialogs : list Dialog
}.

Definition on_state (f : State -> State) (e : Env) : Env :=
  mkEnv (f (state e)) (acknowledged e) (dialogs e).

Definition setSelectedFile (v : option File) : Async Env unit :=
  act (on_state (fun s => mkState v (youtubeUrl s) (uploadMode s) (fileType s)
                                  (files s) (isProcessing s) (showDone s))).
Definition setYoutubeUrl (v : string) : Async Env unit :=
  act (on_state (fun s => mkState (selectedFile s) v (uploadMode s) (fileType s)
                                  (files s) (isProcessing s) (showDone s))).
Definition setUploadMode (v : Mode) : Async Env unit :=
  act (on_state (fun s => mkState (selectedFile s) (youtubeUrl s) v (fileType s)
                                  (files s) (isProcessing s) (showDone s))).
Definition setFileType (v : string) : Async Env unit :=
  act (on_state (fun s => mkState (selectedFile s) (youtubeUrl s) (uploadMode s) v
                                  (files s) (isProcessing s) (showDone s))).
Definition setFiles (v : JSValue) : Async Env unit :=
  act (on_state (fun s => mkState (selectedFile s) (youtubeUrl s) (uploadMode s)
                                  (fileType s) v (isProcessing s) (showDone s))).
Definition setIsProcessing (v : bool) : Async Env unit :=
  act (on_state (fun s => mkState (selectedFile s) (youtubeUrl s) (uploadMode s)
                                  (fileType s) (files s) v (showDone s))).
Definition setShowDone (v : bool) : Async Env unit :=
  act (on_state (fun s => mkState (selectedFile s) (youtubeUrl s) (uploadMode s)
                                  (fileType s) (files s) (isProcessing s) v)).

Definition call_onUpload (onUpload : bool) (result : JSValue) : Async Env unit :=
  if onUpload then act (fun e => mkEnv (state e) (acknowledged e ++ [result]) (dialogs e))
  else Ret tt.

(** [window.confirm(message)]: the dialog is shown and the user's [answer]
    comes back. *)
Definition window_confirm (message : string) (answer : bool) : Async Env bool :=
  Act (fun e => mkEnv (state e) (acknowledged e) (dialogs e ++ [Confirm message]))
      (Ret answer).

Definition alert (message : string) : Async Env unit :=
  act (fun e => mkEnv (state e) (acknowledged e) (dialogs e ++ [Alert message])).

(** The [<option>] values of its content-type [<select>]. *)
Definition fileTypeOptions : list string := ["document"; "image"; "data"; "video"].

Local Open Scope async_scope.

Definition fetchFiles : Async Env unit :=
  try_catch
    (response <- fetch (GET FileUpload.filesUrl) ;;
     data <- lift (json response) ;;
     listed <- lift (get data "files") ;;
     setFiles (or_else listed (JArr [])))
    (fun _ => Ret tt).

(** What the [try] of [handleUpload] does once the response is there. *)
Definition uploaded (onUpload : bool) (clear : Async Env unit) (response : Response)
  : Async Env unit :=
  result <- lift (json response) ;;
  (if ok response then clear ;; call_onUpload onUpload result else Ret tt) ;;
  setShowDone true ;;
  After 2000 (setIsProcessing false ;; setShowDone false ;; Spawn fetchFiles (Ret tt))
        (Ret tt).

Definition giveUp (e : Error) : Async Env unit :=
  setIsProcessing false ;; setShowDone false.

Definition handleUpload (onUpload : bool) (c : State) : Async Env unit :=
  match uploadMode c with
  | FileMode =>
      match selectedFile c with
      | None => Ret tt
      | Some file =>
          setIsProcessing true ;;
          setShowDone false ;;
          try_catch
            (response <- fetch (FileUpload.uploadRequest file (fileType c)) ;;
             uploaded onUpload (setSelectedFile None) response)
            giveUp
      end
  | YoutubeMode =>
      if negb (truthy (JStr (trim (youtubeUrl c)))) then Ret tt
      else
        setIsProcessing true ;;
        setShowDone false ;;
        try_catch
          (response <- fetch (FileUpload.youtubeRequest (youtubeUrl c)) ;;
           uploaded onUpload (setYoutubeUrl "") response)
          giveUp
  end.

(** [disabled={!selectedFile || isProcessing}] and
    [disabled={!youtubeUrl.trim() || isProcessing}]. *)
Definition uploadDisabled (s : State) : bool :=
  match uploadMode s with
  | FileMode => match selectedFile s with None => true | Some _ => false end
  | YoutubeMode => negb (truthy (JStr (trim (youtubeUrl s))))
  end || isProcessing s.

Section WithPlatform.
Context {P : Platform} {U : UriEncoder}.

Definition quoted (s : string) : string := String "034" s +:+ String "034" "".

(** The URL of a file: the template literal of [handleDeleteFile], which
    throws when [encodeURIComponent] does. *)
Definition deleteUrl (filename : string) : Result string :=
  rbind (encodeURIComponent filename)
        (fun segment => Ok (FileUpload.filesUrl +:+ segment)).

(** What [handleDeleteFile] does once the response is there.  The body
    of a response that is [ok] is not read. *)
Definition deleted (response : Response) : Async Env unit :=
  if ok response then Spawn fetchFiles (Ret tt)
  else
    errorData <- lift (json response) ;;
    err <- lift (get errorData "error") ;;
    alert ("Error deleting file: " +:+ ToString (or_else err (JStr "Unknown error"))).

(** [handleDeleteFile(filename)], the user answering the confirmation
    with [answer].  The error its [catch] logs to the console is left
    out. *)
Definition handleDeleteFile (filename : JSValue) (answer : bool) : Async Env unit :=
  sure <- window_confirm ("Are you sure you want to delete " +:+
                          quoted (ToString filename) +:+ "?") answer ;;
  if negb sure then Ret tt
  else
    try_catch
      (target <- lift (deleteUrl (ToString filename)) ;;
       response <- fetch (DELETE target) ;;
       deleted response)
      (fun _ => alert "Error deleting file. Please try again.").

Inductive Event : Type :=
| ChangeMode (m : Mode)
| ChangeFileType (i : nat)
| ChooseFiles (chosen : list File)
| ChangeYoutubeUrl (text : string)
| ClickUpload
| ClickDelete (i : nat) (answer : bool)
| Settle (i : nat) (res : FetchResult)
| Fire (i : nat).

(** One event.  The radio buttons, the select and the inputs are disabled
    while [isProcessing]; the file input exists in file mode and the URL
    input in YouTube mode; the list shows a Delete button for each entry of
    [files], and these are not disabled.  (A listing with an entry that has
    no properties to read makes the render throw; here such an entry has no
    button.)  [Fire] is a timer running out. *)
Definition step (onUpload : bool) (now : Z) (ev : Event) (w : World Env) : World Env :=
  let c := state (env w) in
  match ev with
  | ChangeMode m =>
      if isProcessing c then w else fst (run now (setUploadMode m) w)
  | ChangeFileType i =>
      match isProcessing c, fileTypeOptions !! i with
      | false, Some value => fst (run now (setFileType value) w)
      | _, _ => w
      end
  | ChooseFiles chosen =>
      match isProcessing c, uploadMode c, chosen with
      | false, FileMode, file :: _ => fst (run now (setSelectedFile (Some file)) w)
      | _, _, _ => w
      end
  | ChangeYoutubeUrl text =>
      match isProcessing c, uploadMode c with
      | false, YoutubeMode => fst (run now (setYoutubeUrl text) w)
      | _, _ => w
      end
  | ClickUpload =>
      if uploadDisabled c then w else fst (run now (handleUpload onUpload c) w)
  | ClickDelete i answer =>
      match files c with
      | JArr items =>
          match items !! i with
          | Some file =>
              match get file "filename" with
              | Ok filename => fst (run now (handleDeleteFile filename answer) w)
              | Err _ => w
              end
          | None => w
          end
      | _ => w
      end
  | Settle i res => settle now i res w
  | Fire i => fire now i w
  end.

Definition steps (onUpload : bool) (evs : list (Z * Event)) (w : World Env) : World Env :=
  fold_left (fun w te => step onUpload (fst te) (snd te) w) evs w.

End WithPlatform.

(** The component mounted: the effect of the first render lists the files. *)
Definition mount : World Env := fst (run 0 fetchFiles (boot (mkEnv initial [] []))).

End FileUploadOverlay.

(* ===================================================================== *)
(** ** The learning panel ([Learning], in the text of [marketService.ts]) *)
(* ===================================================================== *)

Module Learning.
Import JS Net Runtime.

Record State : Type := mkState {
  stats : JSValue;
  loading : bool;
  error : string;
  activeTab : string
}.

Definition initial : State := mkState JNull false "" "stats".

Definition setStats (v : JSValue) : Async State unit :=
  act (fun s => mkState v (loading s) (error s) (activeTab s)).
Definition setLoading (v : bool) : Async State unit :=
  act (fun s => mkState (stats s) v (error s) (activeTab s)).
Definition setError (v : string) : Async State unit :=
  act (fun s => mkState (stats s) (loading s) v (activeTab s)).
Definition setActiveTab (v : string) : Async State unit :=
  act (fun s => mkState (stats s) (loading s) (error s) v).

Definition statsUrl : string := "http://localhost:8000/learning/stats/".

(** The tabs of the navigation bar, by the value each button sets. *)
Definition tabs : list string :=
  ["stats"; "concepts"; "patterns"; "indicators"; "timeline"; "charts"].

(** What [renderContent] returns: the loading text, the error box with its
    Try Again button, the text for no data, or the content of the active
    tab (its tables are not modelled). *)
Inductive Panel : Type :=
| LoadingPanel
| ErrorPanel (message : string)
| NoDataPanel
| TabPanel (tab : string).

Definition renderContent (s : State) : Panel :=
  if loading s then LoadingPanel
  else if truthy (JStr (error s)) then ErrorPanel (error s)
  else if negb (truthy (stats s)) then NoDataPanel
  else TabPanel (activeTab s).

Section WithStatus.
(** [response.status], which the record of a response does not carry. *)
Variable status : Response -> Z.

Local Open Scope async_scope.

Definition fetchLearningStats : Async State unit :=
  setLoading true ;;
  setError "" ;;
  try_finally
    (try_catch
       (response <- fetch (GET statsUrl) ;;
        if negb (ok response)
        then Throw (PlainError ("Error: " +:+ pretty (status response)))
        else
          data <- lift (json response) ;;
          setStats data)
       (fun err =>
          setError (if String.eqb (message err) ""
                    then "Failed to fetch learning statistics" else message err)))
    (setLoading false).

Inductive Event : Type :=
| ClickRefresh
| ClickTryAgain
| ClickTab (i : nat)
| Settle (i : nat) (res : FetchResult).

(** One event.  Refresh Data and the tabs are always there; Try Again is
    in the error box. *)
Definition step (now : Z) (ev : Event) (w : World State) : World State :=
  match ev with
  | ClickRefresh => fst (run now fetchLearningStats w)
  | ClickTryAgain =>
      match renderContent (env w) with
      | ErrorPanel _ => fst (run now fetchLearningStats w)
      | _ => w
      end
  | ClickTab i =>
      match tabs !! i with
      | Some tab => fst (run now (setActiveTab tab) w)
      | None => w
      end
  | Settle i res => settle now i res w
  end.

Definition steps (evs : list (Z * Event)) (w : World State) : World State :=
  fold_left (fun w te => step (fst te) (snd te) w) evs w.

(** The effect of the first render fetches the statistics. *)
Definition mount : World State := fst (run 0 fetchLearningStats (boot initial)).

End WithStatus.

End Learning.

(* ===================================================================== *)
(** ** A small browser, to run the components on *)
(* ===================================================================== *)

Module Demo.
Import JS.

(** *** Dates *)

Definition msPerDay : Z := 86400000.

(** The year, month and day of a day counted from 1 January 1970, in the
    proleptic Gregorian calendar. *)
Definition civil (days : Z) : Z * Z * Z :=
  let z := days + 719468 in
  let era := z / 146097 in
  let doe := z - era * 146097 in
  let yoe := (doe - doe / 1460 + doe / 36524 - doe / 146096) / 365 in
  let doy := doe - (365 * yoe + yoe / 4 - yoe / 100) in
  let mp := (5 * doy + 2) / 153 in
  let d := doy - (153 * mp + 2) / 5 + 1 in
  let m := if mp <? 10 then mp + 3 else mp - 9 in
  let y := yoe + era * 400 in
  (if m <=? 2 then y + 1 else y, m, d).

(** The day number of a year, month and day. *)
Definition daysFromCivil (y m d : Z) : Z :=
  let y := if m <=? 2 then y - 1 else y in
  let era := y / 400 in
  let yoe := y - era * 400 in
  let doy := (153 * (if 2 <? m then m - 3 else m + 9) + 2) / 5 + d - 1 in
  let doe := yoe * 365 + yoe / 4 - yoe / 100 + doy in
  era * 146097 + doe - 719468.

(** A number that is not negative, in decimal with zeros in front. *)
Definition padded (width : nat) (n : Z) : string :=
  let digits := pretty n in
  string_of_list_ascii (repeat "0"%char (width - String.length digits)) +:+ digits.

(** [Date.prototype.toISOString] of a valid time value. *)
Definition toISOString (t : Z) : string :=
  let '(y, m, d) := civil (t / msPerDay) in
  let ms := t mod msPerDay in
  (if (0 <=? y) && (y <=? 9999) then padded 4 y
   else (if y <? 0 then "-" else "+") +:+ padded 6 (Z.abs y))
  +:+ "-" +:+ padded 2 m +:+ "-" +:+ padded 2 d
  +:+ "T" +:+ padded 2 (ms / 3600000) +:+ ":" +:+ padded 2 (ms / 60000 mod 60)
  +:+ ":" +:+ padded 2 (ms / 1000 mod 60) +:+ "." +:+ padded 3 (ms mod 1000) +:+ "Z".

Definition number (cs : list ascii) : Z :=
  fold_left (fun n c => 10 * n + (Z.of_N (N_of_ascii c) - 48)) cs 0.

(** The time value of a text of the form [toISOString] writes with a year
    of four digits, [YYYY-MM-DDTHH:mm:ss.sssZ]; no value for another
    text. *)
Definition fromISOString (s : string) : option Z :=
  let cs := list_ascii_of_string s in
  let part (from len : nat) := number (take len (drop from cs)) in
  let t := daysFromCivil (part 0%nat 4%nat) (part 5%nat 2%nat) (part 8%nat 2%nat) * msPerDay
           + part 11%nat 2%nat * 3600000 + part 14%nat 2%nat * 60000
           + part 17%nat 2%nat * 1000 + part 20%nat 3%nat in
  if String.eqb (toISOString t) s then Some t else None.

(** A time value outside the range of dates is no date. *)
Definition timeClip (t : Z) : option Z :=
  if Z.abs t <=? 8640000000000000 then Some t else None.

(** The time value of [new Date(v)].  A string is read when it has the
    form [toISOString] writes; the other date formats, and what an array
    or an object converts to, are not read here. *)
Definition date_from (v : JSValue) : option Z :=
  match v with
  | JUndefined => None
  | JNull => Some 0
  | JBool false => Some 0
  | JBool true => Some 1
  | JNum n => timeClip n
  | JStr s => fromISOString s
  | JDate t => t
  | JArr _ => None
  | JObj _ => None
  end.

(** *** JSON *)

Definition lowerHex (n : N) : ascii :=
  nth (N.to_nat n) (list_ascii_of_string "0123456789abcdef") "0"%char.

(** A character inside a JSON string. *)
Definition jsonChar (c : ascii) : string :=
  let n := N_of_ascii c in
  let after (x : ascii) := String "092" (String x "") in
  if (n =? 34)%N then after "034"%char
  else if (n =? 92)%N then after "092"%char
  else if (n =? 8)%N then after "b"%char
  else if (n =? 9)%N then after "t"%char
  else if (n =? 10)%N then after "n"%char
  else if (n =? 12)%N then after "f"%char
  else if (n =? 13)%N then after "r"%char
  else if (n <? 32)%N
  then String "092" ("u00" +:+ String (lowerHex (n / 16)) (String (lowerHex (n mod 16)) ""))
  else String c "".

(** A string as JSON writes it. *)
Definition jsonString (s : string) : string :=
  String "034" (join "" (map jsonChar (list_ascii_of_string s))) +:+ String "034" "".

(** [JSON.stringify] of a value inside an array or an object.  A property
    whose value is [undefined] is left out, an [undefined] element of an
    array is [null], and a date is written as [toISOString] writes it
    ([null] when it is not valid). *)
Fixpoint stringify (v : JSValue) : string :=
  match v with
  | JUndefined => "null"
  | JNull => "null"
  | JBool true => "true"
  | JBool false => "false"
  | JNum n => pretty n
  | JStr s => jsonString s
  | JDate None => "null"
  | JDate (Some t) => jsonString (toISOString t)
  | JArr items => "[" +:+ join "," (map stringify items) +:+ "]"
  | JObj fields =>
      "{" +:+ join ","
        ((fix members (l : list (string * JSValue)) : list string :=
            match l with
            | [] => []
            | (k, JUndefined) :: rest => members rest
            | (k, x) :: rest => (jsonString k +:+ ":" +:+ stringify x) :: members rest
            end) fields) +:+ "}"
  end.

(** A parser that knows the text of the empty array and rejects the rest. *)
Definition parse (text : string) : Result JSValue :=
  if String.eqb text "[]" then Ok (JArr [])
  else Err (SyntaxError "Unexpected token").

#[export] Instance browser : Platform := {|
  JSON_parse := parse;
  JSON_stringify := stringify;
  Date_from := date_from;
  Date_toString := pretty
|}.

(** The encoder of a page whose strings are of 8-bit code units. *)
#[export] Instance uri : UriEncoder := {|
  encodeURIComponent := fun s => Ok (percentEncoded s)
|}.

End Demo.

(* ===================================================================== *)
(** * Properties *)
(* ===================================================================== *)

(** ** Strings and values *)

Section ValueFacts.
Import JS.

Lemma dropSpaces_nil_iff cs : dropSpaces cs = [] <-> forallb is_space cs = true.
Proof.
  induction cs as [|c cs IH]; simpl; [tauto|].
  destruct (is_space c); simpl; [exact IH|].
  split; discriminate.
Qed.

Lemma dropSpaces_all_space cs :
  forallb is_space (dropSpaces cs) = true -> dropSpaces cs = [].
Proof.
  induction cs as [|c cs IH]; simpl; [reflexivity|].
  destruct (is_space c) eqn:Hc; [exact IH|].
  simpl. rewrite Hc. discriminate.
Qed.

Lemma forallb_rev {A} (f : A -> bool) (l : list A) :
  forallb f (rev l) = forallb f l.
Proof.
  induction l as [|x l IH]; simpl; [reflexivity|].
  rewrite forallb_app, IH. simpl. rewrite andb_true_r. apply andb_comm.
Qed.

(** [!s.trim()] holds exactly for the strings of white space. *)
Lemma trim_empty_iff s : trim s = "" <-> blank s = true.
Proof.
  unfold trim, blank.
  set (cs := list_ascii_of_string s).
  split.
  - intros H.
    assert (Hr : rev (dropSpaces (rev (dropSpaces cs))) = []).
    { destruct (rev (dropSpaces (rev (dropSpaces cs)))); [reflexivity|discriminate]. }
    apply (f_equal (@rev ascii)) in Hr. rewrite rev_involutive in Hr. simpl in Hr.
    apply dropSpaces_nil_iff in Hr. rewrite forallb_rev in Hr.
    apply dropSpaces_all_space in Hr. now apply dropSpaces_nil_iff.
  - intros H. apply dropSpaces_nil_iff in H. rewrite H. reflexivity.
Qed.

Lemma trim_truthy s : negb (String.eqb (trim s) "") = negb (blank s).
Proof.
  f_equal. destruct (blank s) eqn:Hb.
  - apply trim_empty_iff in Hb. rewrite Hb. reflexivity.
  - apply String.eqb_neq. intros H. apply trim_empty_iff in H. congruence.
Qed.

Lemma or_else_truthy a b : truthy b = true -> truthy (or_else a b) = true.
Proof. unfold or_else. destruct (truthy a) eqn:Ha; auto. Qed.

Lemma or_else_undefined b : or_else JUndefined b = b.
Proof. reflexivity. Qed.

End ValueFacts.

(** ** The market service and the market panel *)

Section MarketProperties.
Import JS Net Runtime MarketService.

(** A call of the service fails when its promise rejects. *)
Definition rejects {A} (r : Result A) : Prop := exists e, r = Err e.
Definition fulfils {A} (r : Result A) : Prop := exists a, r = Ok a.

Lemma Promise_all2_rejects {A B} (a : Result A) (b : Result B) :
  rejects a \/ rejects b -> rejects (Promise_all2 a b).
Proof.
  intros [[e ->] | [e ->]]; unfold rejects; simpl.
  - eauto.
  - destruct a; eauto.
Qed.

(** When [Promise.all] rejects, [loadMarketData] reaches its [catch] with
    nothing displayed changed, sets the banner and clears the loading flag. *)
Lemma refresh_when_rejected network symbol localTime (s : TradingChart.State) :
  rejects (Promise_all2 (getMarketStatus network) (getLiveData network (Some symbol))) ->
  TradingChart.refresh network symbol localTime s =
    TradingChart.mkState (TradingChart.lastUpdate s) (TradingChart.currentPrice s)
      (TradingChart.marketStatus s) false (Some "Failed to load market data").
Proof.
  intros [e He]. unfold TradingChart.refresh, TradingChart.loadMarketData.
  rewrite He. reflexivity.
Qed.

(** C5.  When exactly one of the two calls of a refresh fails (market
    status or live data), the price and the status displayed stay as they
    were, nothing of the call that succeeded is applied, and the error
    banner is set (there is one banner: the [error] of the panel). *)
Theorem market_refresh_one_call_fails network symbol localTime (s : TradingChart.State) :
  (rejects (getMarketStatus network) /\ fulfils (getLiveData network (Some symbol))) \/
  (fulfils (getMarketStatus network) /\ rejects (getLiveData network (Some symbol))) ->
  let s' := TradingChart.refresh network symbol localTime s in
  TradingChart.currentPrice s' = TradingChart.currentPrice s /\
  TradingChart.marketStatus s' = TradingChart.marketStatus s /\
  TradingChart.lastUpdate s' = TradingChart.lastUpdate s /\
  TradingChart.banner s' = Some "Failed to load market data" /\
  TradingChart.isLoading s' = false.
Proof.
  intros H s'. subst s'.
  rewrite refresh_when_rejected; [simpl; auto|].
  apply Promise_all2_rejects. tauto.
Qed.

(** A network on which the status endpoint answers 503 and the live
    endpoint answers a price. *)
Definition status_down (r : Request) : FetchResult :=
  if String.eqb (url r) statusUrl
  then Fulfilled (mkResponse false (Ok (JObj [("error", JStr "unavailable")])))
  else Fulfilled (mkResponse true (Ok (JObj [("current_price", JNum 2400)]))).

Definition panel_showing : TradingChart.State :=
  TradingChart.mkState "10:00:00" (JNum 2390) (JStr "open") false None.

Lemma market_refresh_one_call_fails_witness :
  TradingChart.currentPrice (TradingChart.refresh status_down "XAUUSD" "10:00:30" panel_showing)
    = JNum 2390 /\
  TradingChart.marketStatus (TradingChart.refresh status_down "XAUUSD" "10:00:30" panel_showing)
    = JStr "open".
Proof.
  pose proof (market_refresh_one_call_fails status_down "XAUUSD" "10:00:30" panel_showing) as H.
  destruct H as (Hp & Hs & _).
  - left. split.
    + exists (PlainError "Failed to fetch market status"). reflexivity.
    + exists (JObj [("current_price", JNum 2400)]). reflexivity.
  - split; [exact Hp | exact Hs].
Defined.

(** With both calls answered the panel shows the new values. *)
Example market_refresh_both_succeed :
  TradingChart.refresh
    (fun r => if String.eqb (url r) statusUrl
              then Fulfilled (mkResponse true (Ok (JObj [("status", JStr "closed")])))
              else Fulfilled (mkResponse true (Ok (JObj [("current_price", JNum 2400)]))))
    "XAUUSD" "10:00:30" panel_showing
  = TradingChart.mkState "10:00:30" (JNum 2400) (JStr "closed") false None.
Proof. reflexivity. Qed.

(** C10.  On a 2xx response whose body has no [data] field (reading it
    gives [undefined]) [getHistoricalData] returns the empty array, and
    [getPredictions] does so when [predictions] is missing; on a response
    that is not 2xx each throws its error and returns nothing. *)
Theorem market_collections_default_to_empty (network : Request -> FetchResult)
    (symbol period interval : option string) (numPredictions : option Z) :
  (forall response data,
      network (GET (historyUrl symbol period interval)) = Fulfilled response ->
      ok response = true -> json response = Ok data ->
      get data "data" = Ok JUndefined ->
      getHistoricalData network symbol period interval = Ok (JArr [])) /\
  (forall response data,
      network (GET (predictUrl symbol numPredictions)) = Fulfilled response ->
      ok response = true -> json response = Ok data ->
      get data "predictions" = Ok JUndefined ->
      getPredictions network symbol numPredictions = Ok (JArr [])) /\
  (forall response,
      network (GET (historyUrl symbol period interval)) = Fulfilled response ->
      ok response = false ->
      getHistoricalData network symbol period interval
        = Err (PlainError "Failed to fetch historical data")) /\
  (forall response,
      network (GET (predictUrl symbol numPredictions)) = Fulfilled response ->
      ok response = false ->
      getPredictions network symbol numPredictions
        = Err (PlainError "Failed to fetch predictions")).
Proof.
  unfold getHistoricalData, getPredictions, fetch.
  repeat split.
  - intros response data -> Hok Hjson Hd. simpl.
    rewrite Hok, Hjson. simpl. rewrite Hd. reflexivity.
  - intros response data -> Hok Hjson Hd. simpl.
    rewrite Hok, Hjson. simpl. rewrite Hd. reflexivity.
  - intros response -> Hok. simpl. rewrite Hok. reflexivity.
  - intros response -> Hok. simpl. rewrite Hok. reflexivity.
Qed.

(** A body that is an object without the field, and one whose field is
    present: the first gives the empty array, the second the candles. *)
Example getHistoricalData_missing_field :
  getHistoricalData
    (fun _ => Fulfilled (mkResponse true (Ok (JObj [("symbol", JStr "XAUUSD")]))))
    None None None = Ok (JArr []).
Proof. reflexivity. Qed.

Example getHistoricalData_present_field :
  getHistoricalData
    (fun _ => Fulfilled (mkResponse true (Ok (JObj [("data", JArr [JNum 1; JNum 2])]))))
    None None None = Ok (JArr [JNum 1; JNum 2]).
Proof. reflexivity. Qed.

(** The default parameters give the documented query string. *)
Example getHistoricalData_default_url :
  historyUrl None None None
  = "http://localhost:8000/market/history?symbol=XAUUSD&period=1d&interval=1h".
Proof. reflexivity. Qed.

End MarketProperties.

(** ** The event loop *)

Section RuntimeFacts.
Import JS Net Runtime.
Context {E : Type}.
Variable P : Request -> Prop.
Variable I : E -> Prop.

Lemma Obeys_bind {A B} (m : Async E A) (f : A -> Async E B) :
  Obeys P I m -> (forall a, Obeys P I (f a)) -> Obeys P I (bind m f).
Proof.
  intros Hm Hf. induction m; simpl in *; auto.
  - destruct Hm as [Hr Hk]. split; auto.
  - destruct Hm as [Hr Hk]. split; auto.
  - destruct Hm as [Hp Hk]. split; auto.
  - destruct Hm as [Hp Hk]. split; auto.
Qed.

Lemma Obeys_try_catch {A} (m : Async E A) h :
  Obeys P I m -> (forall e, Obeys P I (h e)) -> Obeys P I (try_catch m h).
Proof.
  intros Hm Hh. induction m; simpl in *; auto.
  - destruct Hm as [Hr Hk]. split; auto.
  - destruct Hm as [Hr Hk]. split; auto.
  - destruct Hm as [Hp Hk]. split; auto.
  - destruct Hm as [Hp Hk]. split; auto.
Qed.

Lemma Obeys_try_finally {A} (m : Async E A) fin :
  Obeys P I m -> Obeys P I fin -> Obeys P I (try_finally m fin).
Proof.
  intros Hm Hf. induction m; simpl in *; auto.
  - apply Obeys_bind; simpl; auto.
  - apply Obeys_bind; simpl; auto.
  - destruct Hm as [Hr Hk]. split; auto.
  - destruct Hm as [Hr Hk]. split; auto.
  - destruct Hm as [Hp Hk]. split; auto.
  - destruct Hm as [Hp Hk]. split; auto.
Qed.

Lemma Obeys_lift {A} (r : Result A) : Obeys P I (@lift E A r).
Proof. destruct r; exact Logic.I. Qed.

Lemma Obeys_act (f : E -> E) : (forall e, I e -> I (f e)) -> Obeys P I (act f).
Proof. intros H. split; [exact H | exact Logic.I]. Qed.

Lemma Obeys_fetch (r : Request) : P r -> Obeys P I (@fetch E r).
Proof. intros H. split; [exact H|]. intros [response|e]; exact Logic.I. Qed.

(** The response handed to the code that waits on a [fetch]. *)
Lemma Obeys_settled (res : FetchResult) :
  Obeys P I (match res with
             | Fulfilled response => @Ret E Response response
             | Rejected e => Throw e
             end).
Proof. destruct res; exact Logic.I. Qed.

(** A world whose environment satisfies [I], and in which everything sent
    so far satisfies [P] and the code in waiting obeys both. *)
Definition tidy (w : World E) : Prop :=
  I (env w) /\
  Forall P (sent w) /\
  Forall (fun rk => forall res, Obeys P I (snd rk res)) (pending w) /\
  Forall (fun t => Obeys P I (snd t)) (timers w).

Lemma run_tidy now (m : Async E unit) :
  forall w, Obeys P I m -> tidy w -> tidy (fst (run now m w)).
Proof.
  revert m. fix IH 1. intros m w Hm Hw.
  destruct m as [a|e|k|f k|k|r k|p k|d cb k]; simpl in *.
  - exact Hw.
  - exact Hw.
  - apply IH; auto.
  - destruct Hm as [Hf Hk]. apply IH; auto.
    destruct Hw as (Hi & Hs & Hp & Ht). repeat split; simpl; auto.
  - apply IH; auto.
  - destruct Hm as [Hr Hk]. destruct Hw as (Hi & Hs & Hp & Ht).
    repeat split; simpl; auto.
    + apply Forall_app; split; auto.
    + apply Forall_app; split; auto.
  - destruct Hm as [Hp Hk]. apply IH; auto.
  - destruct Hm as [Hcb Hk]. apply IH; auto.
    destruct Hw as (Hi & Hs & Hp & Ht). repeat split; simpl; auto.
    apply Forall_app; split; auto.
Qed.

Lemma Forall_delete_at {A} (Q : A -> Prop) (l : list A) i :
  Forall Q l -> Forall Q (delete i l).
Proof.
  intros H. revert i.
  induction H as [|x l Hx Hl IH]; intros [|i]; simpl; auto; try (constructor; auto).
Qed.

Lemma Forall_at {A} (Q : A -> Prop) (l : list A) i x :
  Forall Q l -> l !! i = Some x -> Q x.
Proof.
  intros H. revert i. induction H as [|y l Hy Hl IH]; intros [|i]; simpl; try discriminate.
  - intros [= ->]. exact Hy.
  - apply IH.
Qed.

Lemma settle_tidy now i res (w : World E) : tidy w -> tidy (settle now i res w).
Proof.
  intros Hw. unfold settle.
  destruct (pending w !! i) as [[r k]|] eqn:Hi; [|exact Hw].
  destruct Hw as (Hi' & Hs & Hp & Ht).
  apply run_tidy.
  - exact (Forall_at _ _ _ _ Hp Hi res).
  - repeat split; simpl; auto. now apply Forall_delete_at.
Qed.

Lemma lookup_snoc {A} (l : list A) (x : A) : (l ++ [x]) !! List.length l = Some x.
Proof. induction l; simpl; auto. Qed.

Lemma delete_snoc {A} (l : list A) (x : A) : delete (List.length l) (l ++ [x]) = l.
Proof. induction l; simpl; [reflexivity|]. f_equal. assumption. Qed.

End RuntimeFacts.

Section QuietFacts.
Import JS Net Runtime.
Context {E : Type}.

(** A quiet computation leaves what is in flight and what was sent as
    they are. *)
Lemma run_quiet now (m : Async E unit) :
  forall w, Quiet m ->
    pending (fst (run now m w)) = pending w /\ sent (fst (run now m w)) = sent w.
Proof.
  revert m. fix IH 1. intros m w Hm.
  destruct m as [a|e|k|f k|k|r k|p k|d cb k]; simpl in *.
  - auto.
  - auto.
  - apply IH, Hm.
  - destruct Hm as [_ Hm]. destruct (IH k (with_env f w) Hm) as [H1 H2]. auto.
  - apply IH, Hm.
  - destruct Hm as [[] _].
  - destruct Hm as [Hp Hk].
    destruct (IH k (fst (run now p w)) Hk) as [H1 H2].
    destruct (IH p w Hp) as [H3 H4]. split; congruence.
  - destruct Hm as [Hcb Hk].
    destruct (IH k (mkWorld (env w) (pending w) (timers w ++ [(d, cb)]) (sent w)) Hk)
      as [H1 H2]. auto.
Qed.

End QuietFacts.

(** ** The query client *)

Section QueryProperties.
Import JS Net Runtime QueryInterface.
Context {P : Platform}.
Local Open Scope async_scope.

(** The code of [handleQuery] that waits for the response to its request:
    the rest of the [try], its [catch] and its [finally]. *)
Definition resume (onQuery : bool) (c : State) (res : FetchResult) : Async Env unit :=
  try_finally
    (try_catch
       (response <- match res with
                    | Fulfilled response => Ret response
                    | Rejected e => Throw e
                    end ;;
        answered onQuery c response)
       connectionFailed)
    (setLoading false).

(** The state [handleQuery] sets before it sends its request. *)
Definition asking (e : Env) : Env :=
  on_state (fun s => mkState (query s) (JStr "") true (JStr "")
                             (queryHistory s) (showHistory s) (JArr [])) e.

Lemma handleQuery_blank onQuery c now (w : World Env) q :
  query c = JStr q -> blank q = true ->
  run now (handleQuery onQuery c) w = (w, Returned).
Proof.
  intros Hq Hb. unfold handleQuery. rewrite Hq. simpl.
  rewrite trim_truthy, Hb. reflexivity.
Qed.

Lemma handleQuery_suspends onQuery c now (w : World Env) q :
  query c = JStr q -> blank q = false ->
  run now (handleQuery onQuery c) w =
    (mkWorld (asking (env w))
             (pending w ++ [(queryRequest (query c), resume onQuery c)])
             (timers w)
             (sent w ++ [queryRequest (query c)]),
     Suspended).
Proof.
  intros Hq Hb. unfold handleQuery. rewrite Hq. simpl.
  rewrite trim_truthy, Hb. reflexivity.
Qed.

(** A query fails when its promise rejects (transport) or the response is
    not 2xx. *)
Definition failed (res : FetchResult) : Prop :=
  match res with
  | Rejected _ => True
  | Fulfilled response => ok response = false
  end.

(** The message a failed query leaves in [error]. *)
Definition failure_message (res : FetchResult) : JSValue :=
  match res with
  | Rejected _ => JStr "Failed to connect to the server. Please try again."
  | Fulfilled response =>
      match json response with
      | Err _ => JStr "Failed to connect to the server. Please try again."
      | Ok data =>
          match get data "error" with
          | Err _ => JStr "Failed to connect to the server. Please try again."
          | Ok err => or_else err (JStr "An error occurred while processing your question.")
          end
      end
  end.

Definition show_error (msg : JSValue) (e : Env) : Env :=
  on_state (fun s => mkState (query s) (answer s) false msg
                             (queryHistory s) (showHistory s) (sources s)) e.

Lemma resume_failed onQuery c now res (w : World Env) :
  failed res ->
  run now (resume onQuery c res) w
  = (with_env (show_error (failure_message res)) w, Returned).
Proof.
  unfold failed, resume, answered, failure_message.
  destruct res as [[okay body]|e]; simpl.
  - intros ->. destruct body as [data|e]; simpl; [|reflexivity].
    destruct (get data "error") as [err|e]; reflexivity.
  - intros _. reflexivity.
Qed.

Lemma failure_message_truthy res : truthy (failure_message res) = true.
Proof.
  unfold failure_message.
  destruct res as [[okay body]|e]; simpl; [|reflexivity].
  destruct body as [data|e]; [|reflexivity].
  destruct (get data "error") as [err|e]; [|reflexivity].
  now apply or_else_truthy.
Qed.

(** C4.  When the query whose code waits at place [i] fails (its promise
    rejects, or the response is not 2xx), an error message is displayed
    and the history is as it was: the list in memory and the whole of
    local storage are unchanged, and no request is sent.  The closure [c]
    is the state of the render that asked, whatever happened since. *)
Theorem failed_query_keeps_history onQuery c now i r res (w : World Env) :
  pending w !! i = Some (r, resume onQuery c) ->
  failed res ->
  let w' := step onQuery now (Settle i res) w in
  queryHistory (state (env w')) = queryHistory (state (env w)) /\
  localStorage (env w') = localStorage (env w) /\
  error (state (env w')) = failure_message res /\
  truthy (error (state (env w'))) = true /\
  loading (state (env w')) = false /\
  sent w' = sent w.
Proof.
  intros Hi Hf w'. subst w'. simpl. unfold settle. rewrite Hi.
  rewrite resume_failed by exact Hf. simpl.
  repeat split; auto using failure_message_truthy.
Qed.

(** The view after [handleHistoryClick] ran for an entry with the
    properties [fields]. *)
Definition showing (fields : list (string * JSValue)) (e : Env) : Env :=
  on_state (fun s =>
    mkState (lookup_field "question" fields) (lookup_field "answer" fields)
            (loading s) (error s) (queryHistory s) false
            (or_else (lookup_field "sources" fields) (JArr []))) e.

(** For an entry that is an object the handler reads the three properties,
    sets the view and returns in the same turn, without a request. *)
Lemma handleHistoryClick_object fields now (w : World Env) :
  run now (handleHistoryClick (JObj fields)) w = (with_env (showing fields) w, Returned).
Proof. reflexivity. Qed.

(** [loadQueryHistory] never suspends and never throws. *)
Lemma loadQueryHistory_returns now (w : World Env) :
  snd (run now loadQueryHistory w) = Returned.
Proof.
  unfold loadQueryHistory. simpl.
  destruct (localStorage (env w) !! "queryHistory") as [text|]; [|reflexivity].
  simpl. destruct (negb (String.eqb text "")); [|reflexivity].
  simpl. destruct (JSON_parse text) as [value|e]; [|reflexivity].
  simpl. destruct (call_map value revive) as [parsed|e]; reflexivity.
Qed.

(** C9.  Loading the history is total.  When the key is absent, or its
    value is not JSON, [loadQueryHistory] returns normally and leaves the
    world as it was (the history of a component just mounted stays empty);
    and whenever it changes the history, the stored text parsed and the
    new history is what the parsed array maps to. *)
Theorem loadQueryHistory_total now (w : World Env) :
  snd (run now loadQueryHistory w) = Returned /\
  (localStorage (env w) !! "queryHistory" = None ->
     fst (run now loadQueryHistory w) = w) /\
  (forall text e,
     localStorage (env w) !! "queryHistory" = Some text ->
     JSON_parse text = Err e ->
     fst (run now loadQueryHistory w) = w) /\
  (queryHistory (state (env (fst (run now loadQueryHistory w))))
     <> queryHistory (state (env w)) ->
   exists text value parsed,
     localStorage (env w) !! "queryHistory" = Some text /\
     JSON_parse text = Ok value /\
     call_map value revive = Ok parsed /\
     queryHistory (state (env (fst (run now loadQueryHistory w)))) = parsed).
Proof.
  split; [apply loadQueryHistory_returns|].
  unfold loadQueryHistory. simpl.
  destruct (localStorage (env w) !! "queryHistory") as [text|] eqn:Hs.
  - simpl. destruct (negb (String.eqb text "")) eqn:Ht; simpl.
    + destruct (JSON_parse text) as [value|e] eqn:Hp; simpl.
      * destruct (call_map value revive) as [parsed|e] eqn:Hm; simpl.
        -- split; [discriminate|]. split; [intros ? ? [= <-]; congruence|].
           intros _. exists text, value, parsed. auto.
        -- split; [discriminate|]. split; [reflexivity|]. intros H; now destruct H.
      * split; [discriminate|]. split; [reflexivity|]. intros H; now destruct H.
    + split; [discriminate|]. split; [reflexivity|]. intros H; now destruct H.
  - split; [reflexivity|]. split; [discriminate|]. intros H; now destruct H.
Qed.

End QueryProperties.

(** ** The history of the query client *)

Section HistoryProperties.
Import JS Net Runtime QueryInterface.
Context {P : Platform}.

(** A body whose properties can be read: any value but [null] and
    [undefined]. *)
Definition readable (v : JSValue) : Prop := v <> JNull /\ v <> JUndefined.

(** The value of [v.k], [undefined] when there is none. *)
Definition field (v : JSValue) (k : string) : JSValue :=
  match get v k with
  | Ok x => x
  | Err _ => JUndefined
  end.

Lemma get_readable v k : readable v -> get v k = Ok (field v k).
Proof. intros [H1 H2]. unfold field. destruct v; simpl; congruence. Qed.

(** The environment after the success branch of [handleQuery] ran for the
    closure [c], the body [data] and the clock reading [now]. *)
Definition saved (onQuery : bool) (c : State) (data : JSValue) (now : Z) (e : Env) : Env :=
  let entry := newQuery (query c) (field data "answer") (field data "sources") now in
  mkEnv
    (mkState (query (state e)) (field data "answer") false (error (state e))
             (updated entry (queryHistory c)) (showHistory (state e))
             (or_else (field data "sources") (JArr [])))
    (<["queryHistory" := JSON_stringify (JArr (updated entry (queryHistory c)))]>
       (localStorage e))
    (if onQuery then reported e ++ [data] else reported e).

(** A 2xx response with a readable body: the record is built from the
    clock, put in front of the history of the closure, the list cut to 20,
    and that list is both the new state and the text written under the
    key (the whole value is replaced). *)
Lemma resume_succeeded onQuery c now data (w : World Env) :
  readable data ->
  run now (resume onQuery c (Fulfilled (mkResponse true (Ok data)))) w
  = (with_env (saved onQuery c data now) w, Returned).
Proof.
  intros Hd. unfold resume, answered. simpl.
  rewrite !(get_readable _ _ Hd). simpl.
  destruct onQuery; reflexivity.
Qed.

Definition history (w : World Env) : list JSValue := queryHistory (state (env w)).

(** What local storage holds under the key of the history. *)
Definition persisted (w : World Env) : option string :=
  localStorage (env w) !! "queryHistory".

(** The [id] of each entry of a history. *)
Definition ids (h : list JSValue) : list JSValue := (fun item => field item "id") <$> h.



(** One question and its answer: the events before the question is typed,
    the question and the moment of the click on Ask, the events while the
    request is in flight, the body of the 2xx response and the moment it
    arrives. *)
Record Round : Type := mkRound {
  before : list (Z * Event);
  question : string;
  asked_at : Z;
  meanwhile : list (Z * Event);
  body : JSValue;
  answered_at : Z
}.



Definition play_round (onQuery : bool) (r : Round) (w : World Env) : World Env :=
  let idle := steps onQuery (before r) w in
  let typed := step onQuery (asked_at r) (ChangeQuery (question r)) idle in
  let asked := step onQuery (asked_at r) ClickAsk typed in
  let waited := steps onQuery (meanwhile r) asked in
  step onQuery (answered_at r)
       (Settle (List.length (pending w)) (Fulfilled (mkResponse true (Ok (body r)))))
       waited.


















(** *** The store and the list in memory, over every run *)









End HistoryProperties.

(** ** The query client on the small browser *)

Section QueryRuns.
Import JS Net Runtime QueryInterface.
Existing Instance Demo.browser.

(** A client mounted on empty storage, the question typed and asked. *)
Definition typed_gold : World Env := step true 0 (ChangeQuery "gold") (mount ∅).
Definition asked_gold : World Env := step true 1 ClickAsk typed_gold.

Example asked_gold_in_flight :
  sent asked_gold = [queryRequest (JStr "gold")] /\
  List.length (pending asked_gold) = 1%nat /\
  loading (state (env asked_gold)) = true.
Proof. repeat split. Qed.

Lemma failed_query_keeps_history_witness :
  let w' := step true 5 (Settle 0 (Rejected (TypeError "Failed to fetch"))) asked_gold in
  queryHistory (state (env w')) = [] /\
  localStorage (env w') = ∅ /\
  error (state (env w')) = JStr "Failed to connect to the server. Please try again.".
Proof.
  pose proof (failed_query_keeps_history true (state (env typed_gold)) 5 0
                (queryRequest (JStr "gold")) (Rejected (TypeError "Failed to fetch"))
                asked_gold eq_refl I) as H.
  destruct H as (Hh & Hs & He & _).
  split; [exact Hh|]. split; [exact Hs|exact He].
Defined.

(** A 500 response with an error body shows the error of the body. *)
Example server_error_displayed :
  let res := Fulfilled (mkResponse false (Ok (JObj [("error", JStr "index offline")]))) in
  let w' := step true 5 (Settle 0 res) asked_gold in
  error (state (env w')) = JStr "index offline" /\
  queryHistory (state (env w')) = [] /\
  localStorage (env w') = ∅.
Proof. repeat split. Qed.

(** A JSON text written with an apostrophe for each double quote. *)
Definition written (s : string) : string :=
  string_of_list_ascii
    (map (fun c => if Ascii.eqb c "'" then "034"%char else c) (list_ascii_of_string s)).




(** Stored text that is not JSON, and the stored empty array. *)
Example mount_on_broken_storage :
  mount {[ "queryHistory" := "{not json" ]}
  = boot (mkEnv initial {[ "queryHistory" := "{not json" ]} []).
Proof. reflexivity. Qed.

Example mount_on_absent_key : mount ∅ = boot (mkEnv initial ∅ []).
Proof. reflexivity. Qed.

End QueryRuns.

(** ** One query in flight *)

Section SingleFlight.
Import JS Net Runtime QueryInterface.
Context {P : Platform}.

Lemma answered_quiet onQuery c response : Quiet (answered onQuery c response).
Proof.
  unfold Quiet, answered.
  apply Obeys_bind; [apply Obeys_lift|]. intros data.
  destruct (ok response).
  - apply Obeys_bind; [apply Obeys_lift|]. intros ans.
    apply Obeys_bind; [now apply Obeys_act|]. intros _.
    apply Obeys_bind; [apply Obeys_lift|]. intros src.
    apply Obeys_bind; [now apply Obeys_act|]. intros _.
    simpl. intros now. split; [auto|]. split; [auto|].
    destruct onQuery; simpl; auto.
  - apply Obeys_bind; [apply Obeys_lift|]. intros err. now apply Obeys_act.
Qed.

(** The code waiting for the response of a query sends nothing more. *)
Lemma resume_quiet onQuery c res : Quiet (resume onQuery c res).
Proof.
  unfold Quiet, resume.
  apply Obeys_try_finally; [|now apply Obeys_act].
  apply Obeys_try_catch; [|intros e; now apply Obeys_act].
  apply Obeys_bind; [apply Obeys_settled|]. intros response.
  apply answered_quiet.
Qed.

(** What [handleQuery] does in the turn of the event: nothing (the guard,
    or [query.trim] threw), or everything up to its request. *)
Lemma handleQuery_turn onQuery c now (w : World Env) :
  fst (run now (handleQuery onQuery c) w) = w \/
  fst (run now (handleQuery onQuery c) w) =
    mkWorld (asking (env w))
            (pending w ++ [(queryRequest (query c), resume onQuery c)])
            (timers w) (sent w ++ [queryRequest (query c)]).
Proof.
  destruct (query c) as [| |b|n|q|t|items|fields] eqn:Hq;
    try (left; unfold handleQuery; rewrite Hq; reflexivity).
  destruct (blank q) eqn:Hb.
  - left. now rewrite (handleQuery_blank onQuery c now w q Hq Hb).
  - right. rewrite (handleQuery_suspends onQuery c now w q Hq Hb).
    rewrite Hq. reflexivity.
Qed.

Lemma handleHistoryClick_frame item now (w : World Env) :
  let w' := fst (run now (handleHistoryClick item) w) in
  pending w' = pending w /\ sent w' = sent w /\
  loading (state (env w')) = loading (state (env w)).
Proof. destruct item; repeat split. Qed.

(** The invariant of the query client: at most one request waits, the
    loading flag is set while one does, and the code that waits sends
    nothing itself. *)
Definition single_flight (w : World Env) : Prop :=
  (List.length (pending w) <= 1)%nat /\
  (pending w <> [] -> loading (state (env w)) = true) /\
  Forall (fun rk => forall res, Quiet (snd rk res)) (pending w).

Lemma single_flight_idle (w : World Env) : pending w = [] -> single_flight w.
Proof.
  intros H. unfold single_flight. rewrite H. simpl.
  split; [lia|]. split; [congruence|constructor].
Qed.

Lemma single_flight_ask onQuery now (w : World Env) :
  single_flight w -> loading (state (env w)) = false ->
  single_flight (fst (run now (handleQuery onQuery (state (env w))) w)).
Proof.
  intros Hw Hl.
  assert (Hnil : pending w = []).
  { destruct Hw as (_ & Hload & _). destruct (pending w); [reflexivity|].
    rewrite Hload in Hl by discriminate. discriminate. }
  destruct (handleQuery_turn onQuery (state (env w)) now w) as [-> | ->]; [exact Hw|].
  rewrite Hnil. unfold single_flight. simpl.
  split; [lia|]. split; [reflexivity|].
  constructor; [|constructor]. intros res. apply resume_quiet.
Qed.

Lemma single_flight_step onQuery now ev (w : World Env) :
  single_flight w -> single_flight (step onQuery now ev w).
Proof.
  intros Hw. destruct ev as [text|key| | | |i|i|i res]; cbn [step].
  - exact Hw.
  - destruct (String.eqb key "Enter" && negb (loading (state (env w)))) eqn:Hg;
      [|exact Hw].
    apply andb_true_iff in Hg as [_ Hl]. apply negb_true_iff in Hl.
    now apply single_flight_ask.
  - unfold askDisabled.
    destruct (loading (state (env w))) eqn:Hl; [exact Hw|].
    destruct (call_trim (query (state (env w)))) as [t|e]; [|exact Hw].
    simpl. destruct (String.eqb t ""); simpl; [exact Hw|].
    now apply single_flight_ask.
  - exact Hw.
  - destruct (queryHistory (state (env w))); exact Hw.
  - destruct (showHistory (state (env w))); [|exact Hw].
    destruct (queryHistory (state (env w)) !! i) as [item|]; [|exact Hw].
    destruct (handleHistoryClick_frame item now w) as (Hp & _ & Hl).
    destruct Hw as (H1 & H2 & H3). unfold single_flight.
    rewrite Hp, Hl. auto.
  - destruct (negb (truthy (answer (state (env w)))) && negb (loading (state (env w))));
      [|exact Hw].
    destruct (suggestedQuestions !! i); exact Hw.
  - unfold settle. destruct (pending w !! i) as [[r k]|] eqn:Hi; [|exact Hw].
    destruct Hw as (Hlen & _ & Hq).
    assert (Hk : Quiet (k res)) by exact (Forall_at _ _ _ _ Hq Hi res).
    apply single_flight_idle.
    destruct (run_quiet now (k res)
                (mkWorld (env w) (delete i (pending w)) (timers w) (sent w)) Hk) as [Hp _].
    rewrite Hp. simpl.
    destruct (pending w) as [|x [|y rest]]; [destruct i; discriminate | | simpl in Hlen; lia].
    destruct i; [reflexivity|discriminate].
Qed.

(** X1.  The query client of [QueryInterface]: whatever the storage it
    mounts on and whatever the events, at most one request is in flight;
    while one is, the Ask button is disabled and neither a click nor the
    Enter key starts another. *)
Lemma query_interface_single_flight onQuery storage evs :
  let w := steps onQuery evs (mount storage) in
  (List.length (pending w) <= 1)%nat /\
  (pending w <> [] ->
     askDisabled (state (env w)) = Ok true /\
     forall now, step onQuery now ClickAsk w = w /\
                 step onQuery now (KeyPress "Enter") w = w).
Proof.
  intros w.
  assert (Hw : single_flight w).
  { subst w. unfold steps.
    assert (H0 : single_flight (mount storage)).
    { apply single_flight_idle. unfold mount, loadQueryHistory. simpl.
      destruct (storage !! "queryHistory") as [text|]; [|reflexivity].
      simpl. destruct (negb (String.eqb text "")); [|reflexivity].
      simpl. destruct (JSON_parse text) as [value|e]; [|reflexivity].
      simpl. destruct (call_map value revive); reflexivity. }
    revert H0. generalize (mount storage).
    induction evs as [|[now ev] evs IH]; intros w0 H0; simpl; [exact H0|].
    apply IH. now apply single_flight_step. }
  destruct Hw as (Hlen & Hload & _). split; [exact Hlen|].
  intros Hne. specialize (Hload Hne).
  unfold askDisabled. cbn [step]. unfold askDisabled. rewrite Hload.
  split; [reflexivity|]. intros now. split; [reflexivity|].
  rewrite andb_false_r. reflexivity.
Qed.

End SingleFlight.

Section ShellRuns.
Import JS Net Runtime.

(** The query box of the shell, the question typed. *)
Definition shell_typed : World AppShell.State :=
  AppShell.steps [(0, AppShell.ClickNav AppShell.QuerySection);
                  (1, AppShell.ChangeQuery "gold")]
                 (boot AppShell.initial).

(** C8.  In the query box of the section-based shell [App.tsx], Enter
    pressed twice before any response starts two requests: after the first
    the loading flag is set and the Ask button is disabled, yet the Enter
    handler calls [handleQuery] without looking at the flag, and two
    requests to the query endpoint are in flight at once. *)
Theorem app_shell_enter_twice_two_in_flight :
  let once := AppShell.step 2 (AppShell.KeyPress "Enter") shell_typed in
  let twice := AppShell.step 3 (AppShell.KeyPress "Enter") once in
  AppShell.loading (env once) = true /\
  AppShell.step 3 AppShell.ClickAsk once = once /\
  List.length (pending once) = 1%nat /\
  List.length (pending twice) = 2%nat /\
  sent twice = [AppShell.queryRequest "gold"; AppShell.queryRequest "gold"].
Proof. repeat split. Qed.

(** The box of the shell has no guard on a blank question either: Enter on
    the empty box sends a request. *)
Example app_shell_sends_blank_question :
  sent (AppShell.steps [(0, AppShell.ClickNav AppShell.QuerySection);
                        (1, AppShell.KeyPress "Enter")]
                       (boot AppShell.initial))
  = [AppShell.queryRequest ""].
Proof. reflexivity. Qed.

End ShellRuns.

(** ** The upload client *)

Section UploadProperties.
Import JS Net Runtime FileUpload.
Context {P : Platform}.
Local Open Scope async_scope.

(** The code of [handleUpload] that waits for the response, in file mode
    and in YouTube mode: the rest of the [try] and its [catch]. *)
Definition resume_file (onUpload : bool) (res : FetchResult) : Async Env unit :=
  try_catch
    (response <- match res with
                 | Fulfilled response => Ret response
                 | Rejected e => Throw e
                 end ;;
     fileUploaded onUpload response)
    uploadFailed.

Definition resume_youtube (onUpload : bool) (res : FetchResult) : Async Env unit :=
  try_catch
    (response <- match res with
                 | Fulfilled response => Ret response
                 | Rejected e => Throw e
                 end ;;
     youtubeUploaded onUpload response)
    uploadFailed.

Definition show_status (text : string) (e : Env) : Env :=
  on_state (fun s => mkState (selectedFile s) (youtubeUrl s) (uploadMode s)
                             (fileType s) text (files s)) e.

Lemma handleUpload_file onUpload c file now (w : World Env) :
  uploadMode c = FileMode -> selectedFile c = Some file ->
  run now (handleUpload onUpload c) w =
    (mkWorld (show_status "Uploading..." (env w))
             (pending w ++ [(uploadRequest file (fileType c), resume_file onUpload)])
             (timers w)
             (sent w ++ [uploadRequest file (fileType c)]),
     Suspended).
Proof. intros Hm Hf. unfold handleUpload. rewrite Hm, Hf. reflexivity. Qed.

Lemma handleUpload_youtube onUpload c now (w : World Env) :
  uploadMode c = YoutubeMode -> blank (youtubeUrl c) = false ->
  run now (handleUpload onUpload c) w =
    (mkWorld (show_status "Uploading..." (env w))
             (pending w ++ [(youtubeRequest (youtubeUrl c), resume_youtube onUpload)])
             (timers w)
             (sent w ++ [youtubeRequest (youtubeUrl c)]),
     Suspended).
Proof.
  intros Hm Hb. unfold handleUpload. rewrite Hm. cbn [truthy].
  rewrite trim_truthy, Hb. reflexivity.
Qed.

(** The text a failed upload shows after ["Upload failed: "]: the [error]
    of the body when there is one, or the error thrown. *)
Definition upload_failure_text (res : FetchResult) : string :=
  match res with
  | Rejected e => Error_toString e
  | Fulfilled response =>
      match json response with
      | Err e => Error_toString e
      | Ok result =>
          match get result "error" with
          | Err e => Error_toString e
          | Ok err => ToString (or_else err (JStr "Unknown error"))
          end
      end
  end.

Lemma resume_file_failed onUpload now res (w : World Env) :
  failed res ->
  run now (resume_file onUpload res) w
  = (with_env (show_status ("Upload failed: " +:+ upload_failure_text res)) w, Returned).
Proof.
  unfold failed, resume_file, fileUploaded, upload_failure_text.
  destruct res as [[okay result]|e]; simpl.
  - intros ->. destruct result as [result|e]; simpl; [|reflexivity].
    destruct (get result "error") as [err|e]; reflexivity.
  - intros _. reflexivity.
Qed.

Lemma resume_youtube_failed onUpload now res (w : World Env) :
  failed res ->
  run now (resume_youtube onUpload res) w
  = (with_env (show_status ("Upload failed: " +:+ upload_failure_text res)) w, Returned).
Proof.
  unfold failed, resume_youtube, youtubeUploaded, upload_failure_text.
  destruct res as [[okay result]|e]; simpl.
  - intros ->. destruct result as [result|e]; simpl; [|reflexivity].
    destruct (get result "error") as [err|e]; reflexivity.
  - intros _. reflexivity.
Qed.

(** C2.  When the upload whose code waits at place [i] fails (the promise
    of the POST rejects, or the response is not 2xx), the status line shows
    ["Upload failed: "] and the error (the [error] of the body, or the
    error thrown), so it no longer reads ["Uploading..."]; nothing is
    sent, so the file listing is not fetched again, and the list of files
    and the acknowledgments are as they were. *)
Theorem failed_upload_reports_without_refresh onUpload now i r k res (w : World Env) :
  pending w !! i = Some (r, k) ->
  k = resume_file onUpload \/ k = resume_youtube onUpload ->
  failed res ->
  let w' := step onUpload now (Settle i res) w in
  uploadStatus (state (env w')) = "Upload failed: " +:+ upload_failure_text res /\
  uploadStatus (state (env w')) <> "Uploading..." /\
  sent w' = sent w /\
  pending w' = delete i (pending w) /\
  files (state (env w')) = files (state (env w)) /\
  acknowledged (env w') = acknowledged (env w) /\
  (forall fields s,
      res = Fulfilled (mkResponse false (Ok (JObj fields))) ->
      lookup_field "error" fields = JStr s -> s <> "" ->
      upload_failure_text res = s) /\
  (forall e, res = Rejected e -> upload_failure_text res = Error_toString e).
Proof.
  intros Hi Hk Hf w'. subst w'. cbn [step]. unfold settle. rewrite Hi.
  assert (Hrun : run now (k res)
                   (mkWorld (env w) (delete i (pending w)) (timers w) (sent w))
                 = (with_env (show_status ("Upload failed: " +:+ upload_failure_text res))
                      (mkWorld (env w) (delete i (pending w)) (timers w) (sent w)),
                    Returned)).
  { destruct Hk as [-> | ->];
      [now apply resume_file_failed | now apply resume_youtube_failed]. }
  rewrite Hrun. cbn.
  repeat split.
  - discriminate.
  - intros fields s -> Hs Hne. cbn. rewrite Hs. unfold or_else. cbn.
    destruct (String.eqb s "") eqn:He; [|reflexivity].
    apply String.eqb_eq in He. contradiction.
  - intros e ->. reflexivity.
Qed.

(** *** The declared content type *)

(** Every request of the client is: a file upload whose type is one the
    select offers, a YouTube upload of type video, or the file listing. *)
Definition well_tagged (r : Request) : Prop :=
  (exists file t, r = uploadRequest file t /\ In t fileTypeOptions) \/
  (exists u, r = youtubeRequest u) \/
  r = GET filesUrl.

(** The file type in the state is one the select offers. *)
Definition type_offered (e : Env) : Prop := In (fileType (state e)) fileTypeOptions.

Lemma fetchFiles_obeys : Obeys well_tagged type_offered fetchFiles.
Proof.
  unfold fetchFiles.
  apply Obeys_try_catch; [|intros e; exact I].
  apply Obeys_bind; [apply Obeys_fetch; right; right; reflexivity|]. intros response.
  apply Obeys_bind; [apply Obeys_lift|]. intros data.
  apply Obeys_bind; [apply Obeys_lift|]. intros listed.
  apply Obeys_act. intros e He. exact He.
Qed.

Lemma call_onUpload_obeys onUpload result :
  Obeys well_tagged type_offered (call_onUpload onUpload result).
Proof. destruct onUpload; simpl; auto. Qed.

Lemma fileUploaded_obeys onUpload response :
  Obeys well_tagged type_offered (fileUploaded onUpload response).
Proof.
  unfold fileUploaded.
  apply Obeys_bind; [apply Obeys_lift|]. intros result.
  destruct (ok response).
  - apply Obeys_bind; [apply Obeys_lift|]. intros filename.
    apply Obeys_bind; [apply Obeys_act; intros e He; exact He|]. intros _.
    apply Obeys_bind; [apply Obeys_act; intros e He; exact He|]. intros _.
    split; [apply fetchFiles_obeys | apply call_onUpload_obeys].
  - apply Obeys_bind; [apply Obeys_lift|]. intros err.
    apply Obeys_act. intros e He. exact He.
Qed.

Lemma youtubeUploaded_obeys onUpload response :
  Obeys well_tagged type_offered (youtubeUploaded onUpload response).
Proof.
  unfold youtubeUploaded.
  apply Obeys_bind; [apply Obeys_lift|]. intros result.
  destruct (ok response).
  - apply Obeys_bind; [apply Obeys_lift|]. intros link.
    apply Obeys_bind; [apply Obeys_act; intros e He; exact He|]. intros _.
    apply Obeys_bind; [apply Obeys_act; intros e He; exact He|]. intros _.
    split; [apply fetchFiles_obeys | apply call_onUpload_obeys].
  - apply Obeys_bind; [apply Obeys_lift|]. intros err.
    apply Obeys_act. intros e He. exact He.
Qed.

Lemma handleUpload_obeys onUpload c :
  In (fileType c) fileTypeOptions ->
  Obeys well_tagged type_offered (handleUpload onUpload c).
Proof.
  intros Ht. unfold handleUpload.
  destruct (uploadMode c).
  - destruct (selectedFile c) as [file|]; [|apply Obeys_act; intros e He; exact He].
    apply Obeys_bind; [apply Obeys_act; intros e He; exact He|]. intros _.
    apply Obeys_try_catch; [|intros e; apply Obeys_act; intros e' He; exact He].
    apply Obeys_bind; [|intros response; apply fileUploaded_obeys].
    apply Obeys_fetch. left. exists file, (fileType c). auto.
  - destruct (negb (truthy (JStr (trim (youtubeUrl c)))));
      [apply Obeys_act; intros e He; exact He|].
    apply Obeys_bind; [apply Obeys_act; intros e He; exact He|]. intros _.
    apply Obeys_try_catch; [|intros e; apply Obeys_act; intros e' He; exact He].
    apply Obeys_bind; [|intros response; apply youtubeUploaded_obeys].
    apply Obeys_fetch. right. left. eauto.
Qed.

Lemma step_tidy onUpload now ev (w : World Env) :
  tidy well_tagged type_offered w -> tidy well_tagged type_offered (step onUpload now ev w).
Proof.
  intros Hw. destruct ev as [m|chosen|i|text| |i res]; cbn [step].
  - apply run_tidy; [|exact Hw]. apply Obeys_act. intros e He. exact He.
  - destruct (uploadMode (state (env w))); [|exact Hw].
    destruct chosen as [|file rest]; [exact Hw|].
    apply run_tidy; [|exact Hw]. apply Obeys_act. intros e He. exact He.
  - destruct (uploadMode (state (env w))); [|exact Hw].
    destruct (fileTypeOptions !! i) as [value|] eqn:Hv; [|exact Hw].
    apply run_tidy; [|exact Hw]. apply Obeys_act. intros e _.
    change (In value fileTypeOptions). apply list_elem_of_In.
    apply list_elem_of_lookup. eauto.
  - destruct (uploadMode (state (env w))); [exact Hw|].
    apply run_tidy; [|exact Hw]. apply Obeys_act. intros e He. exact He.
  - destruct (uploadDisabled (state (env w))); [exact Hw|].
    apply run_tidy; [|exact Hw]. apply handleUpload_obeys.
    destruct Hw as [Hi _]. exact Hi.
  - now apply settle_tidy.
Qed.

(** Whatever the events, every request the client has sent is well
    tagged. *)
Lemma sent_well_tagged onUpload evs :
  Forall well_tagged (sent (steps onUpload evs mount)).
Proof.
  assert (H : tidy well_tagged type_offered (steps onUpload evs mount)).
  { unfold steps.
    assert (H0 : tidy well_tagged type_offered mount).
    { unfold mount. apply run_tidy; [apply fetchFiles_obeys|].
      repeat split; simpl; auto. unfold type_offered. simpl. auto. }
    revert H0. generalize mount.
    induction evs as [|[now ev] evs IH]; intros w0 H0; simpl; [exact H0|].
    apply IH. now apply step_tidy. }
  destruct H as (_ & Hs & _). exact Hs.
Qed.

Lemma uploadRequest_inj file t file' t' :
  uploadRequest file t = uploadRequest file' t' -> t = t'.
Proof. intros [= _ Ht]. exact Ht. Qed.

(** A file upload the client sent declares a type the select offers. *)
Lemma sent_file_type_offered onUpload evs file t :
  In (uploadRequest file t) (sent (steps onUpload evs mount)) ->
  In t fileTypeOptions.
Proof.
  intros Hin. pose proof (sent_well_tagged onUpload evs) as Hall.
  rewrite Forall_forall in Hall. apply list_elem_of_In in Hin.
  destruct (Hall _ Hin) as [(file' & t' & Heq & Ht) | [(u & Heq) | Heq]].
  - apply uploadRequest_inj in Heq. now subst.
  - discriminate Heq.
  - discriminate Heq.
Qed.

(** Picking a file, choosing the [i]-th option and clicking Upload sends
    the file with the type of that option. *)
Lemma option_can_be_sent onUpload file i t :
  fileTypeOptions !! i = Some t ->
  last (sent (steps onUpload
                [(1, ChooseFiles [file]); (2, ChangeFileType i); (3, ClickUpload)]
                mount))
  = Some (uploadRequest file t).
Proof.
  intros Hi. unfold steps. cbn [fold_left fst snd].
  destruct i as [|[|[|[|i]]]]; simpl in Hi; try discriminate;
    injection Hi as <-; reflexivity.
Qed.

(** C6, as the code has it.  In file mode the type sent with an upload is
    one of the four values the select of this variant offers (document,
    image, video, audio; there is no data value), whatever the events;
    every one of the four can be selected and is then what is sent; in URL
    mode the type sent is video. *)
Theorem upload_type_is_an_offered_option onUpload :
  fileTypeOptions = ["document"; "image"; "video"; "audio"] /\
  (forall evs file t,
      In (uploadRequest file t) (sent (steps onUpload evs mount)) ->
      In t fileTypeOptions) /\
  (forall t, In t fileTypeOptions ->
      forall file, exists evs,
        last (sent (steps onUpload evs mount)) = Some (uploadRequest file t)) /\
  (forall evs r,
      In r (sent (steps onUpload evs mount)) -> url r = youtubeUploadUrl ->
      exists u, body r = FormBody [("url", FormText u); ("file_type", FormText "video")]).
Proof.
  split; [reflexivity|]. split; [|split].
  - intros evs file t. apply sent_file_type_offered.
  - intros t Ht file.
    apply list_elem_of_In, list_elem_of_lookup in Ht as [i Hi].
    exists [(1, ChooseFiles [file]); (2, ChangeFileType i); (3, ClickUpload)].
    apply option_can_be_sent. exact Hi.
  - intros evs r Hin Hu.
    pose proof (sent_well_tagged onUpload evs) as Hall.
    rewrite Forall_forall in Hall. apply list_elem_of_In in Hin.
    destruct (Hall _ Hin) as [(file' & t' & -> & Ht) | [(u & ->) | ->]].
    + discriminate Hu.
    + eauto.
    + discriminate Hu.
Qed.

End UploadProperties.

(** ** Blank input *)

Section BlankInput.
Import JS Net Runtime.
Context {P : Platform}.

(** In file mode with no file, the guard of [handleUpload] shows a prompt
    and returns. *)
Lemma handleUpload_no_file onUpload c now (w : World FileUpload.Env) :
  FileUpload.uploadMode c = FileUpload.FileMode ->
  FileUpload.selectedFile c = None ->
  run now (FileUpload.handleUpload onUpload c) w
  = (with_env (show_status "Please select a file first.") w, Returned).
Proof. intros Hm Hf. unfold FileUpload.handleUpload. rewrite Hm, Hf. reflexivity. Qed.

Lemma handleUpload_blank_url onUpload c now (w : World FileUpload.Env) :
  FileUpload.uploadMode c = FileUpload.YoutubeMode ->
  blank (FileUpload.youtubeUrl c) = true ->
  run now (FileUpload.handleUpload onUpload c) w
  = (with_env (show_status "Please enter a YouTube URL.") w, Returned).
Proof.
  intros Hm Hb. unfold FileUpload.handleUpload. rewrite Hm. cbn [truthy].
  rewrite trim_truthy, Hb. reflexivity.
Qed.

(** C3.  With no input there is no network call and nothing is reported.
    Upload client: in file mode with no file selected, or in URL mode with
    a URL of white space only, the Upload button is disabled, a click on
    it delivers nothing (the world is unchanged: no request, no status
    text), and [handleUpload] itself returns at its guard having sent
    nothing.  Query client: with a question of white space only the Ask
    button is disabled, a click or the Enter key changes nothing, and
    [handleQuery] returns at its guard with the world as it was. *)
Theorem blank_input_sends_nothing :
  (forall onUpload now (w : World FileUpload.Env),
      let c := FileUpload.state (env w) in
      (FileUpload.uploadMode c = FileUpload.FileMode /\ FileUpload.selectedFile c = None) \/
      (FileUpload.uploadMode c = FileUpload.YoutubeMode /\
       blank (FileUpload.youtubeUrl c) = true) ->
      FileUpload.uploadDisabled c = true /\
      FileUpload.step onUpload now FileUpload.ClickUpload w = w /\
      sent (fst (run now (FileUpload.handleUpload onUpload c) w)) = sent w /\
      pending (fst (run now (FileUpload.handleUpload onUpload c) w)) = pending w /\
      snd (run now (FileUpload.handleUpload onUpload c) w) = Returned) /\
  (forall onQuery now (w : World QueryInterface.Env) q,
      let c := QueryInterface.state (env w) in
      QueryInterface.query c = JStr q -> blank q = true ->
      QueryInterface.askDisabled c = Ok true /\
      QueryInterface.step onQuery now QueryInterface.ClickAsk w = w /\
      QueryInterface.step onQuery now (QueryInterface.KeyPress "Enter") w = w /\
      run now (QueryInterface.handleQuery onQuery c) w = (w, Returned)).
Proof.
  split.
  - intros onUpload now w c [[Hm Hf] | [Hm Hb]].
    + assert (Hd : FileUpload.uploadDisabled c = true).
      { unfold FileUpload.uploadDisabled. now rewrite Hm, Hf. }
      split; [exact Hd|]. split.
      { cbn [FileUpload.step]. fold c. now rewrite Hd. }
      rewrite (handleUpload_no_file onUpload c now w Hm Hf). auto.
    + assert (Hd : FileUpload.uploadDisabled c = true).
      { unfold FileUpload.uploadDisabled. rewrite Hm. cbn [truthy].
        now rewrite trim_truthy, Hb. }
      split; [exact Hd|]. split.
      { cbn [FileUpload.step]. fold c. now rewrite Hd. }
      rewrite (handleUpload_blank_url onUpload c now w Hm Hb). auto.
  - intros onQuery now w q c Hq Hb.
    assert (Hrun : run now (QueryInterface.handleQuery onQuery c) w = (w, Returned))
      by exact (handleQuery_blank onQuery c now w q Hq Hb).
    assert (Hd : QueryInterface.askDisabled c = Ok true).
    { unfold QueryInterface.askDisabled. destruct (QueryInterface.loading c); [reflexivity|].
      rewrite Hq. cbn [call_trim rbind truthy]. now rewrite trim_truthy, Hb. }
    split; [exact Hd|]. split; [|split; [|exact Hrun]].
    + cbn [QueryInterface.step]. fold c. now rewrite Hd.
    + cbn [QueryInterface.step]. fold c.
      destruct (String.eqb "Enter" "Enter" && negb (QueryInterface.loading c));
        [now rewrite Hrun | reflexivity].
Qed.

End BlankInput.

(** ** The upload client on the small browser *)

Section UploadRuns.
Import JS Net Runtime FileUpload.
Existing Instance Demo.browser.

Definition chart1 : File := mkFile "chart1.png" 20480.

(** The client mounted (its listing request in flight), a file picked and
    Upload clicked. *)
Definition picked : World Env := step true 1 (ChooseFiles [chart1]) mount.
Definition uploading : World Env := step true 2 ClickUpload picked.

Example uploading_in_flight :
  sent uploading = [GET filesUrl; uploadRequest chart1 "document"] /\
  uploadStatus (state (env uploading)) = "Uploading...".
Proof. split; reflexivity. Qed.

Lemma failed_upload_reports_without_refresh_witness :
  let res := Fulfilled (mkResponse false (Ok (JObj [("error", JStr "File too large")]))) in
  let w' := step true 3 (Settle 1 res) uploading in
  uploadStatus (state (env w')) = "Upload failed: File too large" /\
  sent w' = [GET filesUrl; uploadRequest chart1 "document"].
Proof.
  pose proof (failed_upload_reports_without_refresh true 3 1
                (uploadRequest chart1 "document") (resume_file true)
                (Fulfilled (mkResponse false (Ok (JObj [("error", JStr "File too large")]))))
                uploading eq_refl (or_introl eq_refl) eq_refl) as H.
  destruct H as (Hs & _ & Hsent & _).
  split; [exact Hs | exact Hsent].
Defined.

(** A transport failure shows the error thrown. *)
Example upload_transport_failure :
  let w' := step true 3 (Settle 1 (Rejected (TypeError "Failed to fetch"))) uploading in
  uploadStatus (state (env w')) = "Upload failed: TypeError: Failed to fetch" /\
  sent w' = sent uploading.
Proof. split; reflexivity. Qed.

(** A 200 response: the status names the file, the listing is fetched
    again and the parent is told. *)
Example upload_success_refreshes :
  let ack := JObj [("filename", JStr "chart1.png"); ("status", JStr "ok")] in
  let w' := step true 3 (Settle 1 (Fulfilled (mkResponse true (Ok ack)))) uploading in
  uploadStatus (state (env w')) = "File uploaded successfully: chart1.png" /\
  sent w' = [GET filesUrl; uploadRequest chart1 "document"; GET filesUrl] /\
  acknowledged (env w') = [ack] /\
  selectedFile (state (env w')) = None.
Proof. repeat split. Qed.

(** The content types of the specification: document, image,
    data/spreadsheet, video and audio. *)
Definition spec_content_types : list string :=
  ["document"; "image"; "data"; "video"; "audio"].

(** C6 as stated fails: one of the five content types, data, is never the
    type of a file upload, whatever the browser and the events. *)
Lemma data_type_cannot_be_sent :
  exists t, In t spec_content_types /\
    forall (B : Platform) onUpload evs file,
      ~ In (uploadRequest file t) (sent (steps (P := B) onUpload evs mount)).
Proof.
  exists "data". split; [simpl; auto|].
  intros B onUpload evs file Hin.
  apply (sent_file_type_offered (P := B)) in Hin.
  simpl in Hin. intuition discriminate.
Qed.

End UploadRuns.

(** ** The entries of the history *)

Section HistoryEntries.
Import JS Net Runtime QueryInterface.
Context {P : Platform}.

Definition is_object (v : JSValue) : Prop :=
  match v with
  | JObj _ => True
  | _ => False
  end.

(** Every entry of the history is an object. *)
Definition entries_are_objects (e : Env) : Prop :=
  Forall is_object (queryHistory (state e)).

Definition any_request (r : Request) : Prop := True.

Lemma Obeys_bind_lift {E A B} (Q : Request -> Prop) (I : E -> Prop)
    (r : Result A) (f : A -> Async E B) :
  (forall a, r = Ok a -> Obeys Q I (f a)) -> Obeys Q I (bind (lift r) f).
Proof. intros H. destruct r; simpl; auto. Qed.

Lemma revive_object item v : revive item = Ok v -> is_object v.
Proof.
  unfold revive. destruct (get item "timestamp"); simpl; [|discriminate].
  intros [= <-]. exact I.
Qed.

Lemma mapM_revive_objects items : forall parsed,
  mapM revive items = Ok parsed -> Forall is_object parsed.
Proof.
  induction items as [|item items IH]; simpl; intros parsed.
  - intros [= <-]. constructor.
  - destruct (revive item) as [v|e] eqn:Hv; simpl; [|discriminate].
    destruct (mapM revive items) as [vs|e]; simpl; [|discriminate].
    intros [= <-]. constructor; [now apply (revive_object item) | now apply IH].
Qed.

Lemma call_map_revive_objects value parsed :
  call_map value revive = Ok parsed -> Forall is_object parsed.
Proof. destruct value; simpl; try discriminate. apply mapM_revive_objects. Qed.

Ltac keeps_history := apply Obeys_act; intros ? He; exact He.

Lemma loadQueryHistory_obeys : Obeys any_request entries_are_objects loadQueryHistory.
Proof.
  unfold loadQueryHistory. simpl. intros e.
  destruct (localStorage e !! "queryHistory") as [text|]; [|exact I].
  simpl. destruct (negb (String.eqb text "")); [|exact I].
  apply Obeys_try_catch; [|intros err; exact I].
  apply Obeys_bind; [apply Obeys_lift|]. intros value.
  apply Obeys_bind_lift. intros parsed Hp.
  apply Obeys_act. intros e' _. change (Forall is_object parsed).
  now apply (call_map_revive_objects value).
Qed.

Lemma answered_obeys onQuery c response :
  Forall is_object (queryHistory c) ->
  Obeys any_request entries_are_objects (answered onQuery c response).
Proof.
  intros Hc. unfold answered.
  apply Obeys_bind; [apply Obeys_lift|]. intros data.
  destruct (ok response).
  - apply Obeys_bind; [apply Obeys_lift|]. intros ans.
    apply Obeys_bind; [keeps_history|]. intros _.
    apply Obeys_bind; [apply Obeys_lift|]. intros src.
    apply Obeys_bind; [keeps_history|]. intros _.
    simpl. intros now. split.
    + intros e _.
      change (Forall is_object (take 20 (newQuery (query c) ans src now :: queryHistory c))).
      apply Forall_take. constructor; [exact I | exact Hc].
    + split; [intros e He; exact He|].
      destruct onQuery; simpl; [|exact I]. split; [intros e He; exact He | exact I].
  - apply Obeys_bind; [apply Obeys_lift|]. intros err. keeps_history.
Qed.

Lemma handleQuery_obeys onQuery c :
  Forall is_object (queryHistory c) ->
  Obeys any_request entries_are_objects (handleQuery onQuery c).
Proof.
  intros Hc. unfold handleQuery.
  apply Obeys_bind; [apply Obeys_lift|]. intros trimmed.
  destruct (negb (truthy (JStr trimmed))); [exact I|].
  apply Obeys_bind; [keeps_history|]. intros _.
  apply Obeys_bind; [keeps_history|]. intros _.
  apply Obeys_bind; [keeps_history|]. intros _.
  apply Obeys_bind; [keeps_history|]. intros _.
  apply Obeys_try_finally; [|keeps_history].
  apply Obeys_try_catch; [|intros e; keeps_history].
  apply Obeys_bind; [now apply Obeys_fetch|]. intros response.
  now apply answered_obeys.
Qed.

Lemma handleHistoryClick_obeys item :
  Obeys any_request entries_are_objects (handleHistoryClick item).
Proof.
  unfold handleHistoryClick.
  apply Obeys_bind; [apply Obeys_lift|]. intros q.
  apply Obeys_bind; [keeps_history|]. intros _.
  apply Obeys_bind; [apply Obeys_lift|]. intros a.
  apply Obeys_bind; [keeps_history|]. intros _.
  apply Obeys_bind; [apply Obeys_lift|]. intros src.
  apply Obeys_bind; [keeps_history|]. intros _.
  keeps_history.
Qed.

Lemma step_keeps_objects onQuery now ev (w : World Env) :
  tidy any_request entries_are_objects w ->
  tidy any_request entries_are_objects (step onQuery now ev w).
Proof.
  intros Hw.
  assert (Hc : Forall is_object (queryHistory (state (env w)))) by (destruct Hw as [Hi _]; exact Hi).
  destruct ev as [text|key| | | |i|i|i res]; cbn [step].
  - apply run_tidy; [keeps_history | exact Hw].
  - destruct (String.eqb key "Enter" && negb (loading (state (env w)))); [|exact Hw].
    apply run_tidy; [now apply handleQuery_obeys | exact Hw].
  - destruct (askDisabled (state (env w))) as [[|]|e]; try exact Hw.
    apply run_tidy; [now apply handleQuery_obeys | exact Hw].
  - apply run_tidy; [keeps_history | exact Hw].
  - destruct (queryHistory (state (env w))); [exact Hw|].
    apply run_tidy; [|exact Hw].
    split; [intros e _; constructor|]. split; [intros e He; exact He | exact I].
  - destruct (showHistory (state (env w))); [|exact Hw].
    destruct (queryHistory (state (env w)) !! i); [|exact Hw].
    apply run_tidy; [apply handleHistoryClick_obeys | exact Hw].
  - destruct (negb (truthy (answer (state (env w)))) && negb (loading (state (env w))));
      [|exact Hw].
    destruct (suggestedQuestions !! i); [|exact Hw].
    apply run_tidy; [keeps_history | exact Hw].
  - now apply settle_tidy.
Qed.

(** Whatever the storage the client mounts on and whatever the events,
    the entries of its history are objects: those it loads are built by
    an object literal, and so are those it adds. *)
Lemma history_entries_are_objects onQuery storage evs :
  Forall is_object (queryHistory (state (env (steps onQuery evs (mount storage))))).
Proof.
  assert (H : tidy any_request entries_are_objects (steps onQuery evs (mount storage))).
  { unfold steps.
    assert (H0 : tidy any_request entries_are_objects (mount storage)).
    { unfold mount. apply run_tidy; [apply loadQueryHistory_obeys|].
      repeat split; simpl; auto. constructor. }
    revert H0. generalize (mount storage).
    induction evs as [|[now ev] evs IH]; intros w0 H0; simpl; [exact H0|].
    apply IH. now apply step_keeps_objects. }
  destruct H as [Hi _]. exact Hi.
Qed.

(** C7.  In any state the client can reach, selecting an entry of the
    history that is shown puts the question, the answer and the sources of
    that entry in the view (the empty list when it has no sources) and
    closes the list; no request is sent and none is added to those in
    flight.  The entry is an object holding all three: for the record a
    successful query stored, the view shows the answer and the sources of
    the response again. *)
Theorem history_click_loads_entry onQuery storage evs now i item :
  let w := steps onQuery evs (mount storage) in
  showHistory (state (env w)) = true ->
  queryHistory (state (env w)) !! i = Some item ->
  exists fields,
    item = JObj fields /\
    step onQuery now (ClickHistoryItem i) w = with_env (showing fields) w /\
    sent (step onQuery now (ClickHistoryItem i) w) = sent w /\
    pending (step onQuery now (ClickHistoryItem i) w) = pending w /\
    (forall q ans src t, item = newQuery q ans src t ->
       let s := state (env (step onQuery now (ClickHistoryItem i) w)) in
       query s = q /\ answer s = ans /\ sources s = or_else src (JArr [])).
Proof.
  intros w Hshow Hi.
  pose proof (history_entries_are_objects onQuery storage evs) as Hobj.
  fold w in Hobj. rewrite Forall_forall in Hobj.
  assert (Hin : item ∈ queryHistory (state (env w))).
  { apply list_elem_of_lookup. eauto. }
  specialize (Hobj item Hin). destruct item as [| | | | | | |fields]; try contradiction.
  exists fields. split; [reflexivity|].
  assert (Hstep : step onQuery now (ClickHistoryItem i) w = with_env (showing fields) w).
  { cbn [step]. rewrite Hshow, Hi. now rewrite handleHistoryClick_object. }
  rewrite Hstep. split; [reflexivity|]. split; [reflexivity|]. split; [reflexivity|].
  intros q ans src t [= ->]. cbn. auto.
Qed.

End HistoryEntries.

Section HistoryRuns.
Import JS Net Runtime QueryInterface.
Existing Instance Demo.browser.

(** The scenario of the specification: one question asked and answered,
    then the history opened. *)
Definition strategies : string := "What are the best gold trading strategies?".

Definition strategies_answer : JSValue :=
  JObj [("answer", JStr "Trend following on the daily chart.");
        ("sources", JArr [JStr "babypips.com"])].

Definition strategies_asked : list (Z * Event) :=
  [ (0, ChangeQuery strategies);
    (1, ClickAsk);
    (2, Settle 0 (Fulfilled (mkResponse true (Ok strategies_answer))));
    (3, ChangeQuery "");
    (4, ClickToggleHistory) ].

Example strategies_recorded :
  let w := steps true strategies_asked (mount ∅) in
  queryHistory (state (env w))
    = [newQuery (JStr strategies) (JStr "Trend following on the daily chart.")
                (JArr [JStr "babypips.com"]) 2] /\
  reported (env w) = [strategies_answer] /\
  List.length (sent w) = 1%nat.
Proof. repeat split. Qed.

Lemma history_click_loads_entry_witness :
  let w := steps true strategies_asked (mount ∅) in
  let s := state (env (step true 5 (ClickHistoryItem 0) w)) in
  query s = JStr strategies /\
  answer s = JStr "Trend following on the daily chart." /\
  sources s = JArr [JStr "babypips.com"] /\
  sent (step true 5 (ClickHistoryItem 0) w) = sent w.
Proof.
  pose proof (history_click_loads_entry true ∅ strategies_asked 5 0
                (newQuery (JStr strategies) (JStr "Trend following on the daily chart.")
                          (JArr [JStr "babypips.com"]) 2)
                eq_refl eq_refl) as H.
  destruct H as (fields & _ & _ & Hsent & _ & Hview).
  destruct (Hview _ _ _ _ eq_refl) as (Hq & Ha & Hs).
  split; [exact Hq|]. split; [exact Ha|]. split; [exact Hs | exact Hsent].
Defined.

End HistoryRuns.

(** ** The other variants, for comparison *)

Section OtherVariants.
Import JS Net Runtime.

Definition overlay_picked : FileUploadOverlay.State :=
  FileUploadOverlay.mkState (Some chart1) "" FileUploadOverlay.FileMode "data"
                            (JArr []) false false.

Definition overlay_uploading : World FileUploadOverlay.Env :=
  fst (run 0 (FileUploadOverlay.handleUpload true overlay_picked)
           (boot (FileUploadOverlay.mkEnv overlay_picked [] []))).

(** The overlay variant offers data and not audio, and sends what was
    chosen. *)
Example overlay_sends_data :
  FileUploadOverlay.fileTypeOptions = ["document"; "image"; "data"; "video"] /\
  sent overlay_uploading = [FileUpload.uploadRequest chart1 "data"].
Proof. split; reflexivity. Qed.

(** In the overlay variant a response that is not 2xx shows the "Done!"
    mark, and the timer it sets fetches the file listing; a transport
    failure drops the overlay and shows nothing. *)
Example overlay_http_failure :
  let res := Fulfilled (mkResponse false (Ok (JObj [("error", JStr "File too large")]))) in
  let done := settle 1 0 res overlay_uploading in
  let later := fire 2001 0 done in
  FileUploadOverlay.showDone (FileUploadOverlay.state (env done)) = true /\
  FileUploadOverlay.isProcessing (FileUploadOverlay.state (env done)) = true /\
  List.length (timers done) = 1%nat /\
  FileUploadOverlay.isProcessing (FileUploadOverlay.state (env later)) = false /\
  sent later = [FileUpload.uploadRequest chart1 "data"; GET FileUpload.filesUrl].
Proof. repeat split. Qed.

Example overlay_transport_failure :
  let gone := settle 1 0 (Rejected (TypeError "Failed to fetch")) overlay_uploading in
  FileUploadOverlay.isProcessing (FileUploadOverlay.state (env gone)) = false /\
  FileUploadOverlay.showDone (FileUploadOverlay.state (env gone)) = false /\
  timers gone = [] /\
  sent gone = sent overlay_uploading.
Proof. repeat split. Qed.

(** With no file its guard returns without a word. *)
Example overlay_guard_is_silent :
  run 0 (FileUploadOverlay.handleUpload true FileUploadOverlay.initial)
      (boot (FileUploadOverlay.mkEnv FileUploadOverlay.initial [] []))
  = (boot (FileUploadOverlay.mkEnv FileUploadOverlay.initial [] []), Returned).
Proof. reflexivity. Qed.

End OtherVariants.

(** ** Edge cases of the bodies *)

Section BodyEdges.
Import JS Net Runtime MarketService.
Existing Instance Demo.browser.

(** A 2xx response whose body is the JSON text [null] has no properties to
    read: [getHistoricalData] throws the [TypeError] of the read. *)
Example getHistoricalData_null_body :
  getHistoricalData (fun _ => Fulfilled (mkResponse true (Ok JNull))) None None None
  = Err (TypeError "Cannot read properties of null (reading 'data')").
Proof. reflexivity. Qed.

(** The same body answering a question: the success branch throws at
    [data.answer], the [catch] shows the connection message, and nothing
    is recorded. *)
Example query_null_body :
  let w' := QueryInterface.step true 5
              (QueryInterface.Settle 0 (Fulfilled (mkResponse true (Ok JNull)))) asked_gold in
  QueryInterface.error (QueryInterface.state (env w'))
    = JStr "Failed to connect to the server. Please try again." /\
  QueryInterface.queryHistory (QueryInterface.state (env w')) = [] /\
  QueryInterface.localStorage (env w') = ∅.
Proof. repeat split. Qed.

(** The handler that answers works on the history its render saw: when
    the history is cleared while a question is in flight, the answer puts
    back the entries that were cleared, under the new one. *)
Example answer_after_clear_restores_history :
  let first := play_round true (mkRound [] "gold" 0 [] (JObj [("answer", JStr "a1")]) 1)
                          (QueryInterface.mount ∅) in
  let typed := QueryInterface.step true 2 (QueryInterface.ChangeQuery "silver") first in
  let asked := QueryInterface.step true 3 QueryInterface.ClickAsk typed in
  let cleared := QueryInterface.step true 4 QueryInterface.ClickClearHistory asked in
  let answered :=
    QueryInterface.step true 5
      (QueryInterface.Settle 0 (Fulfilled (mkResponse true (Ok (JObj [("answer", JStr "a2")])))))
      cleared in
  history cleared = [] /\ persisted cleared = None /\
  ids (history answered) = [JStr "5"; JStr "1"] /\
  persisted answered = Some (Demo.stringify (JArr (history answered))).
Proof. vm_compute. repeat split. Qed.

End BodyEdges.

(* ===================================================================== *)
(** * Further properties of the components *)
(* ===================================================================== *)

(** ** The query client: what it sends, shows and keeps *)

Section QueryInvariants.
Import JS Net Runtime QueryInterface.
Context {P : Platform}.

(** Fewer promises: any request property that follows, and an invariant
    that holds of every environment. *)
Lemma Obeys_weaken {E A} (Q Q' : Request -> Prop) (I I' : E -> Prop) (m : Async E A) :
  (forall r, Q r -> Q' r) -> (forall e, I' e) -> Obeys Q I m -> Obeys Q' I' m.
Proof.
  intros HQ HI. induction m; simpl; auto.
  - intros [Hi Hk]. split; auto.
  - intros [Hr Hk]. split; auto.
  - intros [Hp Hk]. split; auto.
  - intros [Hp Hk]. split; auto.
Qed.

(** A property of the environment that only looks at the history. *)
Definition on_history (H : list JSValue -> Prop) (e : Env) : Prop :=
  H (queryHistory (state e)).

Lemma mount_idle storage :
  pending (mount storage) = [] /\ sent (mount storage) = [] /\ timers (mount storage) = [].
Proof.
  unfold mount, loadQueryHistory. simpl.
  destruct (storage !! "queryHistory") as [text|]; [|auto].
  simpl. destruct (negb (String.eqb text "")); [|auto].
  simpl. destruct (JSON_parse text) as [value|e]; [|auto].
  simpl. destruct (call_map value revive); auto.
Qed.

Section Generic.
Variable Q : Request -> Prop.
Variable H : list JSValue -> Prop.
Hypothesis H_nil : H [].
Hypothesis H_ask : forall onQuery c,
  H (queryHistory c) -> Obeys Q (on_history H) (handleQuery onQuery c).

Ltac keeps := apply Obeys_act; intros ? He; exact He.

Lemma handleHistoryClick_keeps item : Obeys Q (on_history H) (handleHistoryClick item).
Proof.
  unfold handleHistoryClick.
  apply Obeys_bind; [apply Obeys_lift|]. intros q.
  apply Obeys_bind; [keeps|]. intros _.
  apply Obeys_bind; [apply Obeys_lift|]. intros a.
  apply Obeys_bind; [keeps|]. intros _.
  apply Obeys_bind; [apply Obeys_lift|]. intros src.
  apply Obeys_bind; [keeps|]. intros _.
  keeps.
Qed.

Lemma step_keeps onQuery now ev (w : World Env) :
  tidy Q (on_history H) w -> tidy Q (on_history H) (step onQuery now ev w).
Proof.
  intros Hw.
  assert (Hc : H (queryHistory (state (env w)))) by (destruct Hw as [Hi _]; exact Hi).
  destruct ev as [text|key| | | |i|i|i res]; cbn [step].
  - apply run_tidy; [keeps | exact Hw].
  - destruct (String.eqb key "Enter" && negb (loading (state (env w)))); [|exact Hw].
    apply run_tidy; [now apply H_ask | exact Hw].
  - destruct (askDisabled (state (env w))) as [[|]|e]; try exact Hw.
    apply run_tidy; [now apply H_ask | exact Hw].
  - apply run_tidy; [keeps | exact Hw].
  - destruct (queryHistory (state (env w))); [exact Hw|].
    apply run_tidy; [|exact Hw].
    split; [intros e _; exact H_nil|]. split; [intros e He; exact He | exact I].
  - destruct (showHistory (state (env w))); [|exact Hw].
    destruct (queryHistory (state (env w)) !! i); [|exact Hw].
    apply run_tidy; [apply handleHistoryClick_keeps | exact Hw].
  - destruct (negb (truthy (answer (state (env w)))) && negb (loading (state (env w))));
      [|exact Hw].
    destruct (suggestedQuestions !! i); [|exact Hw].
    apply run_tidy; [keeps | exact Hw].
  - now apply settle_tidy.
Qed.

Lemma steps_keep onQuery storage evs :
  H (queryHistory (state (env (mount storage)))) ->
  tidy Q (on_history H) (steps onQuery evs (mount storage)).
Proof.
  intros H0. unfold steps.
  assert (Hm : tidy Q (on_history H) (mount storage)).
  { destruct (mount_idle storage) as (Hp & Hs & Ht).
    unfold tidy. rewrite Hp, Hs, Ht. repeat split; auto. }
  revert Hm. generalize (mount storage).
  induction evs as [|[now ev] evs IH]; intros w0 Hm; simpl; [exact Hm|].
  apply IH. now apply step_keeps.
Qed.

End Generic.

(** A request that carries a question with something in it. *)
Definition asks_question (r : Request) : Prop :=
  exists q, r = queryRequest (JStr q) /\ blank q = false.

Definition any_history (h : list JSValue) : Prop := True.

Lemma handleQuery_asks onQuery c :
  any_history (queryHistory c) ->
  Obeys asks_question (on_history any_history) (handleQuery onQuery c).
Proof.
  intros _. unfold handleQuery. apply Obeys_bind_lift. intros trimmed Ht.
  destruct (query c) as [| |b|n|q|t|items|fields] eqn:Hq; simpl in Ht; try discriminate.
  injection Ht as <-.
  change (truthy (JStr (trim q))) with (negb (String.eqb (trim q) "")).
  rewrite trim_truthy. destruct (blank q) eqn:Hb; simpl; [exact I|].
  split; [auto|]. split; [auto|]. split; [auto|]. split; [auto|].
  split; [exists q; auto|]. intros res.
  change (Obeys asks_question (on_history any_history) (resume onQuery c res)).
  apply (Obeys_weaken (fun _ => False) _ (fun _ => True)).
  - intros r [].
  - intros e. exact I.
  - apply resume_quiet.
Qed.

Lemma steps_single_flight onQuery storage evs :
  single_flight (steps onQuery evs (mount storage)).
Proof.
  unfold steps.
  assert (H0 : single_flight (mount storage)).
  { apply single_flight_idle. apply mount_idle. }
  revert H0. generalize (mount storage).
  induction evs as [|[now ev] evs IH]; intros w0 H0; simpl; [exact H0|].
  apply IH. now apply single_flight_step.
Qed.

(** X2.  Whatever the storage the client mounts on and whatever the
    events, every request it has sent is a POST to the query endpoint whose
    body is the JSON of a question that is not blank.  In every state it
    can reach, typing, clicking a suggestion, an entry of the history, the
    toggle or Clear, a key other than Enter and the arrival of a response
    send nothing, and Ask and Enter send nothing for a blank question. *)
Theorem query_requests_carry_questions onQuery storage evs :
  let w := steps onQuery evs (mount storage) in
  Forall asks_question (sent w) /\
  forall now,
    (forall text, sent (step onQuery now (ChangeQuery text) w) = sent w) /\
    (forall i, sent (step onQuery now (ClickSuggested i) w) = sent w) /\
    (forall i, sent (step onQuery now (ClickHistoryItem i) w) = sent w) /\
    sent (step onQuery now ClickToggleHistory w) = sent w /\
    sent (step onQuery now ClickClearHistory w) = sent w /\
    (forall key, key <> "Enter" -> sent (step onQuery now (KeyPress key) w) = sent w) /\
    (forall i res, sent (step onQuery now (Settle i res) w) = sent w) /\
    (forall q, query (state (env w)) = JStr q -> blank q = true ->
       sent (step onQuery now ClickAsk w) = sent w /\
       sent (step onQuery now (KeyPress "Enter") w) = sent w).
Proof.
  intros w. split.
  { destruct (steps_keep asks_question any_history I handleQuery_asks onQuery storage evs I)
      as (_ & Hs & _).
    exact Hs. }
  pose proof (steps_single_flight onQuery storage evs) as Hflight.
  fold w in Hflight. clearbody w.
  intros now. repeat split.
  - intros i. cbn [step].
    destruct (negb (truthy (answer (state (env w)))) && negb (loading (state (env w))));
      [|reflexivity].
    destruct (suggestedQuestions !! i); reflexivity.
  - intros i. cbn [step].
    destruct (showHistory (state (env w))); [|reflexivity].
    destruct (queryHistory (state (env w)) !! i) as [item|]; [|reflexivity].
    apply handleHistoryClick_frame.
  - cbn [step]. destruct (queryHistory (state (env w))); reflexivity.
  - intros key Hk. cbn [step].
    destruct (String.eqb key "Enter") eqn:He; [|reflexivity].
    apply String.eqb_eq in He. contradiction.
  - intros i res. cbn [step]. unfold settle.
    destruct (pending w !! i) as [[r k]|] eqn:Hi; [|reflexivity].
    destruct Hflight as (_ & _ & Hq).
    assert (Hk : Quiet (k res)) by exact (Forall_at _ _ _ _ Hq Hi res).
    destruct (run_quiet now (k res)
                (mkWorld (env w) (delete i (pending w)) (timers w) (sent w)) Hk) as [_ Hs].
    exact Hs.
  - cbn [step]. unfold askDisabled. rewrite H.
    destruct (loading (state (env w))); [reflexivity|].
    cbn [call_trim rbind].
    change (truthy (JStr (trim q))) with (negb (String.eqb (trim q) "")).
    rewrite trim_truthy, H0. reflexivity.
  - cbn [step]. destruct (String.eqb "Enter" "Enter" && negb (loading (state (env w))));
      [|reflexivity].
    now rewrite (handleQuery_blank onQuery _ now w q H H0).
Qed.

(** *** The length of the history *)

Definition at_most (n : nat) (h : list JSValue) : Prop := (List.length h <= n)%nat.

Lemma handleQuery_bounded n onQuery c :
  (20 <= n)%nat -> at_most n (queryHistory c) ->
  Obeys any_request (on_history (at_most n)) (handleQuery onQuery c).
Proof.
  intros Hn _. unfold handleQuery.
  apply Obeys_bind; [apply Obeys_lift|]. intros trimmed.
  destruct (negb (truthy (JStr trimmed))); [exact I|].
  apply Obeys_bind; [apply Obeys_act; intros e He; exact He|]. intros _.
  apply Obeys_bind; [apply Obeys_act; intros e He; exact He|]. intros _.
  apply Obeys_bind; [apply Obeys_act; intros e He; exact He|]. intros _.
  apply Obeys_bind; [apply Obeys_act; intros e He; exact He|]. intros _.
  apply Obeys_try_finally; [|apply Obeys_act; intros e He; exact He].
  apply Obeys_try_catch; [|intros e; apply Obeys_act; intros e' He; exact He].
  apply Obeys_bind; [now apply Obeys_fetch|]. intros response.
  unfold answered.
  apply Obeys_bind; [apply Obeys_lift|]. intros data.
  destruct (ok response).
  - apply Obeys_bind; [apply Obeys_lift|]. intros ans.
    apply Obeys_bind; [apply Obeys_act; intros e He; exact He|]. intros _.
    apply Obeys_bind; [apply Obeys_lift|]. intros src.
    apply Obeys_bind; [apply Obeys_act; intros e He; exact He|]. intros _.
    simpl. intros now. split.
    + intros e _.
      change (List.length (take 20 (newQuery (query c) ans src now :: queryHistory c))
              <= n)%nat.
      rewrite length_take. lia.
    + split; [intros e He; exact He|].
      destruct onQuery; simpl; [|exact I]. split; [intros e He; exact He | exact I].
  - apply Obeys_bind; [apply Obeys_lift|]. intros err.
    apply Obeys_act. intros e He. exact He.
Qed.

(** X3.  The history never grows past 20 entries, unless the client
    mounted on a longer stored list: in every state it can reach, its
    length is at most the larger of 20 and the length of the history it
    loaded ([loadQueryHistory] does not cut what it loads). *)
Theorem history_length_bounded onQuery storage evs :
  (List.length (queryHistory (state (env (steps onQuery evs (mount storage)))))
   <= Nat.max 20 (List.length (queryHistory (state (env (mount storage))))))%nat.
Proof.
  set (n := Nat.max 20 (List.length (queryHistory (state (env (mount storage)))))).
  assert (H20 : (20 <= n)%nat) by (subst n; lia).
  assert (H0 : at_most n (queryHistory (state (env (mount storage)))))
    by (unfold at_most; subst n; lia).
  destruct (steps_keep any_request (at_most n)
              ltac:(unfold at_most; simpl; lia)
              (fun onQuery c => handleQuery_bounded n onQuery c H20)
              onQuery storage evs H0) as (Hi & _).
  exact Hi.
Qed.

(** *** A successful answer *)

(** X4.  When the query whose code waits at place [i] is answered with a
    2xx response and a readable body, the view shows [data.answer] and
    [data.sources] (the empty list when there are none), the loading flag
    is cleared, the parent callback receives the body once (when there is
    a callback), the question in the box and the error stay as they are,
    and no request is sent. *)
Theorem successful_answer_is_shown onQuery c now i r data (w : World Env) :
  pending w !! i = Some (r, resume onQuery c) ->
  readable data ->
  let w' := step onQuery now (Settle i (Fulfilled (mkResponse true (Ok data)))) w in
  answer (state (env w')) = field data "answer" /\
  sources (state (env w')) = or_else (field data "sources") (JArr []) /\
  loading (state (env w')) = false /\
  error (state (env w')) = error (state (env w)) /\
  query (state (env w')) = query (state (env w)) /\
  reported (env w') = (if onQuery then reported (env w) ++ [data] else reported (env w)) /\
  sent w' = sent w /\
  pending w' = delete i (pending w).
Proof.
  intros Hi Hd w'. subst w'. cbn [step]. unfold settle.
  rewrite Hi, resume_succeeded by exact Hd. cbn. repeat split.
Qed.

(** *** Clearing the history *)

(** X5.  Clear History (shown while the history is not empty) empties the
    list in memory and removes the key from local storage, leaving every
    other key alone and sending nothing; a client mounted afterwards on
    that storage starts with an empty history. *)
Theorem clear_history_empties_both onQuery now (w : World Env) :
  queryHistory (state (env w)) <> [] ->
  let w' := step onQuery now ClickClearHistory w in
  history w' = [] /\
  persisted w' = None /\
  (forall key, key <> "queryHistory" ->
     localStorage (env w') !! key = localStorage (env w) !! key) /\
  history (mount (localStorage (env w'))) = [] /\
  sent w' = sent w /\ pending w' = pending w.
Proof.
  intros Hne w'. subst w'. cbn [step].
  destruct (queryHistory (state (env w))) as [|x rest] eqn:Hh; [contradiction|].
  unfold history, persisted. cbn.
  split; [reflexivity|]. split; [apply lookup_delete_eq|].
  split; [intros key Hk; now apply lookup_delete_ne|].
  split; [|split; reflexivity].
  unfold mount, loadQueryHistory. simpl. rewrite lookup_delete_eq. reflexivity.
Qed.

(** *** Loading a stored history *)

Lemma lookup_set_field_eq k v fields : lookup_field k (set_field k v fields) = v.
Proof.
  induction fields as [|[k' v'] rest IH]; simpl.
  - now rewrite String.eqb_refl.
  - destruct (String.eqb k k') eqn:Hk; simpl.
    + now rewrite String.eqb_refl.
    + now rewrite Hk.
Qed.

Lemma lookup_set_field_ne k k' v fields :
  k <> k' -> lookup_field k (set_field k' v fields) = lookup_field k fields.
Proof.
  intros Hne. induction fields as [|[k0 v0] rest IH]; simpl.
  - apply String.eqb_neq in Hne. now rewrite Hne.
  - destruct (String.eqb k' k0) eqn:Hk; simpl.
    + apply String.eqb_eq in Hk. subst k0.
      apply String.eqb_neq in Hne. now rewrite Hne.
    + destruct (String.eqb k k0); [reflexivity | exact IH].
Qed.

(** The entry [loadQueryHistory] makes of a stored object. *)
Definition revived (item : JSValue) : JSValue :=
  JObj (set_field "timestamp" (JDate (Date_from (field item "timestamp"))) (spread item)).

Lemma mapM_revive_objects_ok items :
  Forall is_object items -> mapM revive items = Ok (map revived items).
Proof.
  induction 1 as [|item items Hi Hall IH]; simpl; [reflexivity|].
  destruct item; try contradiction. rewrite IH. reflexivity.
Qed.

Lemma mapM_revive_null items : In JNull items -> exists e, mapM revive items = Err e.
Proof.
  induction items as [|item items IH]; simpl; [contradiction|].
  intros [-> | Hin].
  - simpl. eauto.
  - destruct (revive item) as [v|e]; simpl; [|eauto].
    destruct (IH Hin) as [e ->]. simpl. eauto.
Qed.

(** X6.  Mounting on storage whose text parses to an array of objects:
    the history has one entry per stored object, in the same order and
    however many there are; each entry has the properties of the stored
    object, except that [timestamp] is the [Date] made from the stored
    one.  When one element of the array is [null] the whole stored list is
    dropped and the history stays empty. *)
Theorem stored_history_is_revived storage text items :
  storage !! "queryHistory" = Some text ->
  text <> "" ->
  JSON_parse text = Ok (JArr items) ->
  (Forall is_object items ->
     history (mount storage) = map revived items /\
     forall i item, items !! i = Some item ->
       exists entry,
         history (mount storage) !! i = Some entry /\
         field entry "timestamp" = JDate (Date_from (field item "timestamp")) /\
         forall k, k <> "timestamp" -> field entry k = field item k) /\
  (In JNull items -> history (mount storage) = []).
Proof.
  intros Hs Ht Hp.
  assert (Hne : negb (String.eqb text "") = true).
  { apply negb_true_iff, String.eqb_neq. exact Ht. }
  split.
  - intros Hall.
    assert (Hh : history (mount storage) = map revived items).
    { unfold history, mount, loadQueryHistory. simpl. rewrite Hs. simpl.
      rewrite Hne, Hp. simpl. rewrite (mapM_revive_objects_ok items Hall). reflexivity. }
    split; [exact Hh|]. intros i item Hi. exists (revived item).
    rewrite Hh. split.
    + change (map revived items) with (revived <$> items).
      rewrite list_lookup_fmap, Hi. reflexivity.
    + assert (Hobj : is_object item).
      { rewrite Forall_forall in Hall. apply Hall. apply list_elem_of_lookup. eauto. }
      destruct item as [| | | | | | |fields]; try contradiction.
      unfold revived, field. cbn [get spread]. split.
      * now rewrite lookup_set_field_eq.
      * intros k Hk. now rewrite lookup_set_field_ne.
  - intros Hin. unfold history, mount, loadQueryHistory. simpl. rewrite Hs. simpl.
    rewrite Hne, Hp. simpl. destruct (mapM_revive_null items Hin) as [e ->]. reflexivity.
Qed.

End QueryInvariants.

(** ** The upload client: success, the listing, and what it sends *)

Section UploadInvariants.
Import JS Net Runtime FileUpload.
Context {P : Platform}.
Local Open Scope async_scope.

(** The code of [fetchFiles] that waits for the listing. *)
Definition resume_listing (res : FetchResult) : Async Env unit :=
  try_catch
    (response <- match res with
                 | Fulfilled response => Ret response
                 | Rejected e => Throw e
                 end ;;
     data <- lift (json response) ;;
     listed <- lift (get data "files") ;;
     setFiles (or_else listed (JArr [])))
    (fun _ => Ret tt).

Lemma fetchFiles_suspends now (w : World Env) :
  run now fetchFiles w =
    (mkWorld (env w) (pending w ++ [(GET filesUrl, resume_listing)]) (timers w)
             (sent w ++ [GET filesUrl]),
     Suspended).
Proof. reflexivity. Qed.

Lemma resume_file_not_youtube onUpload : resume_file onUpload <> resume_youtube onUpload.
Proof.
  intros H.
  apply (f_equal (fun k => uploadStatus (state (env (fst
           (run 0 (k (Fulfilled (mkResponse true (Ok (JObj [])))))
                (boot (mkEnv initial [])))))))) in H.
  destruct onUpload; cbn in H; discriminate.
Qed.

(** X7.  When the upload whose code waits at place [i] is answered with a
    2xx response and a readable body, the parent callback receives the
    body as it is, once; exactly one request is sent, the fetch of the file
    listing, and it is now in flight; the list of files shown is untouched
    until that listing arrives.  In file mode the status names
    [result.filename] and the file selection is cleared; in URL mode the
    status names [result.url] and the URL box is emptied. *)
Theorem successful_upload_refreshes_once onUpload now i r k result (w : World Env) :
  pending w !! i = Some (r, k) ->
  k = resume_file onUpload \/ k = resume_youtube onUpload ->
  readable result ->
  let w' := step onUpload now (Settle i (Fulfilled (mkResponse true (Ok result)))) w in
  acknowledged (env w')
    = (if onUpload then acknowledged (env w) ++ [result] else acknowledged (env w)) /\
  sent w' = sent w ++ [GET filesUrl] /\
  pending w' = delete i (pending w) ++ [(GET filesUrl, resume_listing)] /\
  files (state (env w')) = files (state (env w)) /\
  (k = resume_file onUpload ->
     uploadStatus (state (env w'))
       = "File uploaded successfully: " +:+ ToString (field result "filename") /\
     selectedFile (state (env w')) = None) /\
  (k = resume_youtube onUpload ->
     uploadStatus (state (env w'))
       = "YouTube video processing started: " +:+ ToString (field result "url") /\
     youtubeUrl (state (env w')) = "").
Proof.
  intros Hi Hk Hd w'. subst w'. cbn [step]. unfold settle. rewrite Hi.
  pose proof (resume_file_not_youtube onUpload) as Hne.
  destruct Hk as [-> | ->].
  - unfold resume_file at 1, fileUploaded. cbn.
    rewrite !(get_readable _ _ Hd).
    destruct onUpload; cbn;
      (do 4 (split; [reflexivity|]);
       split; [intros _; split; reflexivity | intros Heq; now destruct Hne]).
  - unfold resume_youtube at 1, youtubeUploaded. cbn.
    rewrite !(get_readable _ _ Hd).
    destruct onUpload; cbn;
      (do 4 (split; [reflexivity|]);
       split; [intros Heq; symmetry in Heq; now destruct Hne
              | intros _; split; reflexivity]).
Qed.

(** A listing that cannot be used: the promise rejected, the body is not
    JSON, or it is [null]. *)
Definition unusable (res : FetchResult) : Prop :=
  match res with
  | Rejected _ => True
  | Fulfilled response =>
      match json response with
      | Err _ => True
      | Ok data => ~ readable data
      end
  end.

Lemma not_readable_get v k : ~ readable v -> exists e, get v k = Err e.
Proof.
  intros H. destruct v; simpl; eauto; exfalso; apply H; split; discriminate.
Qed.

(** X8.  When the listing whose code waits at place [i] arrives with a
    readable body, the list of files becomes [data.files], or the empty
    list when the body has none: the list is replaced, not merged, and the
    status code of the response is not looked at, so an error body empties
    the list.  When the listing cannot be used the component is left as it
    was.  Either way nothing is sent. *)
Theorem listing_replaces_files onUpload now i r res (w : World Env) :
  pending w !! i = Some (r, resume_listing) ->
  let w' := step onUpload now (Settle i res) w in
  sent w' = sent w /\
  pending w' = delete i (pending w) /\
  (forall response data,
      res = Fulfilled response -> json response = Ok data -> readable data ->
      files (state (env w')) = or_else (field data "files") (JArr []) /\
      uploadStatus (state (env w')) = uploadStatus (state (env w)) /\
      selectedFile (state (env w')) = selectedFile (state (env w))) /\
  (unusable res -> env w' = env w).
Proof.
  intros Hi w'. subst w'. cbn [step]. unfold settle. rewrite Hi.
  unfold resume_listing.
  destruct res as [[okay body]|e]; cbn.
  - destruct body as [data|e]; cbn.
    + destruct (get data "files") as [listed|e] eqn:Hg; cbn.
      * split; [reflexivity|]. split; [reflexivity|]. split.
        -- intros response data' [= <-] [= <-] Hd.
           rewrite (get_readable _ _ Hd) in Hg. injection Hg as <-. auto.
        -- intros Hn. destruct (not_readable_get data "files" Hn) as [e He]. congruence.
      * split; [reflexivity|]. split; [reflexivity|]. split; [|reflexivity].
        intros response data' [= <-] [= <-] Hd.
        rewrite (get_readable _ _ Hd) in Hg. discriminate.
    + split; [reflexivity|]. split; [reflexivity|]. split; [|reflexivity].
      intros response data' [= <-] Hj. discriminate.
  - split; [reflexivity|]. split; [reflexivity|]. split; [|reflexivity].
    intros response data' Hr. discriminate.
Qed.

(** [n] clicks on Upload, with nothing in between. *)
Fixpoint clicks (onUpload : bool) (n : nat) (w : World Env) : World Env :=
  match n with
  | O => w
  | S m => clicks onUpload m (step onUpload 0 ClickUpload w)
  end.

(** X9.  This variant does not hold back a second submission: with a file
    selected in file mode, [n] clicks on Upload before any response send
    the file [n] times, all in flight together (the button is disabled
    only while no file is selected, and the selection stays until a
    success). *)
Theorem upload_clicks_all_send onUpload n file : forall (w : World Env),
  uploadMode (state (env w)) = FileMode ->
  selectedFile (state (env w)) = Some file ->
  let req := uploadRequest file (fileType (state (env w))) in
  sent (clicks onUpload n w) = sent w ++ repeat req n /\
  List.length (pending (clicks onUpload n w)) = (List.length (pending w) + n)%nat.
Proof.
  induction n as [|n IH]; intros w Hm Hf req; cbn [clicks repeat].
  - rewrite app_nil_r. split; [reflexivity | lia].
  - assert (Hstep : step onUpload 0 ClickUpload w =
                    mkWorld (show_status "Uploading..." (env w))
                            (pending w ++ [(req, resume_file onUpload)])
                            (timers w) (sent w ++ [req])).
    { cbn [step]. unfold uploadDisabled. rewrite Hm, Hf.
      now rewrite (handleUpload_file onUpload _ file 0 w Hm Hf). }
    rewrite Hstep.
    destruct (IH (mkWorld (show_status "Uploading..." (env w))
                          (pending w ++ [(req, resume_file onUpload)])
                          (timers w) (sent w ++ [req])) Hm Hf) as [Hs Hp].
    cbn in Hs, Hp. fold req in Hs. rewrite Hs, Hp, length_app. cbn.
    split; [now rewrite <- app_assoc | lia].
Qed.

(** *** What the client sends *)

Section Generic.
Variable Q : Request -> Prop.
Hypothesis Q_listing : Q (GET filesUrl).
Hypothesis Q_file : forall file t, Q (uploadRequest file t).
Hypothesis Q_youtube : forall u, blank u = false -> Q (youtubeRequest u).

Definition anything (e : Env) : Prop := True.

Lemma fetchFiles_sends : Obeys Q anything fetchFiles.
Proof.
  apply (Obeys_weaken (fun r => r = GET filesUrl) _ anything anything).
  - intros r ->. exact Q_listing.
  - intros e. exact I.
  - unfold fetchFiles.
    apply Obeys_try_catch; [|intros e; exact I].
    apply Obeys_bind; [now apply Obeys_fetch|]. intros response.
    apply Obeys_bind; [apply Obeys_lift|]. intros data.
    apply Obeys_bind; [apply Obeys_lift|]. intros listed.
    now apply Obeys_act.
Qed.

Lemma uploaded_sends onUpload response :
  Obeys Q anything (fileUploaded onUpload response) /\
  Obeys Q anything (youtubeUploaded onUpload response).
Proof.
  unfold fileUploaded, youtubeUploaded. split.
  - apply Obeys_bind; [apply Obeys_lift|]. intros result.
    destruct (ok response).
    + apply Obeys_bind; [apply Obeys_lift|]. intros filename.
      apply Obeys_bind; [now apply Obeys_act|]. intros _.
      apply Obeys_bind; [now apply Obeys_act|]. intros _.
      split; [apply fetchFiles_sends|]. destruct onUpload; simpl; auto.
    + apply Obeys_bind; [apply Obeys_lift|]. intros err. now apply Obeys_act.
  - apply Obeys_bind; [apply Obeys_lift|]. intros result.
    destruct (ok response).
    + apply Obeys_bind; [apply Obeys_lift|]. intros link.
      apply Obeys_bind; [now apply Obeys_act|]. intros _.
      apply Obeys_bind; [now apply Obeys_act|]. intros _.
      split; [apply fetchFiles_sends|]. destruct onUpload; simpl; auto.
    + apply Obeys_bind; [apply Obeys_lift|]. intros err. now apply Obeys_act.
Qed.

Lemma handleUpload_sends onUpload c : Obeys Q anything (handleUpload onUpload c).
Proof.
  unfold handleUpload. destruct (uploadMode c).
  - destruct (selectedFile c) as [file|]; [|now apply Obeys_act].
    apply Obeys_bind; [now apply Obeys_act|]. intros _.
    apply Obeys_try_catch; [|intros e; now apply Obeys_act].
    apply Obeys_bind; [now apply Obeys_fetch|].
    intros response. apply uploaded_sends.
  - change (truthy (JStr (trim (youtubeUrl c))))
      with (negb (String.eqb (trim (youtubeUrl c)) "")).
    rewrite trim_truthy. destruct (blank (youtubeUrl c)) eqn:Hb; simpl negb; cbv iota.
    + now apply Obeys_act.
    + apply Obeys_bind; [now apply Obeys_act|]. intros _.
      apply Obeys_try_catch; [|intros e; now apply Obeys_act].
      apply Obeys_bind; [apply Obeys_fetch; now apply Q_youtube|].
      intros response. apply uploaded_sends.
Qed.

Lemma steps_send onUpload evs : Forall Q (sent (steps onUpload evs mount)).
Proof.
  assert (H : tidy Q anything (steps onUpload evs mount)).
  { unfold steps.
    assert (H0 : tidy Q anything mount).
    { unfold mount. apply run_tidy; [apply fetchFiles_sends|].
      repeat split; simpl; auto. }
    revert H0. generalize mount.
    induction evs as [|[now ev] evs IH]; intros w0 H0; simpl; [exact H0|].
    apply IH. destruct ev as [m|chosen|i|text| |i res]; cbn [step].
    - apply run_tidy; [now apply Obeys_act | exact H0].
    - destruct (uploadMode (state (env w0))); [|exact H0].
      destruct chosen as [|file rest]; [exact H0|].
      apply run_tidy; [now apply Obeys_act | exact H0].
    - destruct (uploadMode (state (env w0))); [|exact H0].
      destruct (fileTypeOptions !! i); [|exact H0].
      apply run_tidy; [now apply Obeys_act | exact H0].
    - destruct (uploadMode (state (env w0))); [exact H0|].
      apply run_tidy; [now apply Obeys_act | exact H0].
    - destruct (uploadDisabled (state (env w0))); [exact H0|].
      apply run_tidy; [apply handleUpload_sends | exact H0].
    - now apply settle_tidy. }
  destruct H as (_ & Hs & _). exact Hs.
Qed.

End Generic.

(** The three requests of the client. *)
Definition client_request (r : Request) : Prop :=
  r = GET filesUrl \/
  (exists file t, r = uploadRequest file t) \/
  (exists u, r = youtubeRequest u /\ blank u = false).

(** X10.  Whatever the events, every request the upload client has sent
    is the fetch of the file listing, the POST of a file to the upload
    endpoint, or the POST to the YouTube endpoint of a URL that is not
    blank. *)
Theorem upload_client_requests onUpload evs :
  Forall client_request (sent (steps onUpload evs mount)).
Proof.
  apply steps_send; unfold client_request.
  - auto.
  - intros file t. right. left. eauto.
  - intros u Hu. right. right. eauto.
Qed.

End UploadInvariants.

(** ** The market panel and the market service: every outcome *)

Section MarketOutcomes.
Import JS Net Runtime MarketService.

Lemma readable_dec v : {readable v} + {~ readable v}.
Proof.
  destruct v; try (left; split; discriminate); right; intros [H1 H2]; congruence.
Defined.

(** X11.  What a refresh of the market panel leaves, whatever the network
    does.  The loading flag is cleared.  The banner is absent exactly when
    both calls were fulfilled with readable bodies, and then the status,
    the price and the time shown are the new ones ([status.status] or
    "Unknown", [current_price] or 0).  Otherwise the banner is set and the
    price and the time are as before; the status is as before too, except
    when the status call gave a readable body and the live call a body
    that cannot be read ([null]): then the new status is shown beside the
    banner. *)
Theorem market_refresh_outcomes network symbol localTime (s : TradingChart.State) :
  let s' := TradingChart.refresh network symbol localTime s in
  let status := getMarketStatus network in
  let live := getLiveData network (Some symbol) in
  TradingChart.isLoading s' = false /\
  (TradingChart.banner s' = None <->
     exists st lv, status = Ok st /\ live = Ok lv /\ readable st /\ readable lv) /\
  (forall st lv, status = Ok st -> live = Ok lv -> readable st -> readable lv ->
     TradingChart.marketStatus s' = or_else (field st "status") (JStr "Unknown") /\
     TradingChart.currentPrice s' = or_else (field lv "current_price") (JNum 0) /\
     TradingChart.lastUpdate s' = localTime) /\
  (TradingChart.banner s' <> None ->
     TradingChart.banner s' = Some "Failed to load market data" /\
     TradingChart.currentPrice s' = TradingChart.currentPrice s /\
     TradingChart.lastUpdate s' = TradingChart.lastUpdate s /\
     (TradingChart.marketStatus s' = TradingChart.marketStatus s \/
      exists st lv, status = Ok st /\ live = Ok lv /\ readable st /\ ~ readable lv /\
        TradingChart.marketStatus s' = or_else (field st "status") (JStr "Unknown"))).
Proof.
  intros s' status live. subst s' status live.
  unfold TradingChart.refresh, TradingChart.loadMarketData.
  destruct (getMarketStatus network) as [st|e1];
    destruct (getLiveData network (Some symbol)) as [lv|e2]; cbn.
  2-4: (split; [reflexivity|]; split;
        [split; [discriminate | intros (st' & lv' & H1 & H2 & _); discriminate]|];
        split; [intros st' lv' H1 H2; discriminate|];
        intros _; auto).
  destruct (readable_dec st) as [Hst|Hst].
  - rewrite (get_readable st "status" Hst). cbn.
    destruct (readable_dec lv) as [Hlv|Hlv].
    + rewrite (get_readable lv "current_price" Hlv). cbn.
      split; [reflexivity|]. split; [split; [eauto 6|reflexivity]|].
      split; [intros st' lv' [= <-] [= <-] _ _; auto|].
      intros H. now destruct H.
    + destruct (not_readable_get lv "current_price" Hlv) as [e ->]. cbn.
      split; [reflexivity|]. split.
      { split; [discriminate|]. intros (st' & lv' & _ & [= <-] & _ & Hr). contradiction. }
      split; [intros st' lv' _ [= <-] _ Hr; contradiction|].
      intros _. split; [reflexivity|]. split; [reflexivity|]. split; [reflexivity|].
      right. exists st, lv. auto.
  - destruct (not_readable_get st "status" Hst) as [e ->]. cbn.
    split; [reflexivity|]. split.
    { split; [discriminate|]. intros (st' & lv' & [= <-] & _ & Hr & _). contradiction. }
    split; [intros st' lv' [= <-] _ Hr _; contradiction|].
    intros _. auto.
Qed.

(** X12.  The two collection methods never hand back a falsy value: what
    [getHistoricalData] and [getPredictions] return is truthy, being the
    field of the body when that is truthy and the empty array otherwise
    (so also when the field is [null], [0] or the empty string).  And all
    five methods reject with the error of the transport when the [fetch]
    itself rejects. *)
Theorem service_results network symbol period interval numPredictions :
  (forall v, getHistoricalData network symbol period interval = Ok v ->
     truthy v = true /\
     exists response data,
       network (GET (historyUrl symbol period interval)) = Fulfilled response /\
       ok response = true /\ json response = Ok data /\
       v = or_else (field data "data") (JArr [])) /\
  (forall v, getPredictions network symbol numPredictions = Ok v ->
     truthy v = true /\
     exists response data,
       network (GET (predictUrl symbol numPredictions)) = Fulfilled response /\
       ok response = true /\ json response = Ok data /\
       v = or_else (field data "predictions") (JArr [])) /\
  (forall e, network (GET (historyUrl symbol period interval)) = Rejected e ->
     getHistoricalData network symbol period interval = Err e) /\
  (forall e, network (GET (predictUrl symbol numPredictions)) = Rejected e ->
     getPredictions network symbol numPredictions = Err e) /\
  (forall e, network (GET (liveUrl symbol)) = Rejected e ->
     getLiveData network symbol = Err e) /\
  (forall e, network (GET statusUrl) = Rejected e -> getMarketStatus network = Err e) /\
  (forall e, network (POST (baseUrl +:+ "/market/train") NoBody) = Rejected e ->
     trainModel network = Err e).
Proof.
  unfold getHistoricalData, getPredictions, getLiveData, getMarketStatus, trainModel, fetch.
  split; [|split; [|repeat split; intros e ->; reflexivity]].
  - intros v.
    destruct (network (GET (historyUrl symbol period interval))) as [response|e];
      cbn; [|discriminate].
    destruct (ok response) eqn:Hok; cbn; [|discriminate].
    destruct (json response) as [data|e] eqn:Hj; cbn; [|discriminate].
    destruct (get data "data") as [x|e] eqn:Hg; cbn; [|discriminate].
    intros [= <-]. split; [now apply or_else_truthy|].
    exists response, data. unfold field. rewrite Hg. auto.
  - intros v.
    destruct (network (GET (predictUrl symbol numPredictions))) as [response|e];
      cbn; [|discriminate].
    destruct (ok response) eqn:Hok; cbn; [|discriminate].
    destruct (json response) as [data|e] eqn:Hj; cbn; [|discriminate].
    destruct (get data "predictions") as [x|e] eqn:Hg; cbn; [|discriminate].
    intros [= <-]. split; [now apply or_else_truthy|].
    exists response, data. unfold field. rewrite Hg. auto.
Qed.

End MarketOutcomes.

(** ** The query box of the shell: every outcome *)

Section ShellOutcomes.
Import JS Net Runtime.
Local Open Scope async_scope.

(** The code of the shell's [handleQuery] that waits for the response. *)
Definition shell_resume (res : FetchResult) : Async AppShell.State unit :=
  try_finally
    (try_catch
       (res' <- match res with
                | Fulfilled response => Ret response
                | Rejected e => Throw e
                end ;;
        if negb (ok res') then Throw (PlainError "Network response was not ok")
        else
          data <- lift (json res') ;;
          ans <- lift (get data "answer") ;;
          AppShell.setAnswer ans)
       (fun err =>
          AppShell.setError
            (if String.eqb (message err) "" then "Unknown error" else message err)))
    (AppShell.setLoading false).

Lemma shell_handleQuery_suspends c now (w : World AppShell.State) :
  snd (run now (AppShell.handleQuery c) w) = Suspended /\
  pending (fst (run now (AppShell.handleQuery c) w))
    = pending w ++ [(AppShell.queryRequest (AppShell.query c), shell_resume)] /\
  sent (fst (run now (AppShell.handleQuery c) w))
    = sent w ++ [AppShell.queryRequest (AppShell.query c)].
Proof. repeat split. Qed.

(** The text the shell shows for an error thrown. *)
Definition shown (e : Error) : string :=
  if String.eqb (message e) "" then "Unknown error" else message e.

(** X13.  When a request of the shell's query box settles: the loading
    flag is cleared, even when other requests of the box are still in
    flight; nothing is sent and nothing is recorded.  A 2xx response with a
    readable body shows [data.answer]; a response that is not 2xx shows
    "Network response was not ok" and its body is not read; a rejected
    [fetch] or a body that is not JSON shows the message of the error
    thrown ("Unknown error" when it has none); the answer is then as it
    was. *)
Theorem shell_answer_outcomes now i r res (w : World AppShell.State) :
  pending w !! i = Some (r, shell_resume) ->
  let w' := AppShell.step now (AppShell.Settle i res) w in
  AppShell.loading (env w') = false /\
  sent w' = sent w /\
  pending w' = delete i (pending w) /\
  AppShell.query (env w') = AppShell.query (env w) /\
  (forall response data,
      res = Fulfilled response -> ok response = true -> json response = Ok data ->
      readable data ->
      AppShell.answer (env w') = field data "answer" /\
      AppShell.error (env w') = AppShell.error (env w)) /\
  (forall response,
      res = Fulfilled response -> ok response = false ->
      AppShell.error (env w') = "Network response was not ok" /\
      AppShell.answer (env w') = AppShell.answer (env w)) /\
  (forall response e,
      res = Fulfilled response -> ok response = true -> json response = Err e ->
      AppShell.error (env w') = shown e /\
      AppShell.answer (env w') = AppShell.answer (env w)) /\
  (forall e, res = Rejected e ->
      AppShell.error (env w') = shown e /\
      AppShell.answer (env w') = AppShell.answer (env w)).
Proof.
  intros Hi w'. subst w'. cbn [AppShell.step]. unfold settle. rewrite Hi.
  unfold shell_resume, shown.
  destruct res as [[okay body]|e]; cbn.
  - destruct okay; cbn.
    + destruct body as [data|e]; cbn.
      * destruct (get data "answer") as [ans|e] eqn:Hg; cbn.
        -- do 4 (split; [reflexivity|]). split.
           { intros response data' [= <-] _ [= <-] Hd.
             rewrite (get_readable _ _ Hd) in Hg. injection Hg as <-. auto. }
           split; [intros response [= <-]; discriminate|].
           split; [intros response e [= <-] _; discriminate|]. intros e; discriminate.
        -- do 4 (split; [reflexivity|]). split.
           { intros response data' [= <-] _ [= <-] Hd.
             rewrite (get_readable _ _ Hd) in Hg. discriminate. }
           split; [intros response [= <-]; discriminate|].
           split; [intros response e' [= <-] _; discriminate|]. intros e'; discriminate.
      * do 4 (split; [reflexivity|]). split.
        { intros response data' [= <-] _; discriminate. }
        split; [intros response [= <-]; discriminate|].
        split; [intros response e' [= <-] _ [= <-]; auto|]. intros e'; discriminate.
    + do 4 (split; [reflexivity|]). split.
      { intros response data' [= <-]; discriminate. }
      split; [intros response [= <-] _; auto|].
      split; [intros response e' [= <-]; discriminate|]. intros e'; discriminate.
  - do 4 (split; [reflexivity|]). split; [intros ? ? ?; discriminate|].
    split; [intros ? ?; discriminate|]. split; [intros ? ? ?; discriminate|].
    intros e' [= <-]. auto.
Qed.

End ShellOutcomes.

(** ** Runs on the small browser *)

Section ExtraRuns.
Import JS Net Runtime.

(** What a session leaves in local storage: the records as JSON reads
    them back, each with its [timestamp] as the ISO text [JSON.stringify]
    wrote for the date. *)
Definition stored_entry (n : nat) : JSValue :=
  let t := 1700000000000 + 1000 * Z.of_nat n in
  JObj [("id", JStr (pretty t));
        ("question", JStr ("question " +:+ pretty (Z.of_nat n)));
        ("answer", JStr "After a pullback.");
        ("timestamp", JStr (Demo.toISOString t));
        ("sources", JArr [JStr "babypips.com"])].

(** Twenty-two stored records, and a list with a [null] in it. *)
Definition stored_entries : list JSValue := map stored_entry (seq 0 22).
Definition damaged_entries : list JSValue := [stored_entry 0; JNull; stored_entry 1].

(** A parser for the texts of these two lists.  They are made of strings,
    arrays, objects and [null], which [JSON.parse] gives back from their
    serialization. *)
Definition archive_parse (text : string) : Result JSValue :=
  match List.find (fun v => String.eqb (Demo.stringify v) text)
                  [JArr stored_entries; JArr damaged_entries] with
  | Some v => Ok v
  | None => Demo.parse text
  end.

Definition archive : Platform := {|
  JSON_parse := archive_parse;
  JSON_stringify := Demo.stringify;
  Date_from := Demo.date_from;
  Date_toString := pretty
|}.

Definition stored_text : string := Demo.stringify (JArr stored_entries).
Definition damaged_text : string := Demo.stringify (JArr damaged_entries).

Definition stored : gmap string string := {[ "queryHistory" := stored_text ]}.
Definition damaged : gmap string string := {[ "queryHistory" := damaged_text ]}.

Example stored_text_starts :
  let first :=
    written ("[{'id':'1700000000000','question':'question 0','answer':'After a pullback.'," +:+
             "'timestamp':'2023-11-14T22:13:20.000Z','sources':['babypips.com']},") in
  String.substring 0 (String.length first) stored_text = first.
Proof. vm_compute. reflexivity. Qed.

Lemma stored_history_is_revived_witness :
  let h := history (QueryInterface.mount (P := archive) stored) in
  List.length h = 22%nat /\
  h !! 0%nat
  = Some (JObj [("id", JStr "1700000000000"); ("question", JStr "question 0");
                ("answer", JStr "After a pullback.");
                ("timestamp", JDate (Some 1700000000000));
                ("sources", JArr [JStr "babypips.com"])]) /\
  h !! 21%nat
  = Some (JObj [("id", JStr "1700000021000"); ("question", JStr "question 21");
                ("answer", JStr "After a pullback.");
                ("timestamp", JDate (Some 1700000021000));
                ("sources", JArr [JStr "babypips.com"])]) /\
  history (QueryInterface.mount (P := archive) damaged) = [].
Proof.
  destruct (stored_history_is_revived (P := archive)
              stored stored_text stored_entries
              eq_refl ltac:(vm_compute; discriminate) ltac:(vm_compute; reflexivity))
    as [H _].
  destruct (H ltac:(repeat constructor)) as [Hh _].
  destruct (stored_history_is_revived (P := archive)
              damaged damaged_text damaged_entries
              eq_refl ltac:(vm_compute; discriminate) ltac:(vm_compute; reflexivity))
    as [_ Hnull].
  cbv zeta. rewrite Hh.
  split; [vm_compute; reflexivity|].
  split; [vm_compute; reflexivity|].
  split; [vm_compute; reflexivity|].
  apply Hnull. right. left. reflexivity.
Defined.

Existing Instance Demo.browser.

Lemma successful_answer_is_shown_witness :
  let data := JObj [("answer", JStr "Buy the dip."); ("sources", JArr [JStr "babypips.com"])] in
  let w' := QueryInterface.step true 5
              (QueryInterface.Settle 0 (Fulfilled (mkResponse true (Ok data)))) asked_gold in
  QueryInterface.answer (QueryInterface.state (env w')) = JStr "Buy the dip." /\
  QueryInterface.loading (QueryInterface.state (env w')) = false /\
  QueryInterface.reported (env w') = [data].
Proof.
  destruct (successful_answer_is_shown true (QueryInterface.state (env typed_gold)) 5 0
              (QueryInterface.queryRequest (JStr "gold"))
              (JObj [("answer", JStr "Buy the dip."); ("sources", JArr [JStr "babypips.com"])])
              asked_gold eq_refl ltac:(split; discriminate))
    as (Ha & _ & Hl & _ & _ & Hr & _).
  split; [exact Ha|]. split; [exact Hl | exact Hr].
Defined.

Lemma clear_history_empties_both_witness :
  let w := QueryInterface.steps true strategies_asked (QueryInterface.mount ∅) in
  let w' := QueryInterface.step true 6 QueryInterface.ClickClearHistory w in
  history w' = [] /\ persisted w' = None /\
  history (QueryInterface.mount (QueryInterface.localStorage (env w'))) = [].
Proof.
  assert (Hne : QueryInterface.queryHistory
                  (QueryInterface.state
                     (env (QueryInterface.steps true strategies_asked
                             (QueryInterface.mount ∅)))) <> [])
    by (vm_compute; discriminate).
  destruct (clear_history_empties_both true 6 _ Hne) as (Hh & Hp & _ & Hm & _).
  split; [exact Hh|]. split; [exact Hp | exact Hm].
Defined.

Lemma successful_upload_refreshes_once_witness :
  let ack := JObj [("filename", JStr "chart1.png"); ("status", JStr "ok")] in
  let w' := FileUpload.step true 3
              (FileUpload.Settle 1 (Fulfilled (mkResponse true (Ok ack)))) uploading in
  FileUpload.acknowledged (env w') = [ack] /\
  sent w' = sent uploading ++ [GET FileUpload.filesUrl].
Proof.
  destruct (successful_upload_refreshes_once true 3 1
              (FileUpload.uploadRequest chart1 "document") (resume_file true)
              (JObj [("filename", JStr "chart1.png"); ("status", JStr "ok")])
              uploading eq_refl (or_introl eq_refl) ltac:(split; discriminate))
    as (Ha & Hs & _).
  split; [exact Ha | exact Hs].
Defined.

(** The listing answered with an error status and an error body: the
    list shown becomes empty. *)
Lemma listing_replaces_files_witness :
  let shown := mkWorld
      (FileUpload.mkEnv
         (FileUpload.mkState None "" FileUpload.FileMode "document" ""
            (JArr [JObj [("filename", JStr "chart1.png")]])) [])
      [(GET FileUpload.filesUrl, resume_listing)] [] [GET FileUpload.filesUrl] in
  let res := Fulfilled (mkResponse false (Ok (JObj [("error", JStr "database down")]))) in
  FileUpload.files (FileUpload.state (env (FileUpload.step true 1 (FileUpload.Settle 0 res) shown)))
  = JArr [].
Proof.
  destruct (listing_replaces_files true 1 0 (GET FileUpload.filesUrl)
              (Fulfilled (mkResponse false (Ok (JObj [("error", JStr "database down")]))))
              (mkWorld
                 (FileUpload.mkEnv
                    (FileUpload.mkState None "" FileUpload.FileMode "document" ""
                       (JArr [JObj [("filename", JStr "chart1.png")]])) [])
                 [(GET FileUpload.filesUrl, resume_listing)] [] [GET FileUpload.filesUrl])
              eq_refl)
    as (_ & _ & H & _).
  destruct (H _ _ eq_refl eq_refl ltac:(split; discriminate)) as (Hf & _).
  exact Hf.
Defined.

Lemma upload_clicks_all_send_witness :
  sent (clicks true 3 picked)
  = [GET FileUpload.filesUrl; FileUpload.uploadRequest chart1 "document";
     FileUpload.uploadRequest chart1 "document"; FileUpload.uploadRequest chart1 "document"].
Proof.
  destruct (upload_clicks_all_send true 3 chart1 picked eq_refl eq_refl) as [Hs _].
  exact Hs.
Defined.

(** Two requests of the shell in flight; the first to settle clears the
    loading flag while the other is still out. *)
Definition shell_twice : World AppShell.State :=
  AppShell.steps [(2, AppShell.KeyPress "Enter"); (3, AppShell.KeyPress "Enter")] shell_typed.

Lemma shell_answer_outcomes_witness :
  let w' := AppShell.step 4
              (AppShell.Settle 0 (Fulfilled (mkResponse false (Ok JNull)))) shell_twice in
  AppShell.loading (env w') = false /\
  List.length (pending w') = 1%nat /\
  AppShell.error (env w') = "Network response was not ok".
Proof.
  destruct (shell_answer_outcomes 4 0 (AppShell.queryRequest "gold")
              (Fulfilled (mkResponse false (Ok JNull))) shell_twice eq_refl)
    as (Hl & _ & Hp & _ & _ & Hn & _).
  split; [exact Hl|]. split; [now rewrite Hp|].
  exact (proj1 (Hn _ eq_refl eq_refl)).
Defined.

End ExtraRuns.

(* ===================================================================== *)
(** ** The overlay variant of the upload panel *)
(* ===================================================================== *)

Section UriFacts.
Import JS Net.

Definition unhex (c : ascii) : N :=
  let n := N_of_ascii c in
  if (n <? 58)%N then (n - 48)%N else (n - 55)%N.

(** The reading back of an encoded string, to tell encodings apart. *)
Fixpoint unescape (s : string) : string :=
  match s with
  | EmptyString => ""
  | String c rest =>
      if Ascii.eqb c "%" then
        match rest with
        | String a (String b rest') =>
            let n := (16 * unhex a + unhex b)%N in
            if (n <? 128)%N then String (ascii_of_N n) (unescape rest')
            else
              match rest' with
              | String _ (String a' (String b' rest'')) =>
                  String (ascii_of_N ((n - 192) * 64 + (16 * unhex a' + unhex b' - 128)))
                         (unescape rest'')
              | _ => ""
              end
        | _ => ""
        end
      else String c (unescape rest)
  end.

Lemma unescape_escape c rest : unescape (escape c +:+ rest) = String c (unescape rest).
Proof. destruct c as [[] [] [] [] [] [] [] []]; reflexivity. Qed.

Lemma unescape_percentEncoded s : unescape (percentEncoded s) = s.
Proof.
  induction s as [|c s IH]; [reflexivity|].
  cbn [percentEncoded]. rewrite unescape_escape, IH. reflexivity.
Qed.

Lemma percentEncoded_inj a b :
  percentEncoded a = percentEncoded b -> a = b.
Proof.
  intros H. apply (f_equal unescape) in H.
  now rewrite !unescape_percentEncoded in H.
Qed.

Lemma append_inj_l (p x y : string) : p +:+ x = p +:+ y -> x = y.
Proof. induction p; simpl; [auto|]. intros [= H]. auto. Qed.

(** The characters an encoded string is made of. *)
Definition segment_char (c : ascii) : bool := unreserved c || Ascii.eqb c "%".

Lemma escape_segment c : forallb segment_char (list_ascii_of_string (escape c)) = true.
Proof. destruct c as [[] [] [] [] [] [] [] []]; reflexivity. Qed.

Lemma list_ascii_of_append (a b : string) :
  list_ascii_of_string (a +:+ b) = list_ascii_of_string a ++ list_ascii_of_string b.
Proof. induction a as [|c a IH]; simpl; [reflexivity|]. now rewrite <- IH. Qed.

Lemma percentEncoded_segment s :
  forallb segment_char (list_ascii_of_string (percentEncoded s)) = true.
Proof.
  induction s as [|c s IH]; [reflexivity|].
  cbn [percentEncoded]. rewrite list_ascii_of_append, forallb_app, escape_segment, IH.
  reflexivity.
Qed.

(** X14.  On a page whose file names are strings of 8-bit code units
    (characters below U+0100, where the built-in cannot throw), the URL
    [handleDeleteFile] addresses is the listing URL followed by one path
    segment: the encoded name holds no slash, question mark, hash or
    ampersand; and two different name strings never give the same URL. *)
Theorem delete_url_names_one_file (name : string) :
  (exists segment,
     FileUploadOverlay.deleteUrl (U := Demo.uri) name
       = Ok (FileUpload.filesUrl +:+ segment) /\
     forall c, In c (list_ascii_of_string segment) ->
               c <> "/"%char /\ c <> "?"%char /\ c <> "#"%char /\ c <> "&"%char) /\
  (forall other,
     FileUploadOverlay.deleteUrl (U := Demo.uri) other
       = FileUploadOverlay.deleteUrl (U := Demo.uri) name ->
     other = name).
Proof.
  split.
  - exists (percentEncoded name). split; [reflexivity|].
    intros c Hc.
    pose proof (percentEncoded_segment name) as Hs.
    rewrite forallb_forall in Hs. specialize (Hs c Hc).
    repeat split; intros ->; discriminate.
  - intros other H. unfold FileUploadOverlay.deleteUrl in H. cbn in H.
    injection H as H.
    apply append_inj_l in H. now apply percentEncoded_inj.
Qed.

Example deleteUrl_of_a_path :
  FileUploadOverlay.deleteUrl (U := Demo.uri) "../upload/gold report.pdf"
  = Ok "http://localhost:8000/files/..%2Fupload%2Fgold%20report.pdf".
Proof. reflexivity. Qed.

End UriFacts.

Section OverlayOutcomes.
Import JS Net Runtime FileUploadOverlay.
Context {P : Platform} {U : UriEncoder}.
Local Open Scope async_scope.

(** The code that waits for the response of an upload, of a deletion and
    of the listing. *)
Definition overlay_resume (onUpload : bool) (clear : Async Env unit)
  : FetchResult -> Async Env unit :=
  fun res =>
    try_catch
      (response <- match res with
                   | Fulfilled response => Ret response
                   | Rejected e => Throw e
                   end ;;
       uploaded onUpload clear response)
      giveUp.

Definition delete_resume : FetchResult -> Async Env unit :=
  fun res =>
    try_catch
      (response <- match res with
                   | Fulfilled response => Ret response
                   | Rejected e => Throw e
                   end ;;
       deleted response)
      (fun _ => alert "Error deleting file. Please try again.").

Definition overlay_listing : FetchResult -> Async Env unit :=
  fun res =>
    try_catch
      (response <- match res with
                   | Fulfilled response => Ret response
                   | Rejected e => Throw e
                   end ;;
       data <- lift (json response) ;;
       listed <- lift (get data "files") ;;
       setFiles (or_else listed (JArr [])))
      (fun _ => Ret tt).

(** What the timer of a finished upload runs. *)
Definition closing : Async Env unit :=
  setIsProcessing false ;; setShowDone false ;; Spawn fetchFiles (Ret tt).

(** The request of an upload and what clears its input afterwards. *)
Definition upload_of (c : State) : option (Request * Async Env unit) :=
  match uploadMode c with
  | FileMode =>
      match selectedFile c with
      | Some file => Some (FileUpload.uploadRequest file (fileType c), setSelectedFile None)
      | None => None
      end
  | YoutubeMode =>
      if negb (truthy (JStr (trim (youtubeUrl c)))) then None
      else Some (FileUpload.youtubeRequest (youtubeUrl c), setYoutubeUrl "")
  end.

Definition processing (e : Env) : Env :=
  on_state (fun s => mkState (selectedFile s) (youtubeUrl s) (uploadMode s) (fileType s)
                             (files s) true false) e.

Lemma overlay_handleUpload_turn onUpload c now (w : World Env) :
  fst (run now (handleUpload onUpload c) w) =
    match upload_of c with
    | Some (r, clear) =>
        mkWorld (processing (env w)) (pending w ++ [(r, overlay_resume onUpload clear)])
                (timers w) (sent w ++ [r])
    | None => w
    end.
Proof.
  unfold handleUpload, upload_of.
  destruct (uploadMode c).
  - destruct (selectedFile c); reflexivity.
  - destruct (negb (truthy (JStr (trim (youtubeUrl c))))); reflexivity.
Qed.

Lemma fetchFiles_turn now (w : World Env) :
  fst (run now fetchFiles w) =
    mkWorld (env w) (pending w ++ [(GET FileUpload.filesUrl, overlay_listing)])
            (timers w) (sent w ++ [GET FileUpload.filesUrl]).
Proof. reflexivity. Qed.

(** X15.  When the response of an upload arrives.  A body that can be read
    shows the Done mark whether the status was a success or not, and sets
    the one timer that closes the overlay; only a success clears the input
    and reaches [onUpload].  A transport failure or an unreadable body
    closes the overlay at once, with no message.  Nothing is sent in that
    turn; the listing is fetched when the timer fires. *)
Theorem overlay_upload_outcomes onUpload now i r clear res (w : World Env) :
  pending w !! i = Some (r, overlay_resume onUpload clear) ->
  clear = setSelectedFile None \/ clear = setYoutubeUrl "" ->
  let w' := step onUpload now (Settle i res) w in
  sent w' = sent w /\
  pending w' = delete i (pending w) /\
  dialogs (env w') = dialogs (env w) /\
  match res with
  | Fulfilled (mkResponse status (Ok result)) =>
      showDone (state (env w')) = true /\
      isProcessing (state (env w')) = isProcessing (state (env w)) /\
      timers w' = timers w ++ [(2000, closing)] /\
      acknowledged (env w') =
        (if status && onUpload then acknowledged (env w) ++ [result]
         else acknowledged (env w)) /\
      (status = false ->
         selectedFile (state (env w')) = selectedFile (state (env w)) /\
         youtubeUrl (state (env w')) = youtubeUrl (state (env w))) /\
      forall later,
        let w'' := step onUpload later (Fire (List.length (timers w))) w' in
        isProcessing (state (env w'')) = false /\
        showDone (state (env w'')) = false /\
        timers w'' = timers w /\
        sent w'' = sent w ++ [GET FileUpload.filesUrl]
  | _ =>
      isProcessing (state (env w')) = false /\
      showDone (state (env w')) = false /\
      timers w' = timers w /\
      acknowledged (env w') = acknowledged (env w) /\
      selectedFile (state (env w')) = selectedFile (state (env w)) /\
      youtubeUrl (state (env w')) = youtubeUrl (state (env w))
  end.
Proof.
  intros Hi Hclear w'. subst w'. cbn [step]. unfold settle. rewrite Hi.
  destruct res as [[status [result|e]]|e].
  - assert (Hfire : forall ts : list (Z * Async Env unit),
              (ts ++ [(2000, closing)]) !! List.length ts = Some (2000, closing))
      by (intros ts; apply lookup_snoc).
    destruct Hclear as [-> | ->]; destruct status, onUpload; cbn;
      (do 3 (split; [reflexivity|]); do 4 (split; [reflexivity|]);
       split; [intros; try discriminate; split; reflexivity|];
       intros later; unfold fire; cbn; rewrite Hfire, delete_snoc; cbn;
       repeat split).
  - destruct Hclear as [-> | ->]; cbn; repeat split.
  - destruct Hclear as [-> | ->]; cbn; repeat split.
Qed.

(** X16.  A click on Delete of an entry whose [filename] is a string
    asks for confirmation, naming the file.  Declined, nothing is sent.
    Confirmed, exactly one DELETE goes to the listing URL followed by the
    encoded name; when [encodeURIComponent] throws on the name, nothing is
    sent and the general alert is shown.  In every case the state of the
    component, the list shown included, stays as it is. *)
Theorem delete_click_outcomes onUpload now i answer items file name (w : World Env) :
  files (state (env w)) = JArr items ->
  items !! i = Some file ->
  get file "filename" = Ok (JStr name) ->
  let w' := step onUpload now (ClickDelete i answer) w in
  let asked := Confirm ("Are you sure you want to delete " +:+ quoted name +:+ "?") in
  state (env w') = state (env w) /\
  timers w' = timers w /\
  acknowledged (env w') = acknowledged (env w) /\
  match answer, encodeURIComponent name with
  | false, _ =>
      dialogs (env w') = dialogs (env w) ++ [asked] /\
      sent w' = sent w /\ pending w' = pending w
  | true, Ok segment =>
      dialogs (env w') = dialogs (env w) ++ [asked] /\
      sent w' = sent w ++ [DELETE (FileUpload.filesUrl +:+ segment)] /\
      pending w' = pending w ++ [(DELETE (FileUpload.filesUrl +:+ segment), delete_resume)]
  | true, Err _ =>
      dialogs (env w')
        = dialogs (env w) ++ [asked; Alert "Error deleting file. Please try again."] /\
      sent w' = sent w /\ pending w' = pending w
  end.
Proof.
  intros Hf Hi Hn w' asked. subst w' asked. cbn [step]. rewrite Hf, Hi, Hn.
  unfold handleDeleteFile, deleteUrl. cbn [ToString].
  destruct answer; [|cbn; repeat split].
  destruct (encodeURIComponent name) as [segment|e]; cbn.
  - repeat split.
  - rewrite <- app_assoc. repeat split.
Qed.

(** X17.  When the response of a deletion arrives.  A success fetches the
    listing again and shows no dialog; a refusal whose body can be read
    alerts with its [error] (or "Unknown error"); anything else alerts
    with the general message.  A failure fetches nothing, and in no case
    is the list in the state touched in that turn. *)
Theorem delete_answer_outcomes onUpload now i r res (w : World Env) :
  pending w !! i = Some (r, delete_resume) ->
  let w' := step onUpload now (Settle i res) w in
  state (env w') = state (env w) /\
  timers w' = timers w /\
  acknowledged (env w') = acknowledged (env w) /\
  match res with
  | Fulfilled (mkResponse true _) =>
      dialogs (env w') = dialogs (env w) /\
      sent w' = sent w ++ [GET FileUpload.filesUrl] /\
      pending w' = delete i (pending w) ++ [(GET FileUpload.filesUrl, overlay_listing)]
  | Fulfilled (mkResponse false (Ok body)) =>
      sent w' = sent w /\ pending w' = delete i (pending w) /\
      dialogs (env w') =
        dialogs (env w) ++
        [Alert match get body "error" with
               | Ok err => "Error deleting file: " +:+
                           ToString (or_else err (JStr "Unknown error"))
               | Err _ => "Error deleting file. Please try again."
               end]
  | _ =>
      sent w' = sent w /\ pending w' = delete i (pending w) /\
      dialogs (env w') = dialogs (env w) ++ [Alert "Error deleting file. Please try again."]
  end.
Proof.
  intros Hi w'. subst w'. cbn [step]. unfold settle. rewrite Hi.
  destruct res as [[[|] [body|e]]|e]; cbn; try (repeat split; fail).
  destruct (get body "error") as [err|e]; cbn; repeat split.
Qed.

End OverlayOutcomes.

Section OverlayInvariants.
Import JS Net Runtime FileUploadOverlay.
Context {P : Platform} {U : UriEncoder}.
Local Open Scope async_scope.

(** *** The requests it sends *)

(** The four requests of the overlay variant. *)
Definition overlay_request (r : Request) : Prop :=
  r = GET FileUpload.filesUrl \/
  (exists file tag, r = FileUpload.uploadRequest file tag /\ In tag fileTypeOptions) \/
  (exists u, r = FileUpload.youtubeRequest u /\ blank u = false) \/
  (exists name target, deleteUrl name = Ok target /\ r = DELETE target).

Definition type_listed (e : Env) : Prop := In (fileType (state e)) fileTypeOptions.

Lemma fire_tidy {E} (Q : Request -> Prop) (I : E -> Prop) now i (w : World E) :
  tidy Q I w -> tidy Q I (fire now i w).
Proof.
  intros Hw. unfold fire.
  destruct (timers w !! i) as [[d cb]|] eqn:Hi; [|exact Hw].
  destruct Hw as (Hi' & Hs & Hp & Ht).
  apply run_tidy.
  - exact (Forall_at _ _ _ _ Ht Hi).
  - repeat split; simpl; auto. now apply Forall_delete_at.
Qed.

Ltac listed := let H := fresh in intros ? H; exact H.

Lemma overlay_fetchFiles_obeys : Obeys overlay_request type_listed fetchFiles.
Proof.
  unfold fetchFiles.
  apply Obeys_try_catch; [|intros e; exact Logic.I].
  apply Obeys_bind; [apply Obeys_fetch; now left|]. intros response.
  apply Obeys_bind; [apply Obeys_lift|]. intros data.
  apply Obeys_bind; [apply Obeys_lift|]. intros found.
  apply Obeys_act. listed.
Qed.

Lemma closing_obeys : Obeys overlay_request type_listed closing.
Proof.
  unfold closing.
  apply Obeys_bind; [apply Obeys_act; listed|]. intros _.
  apply Obeys_bind; [apply Obeys_act; listed|]. intros _.
  split; [apply overlay_fetchFiles_obeys | exact Logic.I].
Qed.

Lemma overlay_uploaded_obeys onUpload clear response :
  Obeys overlay_request type_listed clear ->
  Obeys overlay_request type_listed (uploaded onUpload clear response).
Proof.
  intros Hc. unfold uploaded.
  apply Obeys_bind; [apply Obeys_lift|]. intros result.
  apply Obeys_bind.
  { destruct (ok response); [|exact Logic.I].
    apply Obeys_bind; [exact Hc|]. intros _.
    destruct onUpload; [apply Obeys_act; listed | exact Logic.I]. }
  intros _.
  apply Obeys_bind; [apply Obeys_act; listed|]. intros _.
  split; [apply closing_obeys | exact Logic.I].
Qed.

Lemma overlay_handleUpload_obeys onUpload c :
  In (fileType c) fileTypeOptions ->
  Obeys overlay_request type_listed (handleUpload onUpload c).
Proof.
  intros Hc. unfold handleUpload.
  assert (Hg : forall e, Obeys overlay_request type_listed (giveUp e)).
  { intros e. unfold giveUp.
    apply Obeys_bind; [apply Obeys_act; listed|]. intros _. apply Obeys_act; listed. }
  destruct (uploadMode c).
  - destruct (selectedFile c) as [file|]; [|exact Logic.I].
    apply Obeys_bind; [apply Obeys_act; listed|]. intros _.
    apply Obeys_bind; [apply Obeys_act; listed|]. intros _.
    apply Obeys_try_catch; [|exact Hg].
    apply Obeys_bind.
    + apply Obeys_fetch. right. left. eauto.
    + intros response. apply overlay_uploaded_obeys. apply Obeys_act; listed.
  - destruct (negb (truthy (JStr (trim (youtubeUrl c))))) eqn:Hb; [exact Logic.I|].
    apply Obeys_bind; [apply Obeys_act; listed|]. intros _.
    apply Obeys_bind; [apply Obeys_act; listed|]. intros _.
    apply Obeys_try_catch; [|exact Hg].
    apply Obeys_bind.
    + apply Obeys_fetch. right. right. left. exists (youtubeUrl c). split; [reflexivity|].
      simpl in Hb. rewrite trim_truthy in Hb.
      now rewrite negb_involutive in Hb.
    + intros response. apply overlay_uploaded_obeys. apply Obeys_act; listed.
Qed.

Lemma handleDeleteFile_obeys filename answer :
  Obeys overlay_request type_listed (handleDeleteFile filename answer).
Proof.
  unfold handleDeleteFile, window_confirm. simpl.
  split; [listed|].
  destruct answer; simpl; [|exact Logic.I].
  destruct (deleteUrl (ToString filename)) as [target|e] eqn:Ht; simpl;
    [|split; [listed | exact Logic.I]].
  split; [right; right; right; eauto|].
  intros res.
  apply Obeys_try_catch; [|intros e; apply Obeys_act; listed].
  apply Obeys_bind; [apply Obeys_settled|]. intros response.
  unfold deleted. destruct (ok response).
  - split; [apply overlay_fetchFiles_obeys | exact Logic.I].
  - apply Obeys_bind; [apply Obeys_lift|]. intros errorData.
    apply Obeys_bind; [apply Obeys_lift|]. intros err.
    apply Obeys_act; listed.
Qed.

Lemma overlay_step_tidy onUpload now ev (w : World Env) :
  tidy overlay_request type_listed w ->
  tidy overlay_request type_listed (step onUpload now ev w).
Proof.
  intros Hw. destruct ev as [m|i|chosen|text| |i answer|i res|i]; cbn [step].
  - destruct (isProcessing (state (env w))); [exact Hw|].
    apply run_tidy; [apply Obeys_act; listed | exact Hw].
  - destruct (isProcessing (state (env w))); [exact Hw|].
    destruct (fileTypeOptions !! i) as [value|] eqn:Hv; [|exact Hw].
    apply run_tidy; [|exact Hw].
    apply Obeys_act. intros e _. unfold type_listed.
    change (In value fileTypeOptions).
    apply list_elem_of_In. eapply list_elem_of_lookup_2. exact Hv.
  - destruct (isProcessing (state (env w))); [exact Hw|].
    destruct (uploadMode (state (env w))); [|exact Hw].
    destruct chosen as [|file rest]; [exact Hw|].
    apply run_tidy; [apply Obeys_act; listed | exact Hw].
  - destruct (isProcessing (state (env w))); [exact Hw|].
    destruct (uploadMode (state (env w))); [exact Hw|].
    apply run_tidy; [apply Obeys_act; listed | exact Hw].
  - destruct (uploadDisabled (state (env w))); [exact Hw|].
    apply run_tidy; [|exact Hw].
    apply overlay_handleUpload_obeys. exact (proj1 Hw).
  - destruct (files (state (env w))) as [| | | | | |items|]; try exact Hw.
    destruct (items !! i) as [file|]; [|exact Hw].
    destruct (get file "filename") as [filename|e]; [|exact Hw].
    apply run_tidy; [apply handleDeleteFile_obeys | exact Hw].
  - now apply settle_tidy.
  - now apply fire_tidy.
Qed.

(** X18.  Whatever the events, every request the overlay variant has sent
    is the fetch of the listing, the upload of a file tagged with one of
    the four types its select offers, the POST of a URL that is not blank
    to the YouTube endpoint, or the DELETE of an encoded name under the
    listing URL. *)
Theorem overlay_requests onUpload evs :
  Forall overlay_request (sent (steps onUpload evs mount)).
Proof.
  assert (H0 : tidy overlay_request type_listed mount).
  { apply run_tidy; [apply overlay_fetchFiles_obeys|].
    repeat split; simpl; auto. unfold type_listed. simpl. auto. }
  assert (H : tidy overlay_request type_listed (steps onUpload evs mount)).
  { unfold steps. revert H0. generalize mount.
    induction evs as [|[now ev] evs IH]; intros w Hw; simpl; [exact Hw|].
    apply IH. now apply overlay_step_tidy. }
  exact (proj1 (proj2 H)).
Qed.

End OverlayInvariants.

Section OverlaySingleUpload.
Import JS Net Runtime FileUploadOverlay.
Context {P : Platform} {U : UriEncoder}.
Local Open Scope async_scope.

Definition is_upload (r : Request) : bool := String.eqb (method r) "POST".

(** The uploads among the requests in flight. *)
Definition uploads (l : list (Request * (FetchResult -> Async Env unit))) : nat :=
  List.length (List.filter (fun rk => is_upload (fst rk)) l).

(** A computation that leaves the overlay alone: it sets no timer, starts
    no upload and keeps [isProcessing]. *)
Fixpoint Calm {A : Type} (m : Async Env A) : Prop :=
  match m with
  | Ret _ => True
  | Throw _ => True
  | Read k => forall x, Calm (k x)
  | Act f k => (forall e, isProcessing (state (f e)) = isProcessing (state e)) /\ Calm k
  | Now k => forall t, Calm (k t)
  | Fetch r k => is_upload r = false /\ forall x, Calm (k x)
  | Spawn p k => Calm p /\ Calm k
  | After _ _ _ => False
  end.

Lemma Calm_bind {A B} (m : Async Env A) (f : A -> Async Env B) :
  Calm m -> (forall a, Calm (f a)) -> Calm (bind m f).
Proof.
  intros Hm Hf. induction m; simpl in *; auto.
  - destruct Hm as [Hr Hk]. split; auto.
  - destruct Hm as [Hr Hk]. split; auto.
  - destruct Hm as [Hp Hk]. split; auto.
Qed.

Lemma Calm_try_catch {A} (m : Async Env A) h :
  Calm m -> (forall e, Calm (h e)) -> Calm (try_catch m h).
Proof.
  intros Hm Hh. induction m; simpl in *; auto.
  - destruct Hm as [Hr Hk]. split; auto.
  - destruct Hm as [Hr Hk]. split; auto.
  - destruct Hm as [Hp Hk]. split; auto.
Qed.

Definition calm_wait (rk : Request * (FetchResult -> Async Env unit)) : Prop :=
  is_upload (fst rk) = false /\ forall res, Calm (snd rk res).

Lemma run_calm now (m : Async Env unit) :
  forall w, Calm m ->
    let w' := fst (run now m w) in
    isProcessing (state (env w')) = isProcessing (state (env w)) /\
    timers w' = timers w /\
    exists extra, pending w' = pending w ++ extra /\ Forall calm_wait extra.
Proof.
  revert m. fix IH 1. intros m w Hm.
  destruct m as [a|e|k|f k|k|r k|p k|d cb k]; simpl in *.
  - repeat split. exists []. now rewrite app_nil_r.
  - repeat split. exists []. now rewrite app_nil_r.
  - apply IH, Hm.
  - destruct Hm as [Hf Hk].
    destruct (IH k (with_env f w) Hk) as (H1 & H2 & extra & H3 & H4).
    split; [rewrite H1; apply Hf|]. split; [exact H2|]. exists extra. auto.
  - apply IH, Hm.
  - destruct Hm as [Hr Hk]. repeat split.
    exists [(r, k)]. split; [reflexivity|]. constructor; [|constructor].
    split; assumption.
  - destruct Hm as [Hp Hk].
    destruct (IH p w Hp) as (H1 & H2 & extra1 & H3 & H4).
    destruct (IH k (fst (run now p w)) Hk) as (H5 & H6 & extra2 & H7 & H8).
    split; [congruence|]. split; [congruence|].
    exists (extra1 ++ extra2). split.
    + rewrite H7, H3. now rewrite app_assoc.
    + apply Forall_app; split; assumption.
  - destruct Hm.
Qed.

Lemma uploads_app l l' : uploads (l ++ l') = (uploads l + uploads l')%nat.
Proof. unfold uploads. now rewrite List.filter_app, length_app. Qed.

Lemma uploads_calm extra : Forall calm_wait extra -> uploads extra = 0%nat.
Proof.
  induction 1 as [|[r k] l [Hr _] Hl IH]; [reflexivity|].
  unfold uploads in *. simpl in *. now rewrite Hr.
Qed.

Lemma uploads_delete l i x :
  l !! i = Some x ->
  uploads l = (uploads (delete i l) + if is_upload (fst x) then 1 else 0)%nat.
Proof.
  revert i. induction l as [|y l IH]; intros [|i]; simpl; try discriminate.
  - intros [= ->]. unfold uploads. simpl. destruct (is_upload (fst x)); simpl; lia.
  - intros H. specialize (IH i H). unfold uploads in *. simpl.
    destruct (is_upload (fst y)); simpl; lia.
Qed.

(** What waits for a response: the code of an upload behind each upload,
    calm code behind everything else. *)
Definition waits_well (rk : Request * (FetchResult -> Async Env unit)) : Prop :=
  if is_upload (fst rk)
  then exists onUpload clear,
         (clear = setSelectedFile None \/ clear = setYoutubeUrl "") /\
         snd rk = overlay_resume onUpload clear
  else forall res, Calm (snd rk res).

Lemma calm_waits_well extra : Forall calm_wait extra -> Forall waits_well extra.
Proof.
  intros H. eapply Forall_impl; [exact H|].
  intros [r k] [Hr Hk]. unfold waits_well. simpl in *.
  now rewrite Hr.
Qed.

(** Uploads in flight and overlays waiting to close. *)
Definition busy (w : World Env) : nat := (uploads (pending w) + List.length (timers w))%nat.

(** The invariant: at most one upload is in flight or showing its Done
    mark, and [isProcessing] is set while one is. *)
Definition one_upload (w : World Env) : Prop :=
  Forall waits_well (pending w) /\
  Forall (fun t => snd t = closing) (timers w) /\
  (busy w <= 1)%nat /\
  (isProcessing (state (env w)) = false -> busy w = 0%nat).

Lemma one_upload_calm now (m : Async Env unit) (w : World Env) :
  Calm m -> one_upload w -> one_upload (fst (run now m w)).
Proof.
  intros Hm (Hp & Ht & Hb & Hi).
  destruct (run_calm now m w Hm) as (H1 & H2 & extra & H3 & H4).
  unfold one_upload, busy in *. rewrite H1, H2, H3, uploads_app, (uploads_calm _ H4).
  split; [apply Forall_app; split; [exact Hp | now apply calm_waits_well]|].
  split; [exact Ht|]. split; [lia|]. intros H. specialize (Hi H). lia.
Qed.

Lemma overlay_fetchFiles_calm : Calm fetchFiles.
Proof.
  unfold fetchFiles.
  apply Calm_try_catch; [|intros e; exact Logic.I].
  apply Calm_bind.
  { split; [reflexivity|]. intros [response|e]; exact Logic.I. }
  intros response.
  apply Calm_bind; [destruct (json response); exact Logic.I|]. intros data.
  apply Calm_bind; [destruct (get data "files"); exact Logic.I|]. intros found.
  split; [reflexivity | exact Logic.I].
Qed.

Lemma handleDeleteFile_calm filename answer : Calm (handleDeleteFile filename answer).
Proof.
  unfold handleDeleteFile, window_confirm. simpl.
  split; [reflexivity|].
  destruct answer; simpl; [|exact Logic.I].
  destruct (deleteUrl (ToString filename)) as [target|e]; simpl;
    [|split; [reflexivity | exact Logic.I]].
  split; [reflexivity|]. intros res.
  apply Calm_try_catch; [|intros e; split; [reflexivity | exact Logic.I]].
  apply Calm_bind; [destruct res; exact Logic.I|]. intros response.
  unfold deleted. destruct (ok response).
  - split; [apply overlay_fetchFiles_calm | exact Logic.I].
  - apply Calm_bind; [destruct (json response); exact Logic.I|]. intros errorData.
    apply Calm_bind; [destruct (get errorData "error"); exact Logic.I|]. intros err.
    split; [reflexivity | exact Logic.I].
Qed.

(** The turn of an upload's response: the overlay closes at once, or one
    timer is set and [isProcessing] stays. *)
Lemma overlay_resume_turn onUpload clear res now (w : World Env) :
  clear = setSelectedFile None \/ clear = setYoutubeUrl "" ->
  let w' := fst (run now (overlay_resume onUpload clear res) w) in
  pending w' = pending w /\
  ((timers w' = timers w /\ isProcessing (state (env w')) = false) \/
   (timers w' = timers w ++ [(2000, closing)] /\
    isProcessing (state (env w')) = isProcessing (state (env w)))).
Proof.
  intros Hc.
  destruct res as [[status [result|e]]|e].
  - destruct Hc as [-> | ->]; destruct status, onUpload; cbn;
      (split; [reflexivity|]; right; split; reflexivity).
  - destruct Hc as [-> | ->]; cbn; (split; [reflexivity|]; left; split; reflexivity).
  - destruct Hc as [-> | ->]; cbn; (split; [reflexivity|]; left; split; reflexivity).
Qed.

Lemma upload_of_is_upload c r clear :
  upload_of c = Some (r, clear) ->
  is_upload r = true /\ (clear = setSelectedFile None \/ clear = setYoutubeUrl "").
Proof.
  unfold upload_of. destruct (uploadMode c).
  - destruct (selectedFile c); [|discriminate]. intros [= <- <-]. auto.
  - destruct (negb (truthy (JStr (trim (youtubeUrl c))))); [discriminate|].
    intros [= <- <-]. auto.
Qed.

Lemma one_upload_step onUpload now ev (w : World Env) :
  one_upload w -> one_upload (step onUpload now ev w).
Proof.
  intros Hw.
  assert (Hset : forall f : Env -> Env,
            (forall e, isProcessing (state (f e)) = isProcessing (state e)) ->
            one_upload (fst (run now (act f) w))).
  { intros f Hf. apply one_upload_calm; [|exact Hw]. split; [exact Hf | exact Logic.I]. }
  destruct ev as [m|i|chosen|text| |i answer|i res|i]; cbn [step].
  - destruct (isProcessing (state (env w))); [exact Hw|]. now apply Hset.
  - destruct (isProcessing (state (env w))); [exact Hw|].
    destruct (fileTypeOptions !! i); [|exact Hw]. now apply Hset.
  - destruct (isProcessing (state (env w))); [exact Hw|].
    destruct (uploadMode (state (env w))); [|exact Hw].
    destruct chosen; [exact Hw|]. now apply Hset.
  - destruct (isProcessing (state (env w))); [exact Hw|].
    destruct (uploadMode (state (env w))); [exact Hw|]. now apply Hset.
  - destruct (uploadDisabled (state (env w))) eqn:Hd; [exact Hw|].
    rewrite overlay_handleUpload_turn.
    destruct (upload_of (state (env w))) as [[r clear]|] eqn:Hu; [|exact Hw].
    destruct (upload_of_is_upload _ _ _ Hu) as [Hr Hc].
    unfold uploadDisabled in Hd. apply orb_false_iff in Hd as [_ Hproc].
    destruct Hw as (Hp & Ht & Hb & Hi). specialize (Hi Hproc).
    unfold one_upload, busy in *. simpl.
    rewrite uploads_app. unfold uploads at 2. simpl. rewrite Hr. simpl.
    split.
    { apply Forall_app; split; [exact Hp|]. constructor; [|constructor].
      unfold waits_well. simpl. rewrite Hr. eauto. }
    split; [exact Ht|]. split; [lia|]. discriminate.
  - destruct (files (state (env w))) as [| | | | | |items|]; try exact Hw.
    destruct (items !! i) as [file|]; [|exact Hw].
    destruct (get file "filename") as [filename|e]; [|exact Hw].
    apply one_upload_calm; [apply handleDeleteFile_calm | exact Hw].
  - unfold settle. destruct (pending w !! i) as [[r k]|] eqn:Hi; [|exact Hw].
    destruct Hw as (Hp & Ht & Hb & Hproc).
    pose proof (Forall_at _ _ _ _ Hp Hi) as Hk. unfold waits_well in Hk. simpl in Hk.
    pose proof (uploads_delete _ _ _ Hi) as Hcount. simpl in Hcount.
    pose proof (Forall_delete_at _ _ i Hp) as Hp'.
    destruct (is_upload r) eqn:Hr.
    + destruct Hk as (onUpload' & clear & Hc & ->).
      destruct (overlay_resume_turn onUpload' clear res now
                  (mkWorld (env w) (delete i (pending w)) (timers w) (sent w)) Hc)
        as (H1 & [[H2 H3] | [H2 H3]]);
        unfold one_upload, busy in *; simpl in *; rewrite H1, H2.
      * split; [exact Hp'|]. split; [exact Ht|]. split; lia.
      * rewrite length_app. simpl.
        split; [exact Hp'|].
        split; [apply Forall_app; split; [exact Ht | constructor; [reflexivity|constructor]]|].
        split; [lia|]. rewrite H3. intros H. specialize (Hproc H). lia.
    + apply one_upload_calm; [apply Hk|].
      unfold one_upload, busy in *. simpl.
      split; [exact Hp'|]. split; [exact Ht|]. split; [lia|].
      intros H. specialize (Hproc H). lia.
  - unfold fire. destruct (timers w !! i) as [[d cb]|] eqn:Hi; [|exact Hw].
    destruct Hw as (Hp & Ht & Hb & Hproc).
    pose proof (Forall_at _ _ _ _ Ht Hi) as Hcb. simpl in Hcb. subst cb.
    assert (Hlen : List.length (timers w) = 1%nat /\ uploads (pending w) = 0%nat).
    { unfold busy in Hb. destruct (timers w); [destruct i; discriminate|]. simpl in *. lia. }
    destruct Hlen as [Hlen Hup].
    assert (Hdel : delete i (timers w) = []).
    { destruct (timers w) as [|t [|t' ts]]; try discriminate.
      destruct i; [reflexivity | discriminate]. }
    unfold closing. cbn. rewrite Hdel.
    unfold one_upload, busy. simpl. rewrite uploads_app, Hup. simpl.
    split.
    { apply Forall_app; split; [exact Hp|]. constructor; [|constructor].
      unfold waits_well. simpl. intros res.
      pose proof overlay_fetchFiles_calm as Hc. unfold fetchFiles in Hc. simpl in Hc.
      apply Hc. }
    split; [constructor|]. split; [lia|]. reflexivity.
Qed.

(** X19.  Whatever the events, at most one upload is in flight or showing
    its Done mark.  While one is, [isProcessing] is set: the Upload button
    is disabled and a click on it, a change of mode, of type, of file or of
    URL does nothing. *)
Theorem overlay_single_upload onUpload evs :
  let w := steps onUpload evs mount in
  (uploads (pending w) + List.length (timers w) <= 1)%nat /\
  ((uploads (pending w) + List.length (timers w))%nat = 1%nat ->
     uploadDisabled (state (env w)) = true /\
     forall now,
       step onUpload now ClickUpload w = w /\
       (forall m, step onUpload now (ChangeMode m) w = w) /\
       (forall i, step onUpload now (ChangeFileType i) w = w) /\
       (forall chosen, step onUpload now (ChooseFiles chosen) w = w) /\
       (forall text, step onUpload now (ChangeYoutubeUrl text) w = w)).
Proof.
  intros w.
  assert (Hw : one_upload w).
  { subst w. unfold steps.
    assert (H0 : one_upload mount).
    { apply one_upload_calm; [apply overlay_fetchFiles_calm|].
      unfold one_upload, busy. simpl. repeat split; auto. }
    revert H0. generalize mount.
    induction evs as [|[now ev] evs IH]; intros w0 H0; simpl; [exact H0|].
    apply IH. now apply one_upload_step. }
  destruct Hw as (_ & _ & Hb & Hproc). unfold busy in *.
  split; [exact Hb|]. intros Hone.
  assert (Hp : isProcessing (state (env w)) = true).
  { destruct (isProcessing (state (env w))); [reflexivity|].
    specialize (Hproc eq_refl). lia. }
  assert (Hd : uploadDisabled (state (env w)) = true).
  { unfold uploadDisabled. rewrite Hp. apply orb_true_r. }
  split; [exact Hd|]. intros now. cbn [step]. rewrite Hd, Hp.
  repeat split.
Qed.

End OverlaySingleUpload.

Section OverlayRuns.
Import JS Net Runtime.
Existing Instance Demo.browser.
Existing Instance Demo.uri.

Definition report_listing : JSValue :=
  JObj [("files", JArr [JObj [("filename", JStr "gold report.pdf"); ("size", JNum 2048);
                              ("processed", JBool true); ("date_modified", JNum 1700000000)]])].

(** The overlay variant with its listing shown. *)
Definition overlay_listed : World FileUploadOverlay.Env :=
  FileUploadOverlay.steps true
    [(1, FileUploadOverlay.Settle 0 (Fulfilled (mkResponse true (Ok report_listing))))]
    FileUploadOverlay.mount.

(** A file chosen and Upload clicked. *)
Definition overlay_busy : World FileUploadOverlay.Env :=
  FileUploadOverlay.steps true
    [(2, FileUploadOverlay.ChooseFiles [chart1]); (3, FileUploadOverlay.ClickUpload)]
    overlay_listed.

(** Delete clicked on the one entry, and confirmed. *)
Definition overlay_deleting : World FileUploadOverlay.Env :=
  FileUploadOverlay.step true 2 (FileUploadOverlay.ClickDelete 0 true) overlay_listed.

Lemma overlay_upload_outcomes_witness :
  let refused := Fulfilled (mkResponse false (Ok (JObj [("error", JStr "File too large")]))) in
  let w' := FileUploadOverlay.step true 4 (FileUploadOverlay.Settle 0 refused) overlay_busy in
  FileUploadOverlay.showDone (FileUploadOverlay.state (env w')) = true /\
  FileUploadOverlay.isProcessing (FileUploadOverlay.state (env w')) = true /\
  FileUploadOverlay.selectedFile (FileUploadOverlay.state (env w')) = Some chart1 /\
  FileUploadOverlay.acknowledged (env w') = [] /\
  timers w' = [(2000, closing)].
Proof.
  destruct (overlay_upload_outcomes true 4 0
              (FileUpload.uploadRequest chart1 "document")
              (FileUploadOverlay.setSelectedFile None)
              (Fulfilled (mkResponse false (Ok (JObj [("error", JStr "File too large")]))))
              overlay_busy eq_refl (or_introl eq_refl))
    as (_ & _ & _ & Hd & Hp & Ht & Ha & Hk & _).
  split; [exact Hd|]. split; [exact Hp|].
  split; [exact (proj1 (Hk eq_refl))|]. split; [exact Ha | exact Ht].
Defined.

Lemma delete_click_outcomes_witness :
  sent overlay_deleting
  = [GET FileUpload.filesUrl; DELETE "http://localhost:8000/files/gold%20report.pdf"] /\
  FileUploadOverlay.dialogs (env overlay_deleting)
  = [FileUploadOverlay.Confirm
       ("Are you sure you want to delete " +:+
        FileUploadOverlay.quoted "gold report.pdf" +:+ "?")] /\
  FileUploadOverlay.state (env overlay_deleting) = FileUploadOverlay.state (env overlay_listed).
Proof.
  destruct (delete_click_outcomes true 2 0 true
              [JObj [("filename", JStr "gold report.pdf"); ("size", JNum 2048);
                     ("processed", JBool true); ("date_modified", JNum 1700000000)]]
              (JObj [("filename", JStr "gold report.pdf"); ("size", JNum 2048);
                     ("processed", JBool true); ("date_modified", JNum 1700000000)])
              "gold report.pdf" overlay_listed eq_refl eq_refl eq_refl)
    as (Hs & _ & _ & Hd & Hsent & _).
  split; [exact Hsent|]. split; [exact Hd | exact Hs].
Defined.

(** A built-in that throws on the name, as the real one does on a name
    with a lone surrogate: the confirmed click sends nothing and alerts. *)
Definition throwing : UriEncoder := {|
  encodeURIComponent := fun _ => Err (mkError "URIError" "URI malformed")
|}.

Example delete_when_the_encoder_throws :
  let w' := FileUploadOverlay.step (U := throwing) true 2
              (FileUploadOverlay.ClickDelete 0 true) overlay_listed in
  sent w' = sent overlay_listed /\
  pending w' = pending overlay_listed /\
  FileUploadOverlay.dialogs (env w')
  = [FileUploadOverlay.Confirm
       ("Are you sure you want to delete " +:+
        FileUploadOverlay.quoted "gold report.pdf" +:+ "?");
     FileUploadOverlay.Alert "Error deleting file. Please try again."].
Proof. repeat split. Qed.

Lemma delete_answer_outcomes_witness :
  let refused := Fulfilled (mkResponse false (Ok (JObj [("error", JStr "File not found")]))) in
  let w' := FileUploadOverlay.step true 3 (FileUploadOverlay.Settle 0 refused) overlay_deleting in
  FileUploadOverlay.dialogs (env w')
  = FileUploadOverlay.dialogs (env overlay_deleting)
    ++ [FileUploadOverlay.Alert "Error deleting file: File not found"] /\
  sent w' = sent overlay_deleting /\
  FileUploadOverlay.files (FileUploadOverlay.state (env w'))
  = FileUploadOverlay.files (FileUploadOverlay.state (env overlay_listed)).
Proof.
  destruct (delete_answer_outcomes true 3 0
              (DELETE "http://localhost:8000/files/gold%20report.pdf")
              (Fulfilled (mkResponse false (Ok (JObj [("error", JStr "File not found")]))))
              overlay_deleting eq_refl)
    as (Hs & _ & _ & Hsent & _ & Hd).
  split; [exact Hd|]. split; [exact Hsent|]. now rewrite Hs.
Defined.

(** One upload in flight: the count of the invariant is one, and a
    second click sends nothing. *)
Example overlay_busy_is_busy :
  uploads (pending overlay_busy) = 1%nat /\
  timers overlay_busy = [] /\
  sent (FileUploadOverlay.step true 4 FileUploadOverlay.ClickUpload overlay_busy)
  = [GET FileUpload.filesUrl; FileUpload.uploadRequest chart1 "document"].
Proof. repeat split. Qed.

End OverlayRuns.

(* ===================================================================== *)
(** ** The learning panel *)
(* ===================================================================== *)

Section LearningProperties.
Import JS Net Runtime Learning.
Variable status : Response -> Z.
Local Open Scope async_scope.

(** The code of [fetchLearningStats] that waits for the response. *)
Definition learning_resume (res : FetchResult) : Async State unit :=
  try_finally
    (try_catch
       (response <- match res with
                    | Fulfilled response => Ret response
                    | Rejected e => Throw e
                    end ;;
        if negb (ok response)
        then Throw (PlainError ("Error: " +:+ pretty (status response)))
        else
          data <- lift (json response) ;;
          setStats data)
       (fun err =>
          setError (if String.eqb (message err) ""
                    then "Failed to fetch learning statistics" else message err)))
    (setLoading false).

Definition fetching (s : State) : State := mkState (stats s) true "" (activeTab s).

Lemma fetchLearningStats_turn now (w : World State) :
  fst (run now (fetchLearningStats status) w) =
    mkWorld (fetching (env w)) (pending w ++ [(GET statsUrl, learning_resume)])
            (timers w) (sent w ++ [GET statsUrl]).
Proof. reflexivity. Qed.

(** The text the panel shows for an error thrown. *)
Definition told (e : Error) : string :=
  if String.eqb (message e) "" then "Failed to fetch learning statistics" else message e.

Lemma told_truthy e : truthy (JStr (told e)) = true.
Proof.
  unfold told. destruct (String.eqb (message e) "") eqn:H; [reflexivity|].
  simpl. now rewrite H.
Qed.

(** The state a settled fetch leaves. *)
Definition settled_state (res : FetchResult) (s : State) : State :=
  match res with
  | Fulfilled response =>
      if ok response then
        match json response with
        | Ok data => mkState data false (error s) (activeTab s)
        | Err e => mkState (stats s) false (told e) (activeTab s)
        end
      else mkState (stats s) false ("Error: " +:+ pretty (status response)) (activeTab s)
  | Rejected e => mkState (stats s) false (told e) (activeTab s)
  end.

Lemma learning_resume_run res now (w : World State) :
  fst (run now (learning_resume res) w)
  = mkWorld (settled_state res (env w)) (pending w) (timers w) (sent w).
Proof. destruct res as [[[|] [data|e]]|e]; reflexivity. Qed.

Lemma error_box s msg :
  loading s = false -> error s = msg -> truthy (JStr msg) = true ->
  renderContent s = ErrorPanel msg.
Proof. intros Hl He Ht. unfold renderContent. now rewrite Hl, He, Ht. Qed.

(** X20.  When a fetch of the statistics settles: the loading flag is
    cleared, the tab stays and nothing is sent.  A 2xx response with a
    JSON body makes that body the statistics, whatever it is, and leaves
    the error as it was.  A response that is not 2xx leaves the statistics
    loaded before in the state and shows the error box with "Error: " and
    the status code; a rejected [fetch] or a body that is not JSON shows
    it with the message of the error (a fixed text when it has none). *)
Theorem learning_refresh_outcomes now i r res (w : World State) :
  pending w !! i = Some (r, learning_resume) ->
  let w' := step status now (Settle i res) w in
  loading (env w') = false /\
  activeTab (env w') = activeTab (env w) /\
  sent w' = sent w /\
  pending w' = delete i (pending w) /\
  match res with
  | Fulfilled (mkResponse true (Ok data)) =>
      stats (env w') = data /\ error (env w') = error (env w)
  | Fulfilled (mkResponse true (Err e)) =>
      stats (env w') = stats (env w) /\
      renderContent (env w') = ErrorPanel (told e)
  | Fulfilled (mkResponse false body) =>
      stats (env w') = stats (env w) /\
      renderContent (env w') =
        ErrorPanel ("Error: " +:+ pretty (status (mkResponse false body)))
  | Rejected e =>
      stats (env w') = stats (env w) /\
      renderContent (env w') = ErrorPanel (told e)
  end.
Proof.
  intros Hi w'. subst w'. cbn [step]. unfold settle. rewrite Hi.
  cbn [fst snd]. rewrite learning_resume_run.
  destruct res as [[[|] [data|e]]|e]; cbn [settled_state ok json env pending sent];
    (do 4 (split; [reflexivity|])); (split; [reflexivity|]);
    try reflexivity;
    try (apply error_box; [reflexivity | reflexivity | apply told_truthy]);
    (apply error_box; [reflexivity | reflexivity | reflexivity]).
Qed.

(** The invariant: the code behind every request in flight is that of
    [fetchLearningStats], and the loading flag is set only while a request
    is in flight. *)
Definition awaited (w : World State) : Prop :=
  Forall (fun rk => snd rk = learning_resume) (pending w) /\
  (loading (env w) = true -> pending w <> []).

Lemma learning_resume_turn res now (w : World State) :
  let w' := fst (run now (learning_resume res) w) in
  loading (env w') = false /\ pending w' = pending w.
Proof. destruct res as [[[|] [data|e]]|e]; cbn; split; reflexivity. Qed.

Lemma awaited_fetch now (w : World State) :
  awaited w -> awaited (fst (run now (fetchLearningStats status) w)).
Proof.
  intros [Hp _]. rewrite fetchLearningStats_turn. split; simpl.
  - apply Forall_app; split; [exact Hp|]. constructor; [reflexivity|constructor].
  - intros _ H. now apply app_eq_nil in H as [_ H].
Qed.

Lemma awaited_step now ev (w : World State) :
  awaited w -> awaited (step status now ev w).
Proof.
  intros Hw. destruct ev as [| |i|i res]; cbn [step].
  - now apply awaited_fetch.
  - destruct (renderContent (env w)); try exact Hw. now apply awaited_fetch.
  - destruct (tabs !! i); exact Hw.
  - unfold settle. destruct (pending w !! i) as [[r k]|] eqn:Hi; [|exact Hw].
    destruct Hw as [Hp _].
    pose proof (Forall_at _ _ _ _ Hp Hi) as Hk. simpl in Hk. subst k.
    destruct (learning_resume_turn res now
                (mkWorld (env w) (delete i (pending w)) (timers w) (sent w)))
      as [Hl Hpend].
    split.
    + rewrite Hpend. simpl. now apply Forall_delete_at.
    + rewrite Hl. discriminate.
Qed.

(** X21.  Whatever the events, the loading text is shown only while a
    fetch of the statistics is in flight: it cannot stay on the screen
    with nothing left to answer.  And everything the panel has sent is a
    GET of the statistics. *)
Theorem learning_loading_is_awaited evs :
  let w := steps status evs (mount status) in
  (renderContent (env w) = LoadingPanel -> pending w <> []) /\
  Forall (fun r => r = GET statsUrl) (sent w).
Proof.
  intros w.
  assert (Hw : awaited w /\ Forall (fun r => r = GET statsUrl) (sent w)).
  { subst w. unfold steps.
    assert (H0 : awaited (mount status) /\
                 Forall (fun r => r = GET statsUrl) (sent (mount status))).
    { split; [|repeat constructor].
      apply awaited_fetch. split; [constructor | discriminate]. }
    revert H0. generalize (mount status).
    induction evs as [|[now ev] evs IH]; intros w0 H0; simpl; [exact H0|].
    apply IH. destruct H0 as [Ha Hs]. split; [now apply awaited_step|].
    assert (Hf : Forall (fun r => r = GET statsUrl)
                   (sent (fst (run now (fetchLearningStats status) w0)))).
    { rewrite fetchLearningStats_turn. simpl.
      apply Forall_app; split; [exact Hs | repeat constructor]. }
    destruct ev as [| |i|i res]; cbn [step].
    - exact Hf.
    - destruct (renderContent (env w0)); try exact Hs. exact Hf.
    - destruct (tabs !! i); exact Hs.
    - unfold settle. destruct (pending w0 !! i) as [[r k]|] eqn:Hi; [|exact Hs].
      destruct Ha as [Hp _].
      pose proof (Forall_at _ _ _ _ Hp Hi) as Hk. simpl in Hk. subst k.
      destruct res as [[[|] [data|e]]|e]; exact Hs. }
  destruct Hw as [[_ Hl] Hs]. split; [|exact Hs].
  intros Hr. apply Hl. unfold renderContent in Hr.
  destruct (loading (env w)); [reflexivity|].
  destruct (truthy (JStr (error (env w)))); [discriminate|].
  destruct (negb (truthy (stats (env w)))); discriminate.
Qed.

End LearningProperties.

Section LearningRuns.
Import JS Net Runtime.

(** A server that answers every request with status 500. *)
Definition failing_status (response : Response) : Z := 500.

Lemma learning_refresh_outcomes_witness :
  let w' := Learning.step failing_status 1
              (Learning.Settle 0 (Fulfilled (mkResponse false (Ok JNull))))
              (Learning.mount failing_status) in
  Learning.renderContent (env w') = Learning.ErrorPanel "Error: 500" /\
  Learning.loading (env w') = false /\
  pending w' = [].
Proof.
  destruct (learning_refresh_outcomes failing_status 1 0 (GET Learning.statsUrl)
              (Fulfilled (mkResponse false (Ok JNull)))
              (Learning.mount failing_status) eq_refl)
    as (Hl & _ & _ & Hp & _ & Hr).
  split; [exact Hr|]. split; [exact Hl | exact Hp].
Defined.

(** Two refreshes in flight: the first answer takes the loading text
    away while the second is still awaited, and a failure that arrives
    after a success hides the statistics just loaded. *)
Example learning_overlapping_refreshes :
  let summary := JObj [("total_files_processed", JNum 3)] in
  let w := Learning.steps failing_status
             [(1, Learning.ClickRefresh);
              (2, Learning.Settle 0 (Fulfilled (mkResponse true (Ok summary))))]
             (Learning.mount failing_status) in
  let w' := Learning.step failing_status 3
              (Learning.Settle 0 (Fulfilled (mkResponse false (Ok JNull)))) w in
  Learning.renderContent (env w) = Learning.TabPanel "stats" /\
  List.length (pending w) = 1%nat /\
  Learning.renderContent (env w') = Learning.ErrorPanel "Error: 500" /\
  Learning.stats (env w') = summary.
Proof. vm_compute. repeat split. Qed.

End LearningRuns.
